(** * Timesheet ingestion and aggregation engine: a shallow embedding

    The TypeScript sources embedded here are
    - [utils/excelParser.ts]: [parseDate], [parseNumber], [parseString],
      [detectColumns], [parseExcelFile], [generateRowHash];
    - [utils/errorHandler.ts]: [createError], [logError],
      [getUserFriendlyMessage], [validateWorkItem], [validateFileType];
    - [contexts/DataContext.tsx]: [addWorkItems], [addWorkCodes], [clearData];
    - [pages/Import.tsx]: [handleFileUpload] with its duplicate check and its
      undefined-code check, [handleDrop], [handleFileInput];
    - [utils/dataAggregation.ts]: [aggregateByWorkType], [generateRatioData],
      [calculateTotals];
    - [pages/Codes.tsx]: [handleEdit], [handleSave], [handleCancel],
      [handleAddNew].

    JavaScript data is modelled as the language defines it: a string is the
    sequence of its UTF-16 code units, a number is an IEEE 754 binary64 value
    (the [spec_float] of the standard library, with its correctly rounded
    operations), an exception is an explicit [Throw] result. *)

From Stdlib Require Import ZArith List Bool Lia String Ascii.
From Stdlib Require Import SpecFloat.
From stdpp Require Import base list gmap.

Local Open Scope Z_scope.

(** ** JavaScript strings *)

Module Str.

(** A string is the list of its UTF-16 code units, each in [0, 65536). *)
Abbreviation jsstring := (list Z).

Definition wf_string (s : jsstring) : Prop := Forall (fun c => 0 <= c < 65536) s.

(** *** String literals

    The literals of the TypeScript source are written here as Rocq strings,
    that is as UTF-8 bytes; [lit] turns them into UTF-16 code units. *)

Fixpoint bytes_of_string (s : string) : list Z :=
  match s with
  | EmptyString => []
  | String a r => Z.of_N (N_of_ascii a) :: bytes_of_string r
  end.

Fixpoint code_points_of_utf8 (bs : list Z) : list Z :=
  match bs with
  | [] => []
  | b1 :: r1 =>
    if b1 <? 128 then b1 :: code_points_of_utf8 r1
    else
      match r1 with
      | [] => [65533]
      | b2 :: r2 =>
        if b1 <? 224 then (b1 mod 32 * 64 + b2 mod 64) :: code_points_of_utf8 r2
        else
          match r2 with
          | [] => [65533]
          | b3 :: r3 =>
            if b1 <? 240
            then (b1 mod 16 * 4096 + b2 mod 64 * 64 + b3 mod 64) :: code_points_of_utf8 r3
            else
              match r3 with
              | [] => [65533]
              | b4 :: r4 =>
                (b1 mod 8 * 262144 + b2 mod 64 * 4096 + b3 mod 64 * 64 + b4 mod 64)
                  :: code_points_of_utf8 r4
              end
          end
      end
  end.

Definition code_units_of_code_point (cp : Z) : jsstring :=
  if cp <? 65536 then [cp]
  else [55296 + (cp - 65536) / 1024; 56320 + (cp - 65536) mod 1024].

Definition lit (s : string) : jsstring :=
  flat_map code_units_of_code_point (code_points_of_utf8 (bytes_of_string s)).

(** *** Operations of [String.prototype] *)

(** WhiteSpace and LineTerminator code units, the ones [trim] strips. *)
Definition isWhiteSpace (c : Z) : bool :=
  (c =? 9) || (c =? 10) || (c =? 11) || (c =? 12) || (c =? 13) || (c =? 32)
  || (c =? 160) || (c =? 5760) || ((8192 <=? c) && (c <=? 8202))
  || (c =? 8232) || (c =? 8233) || (c =? 8239) || (c =? 8287)
  || (c =? 12288) || (c =? 65279).

Fixpoint trimStart (s : jsstring) : jsstring :=
  match s with
  | c :: r => if isWhiteSpace c then trimStart r else s
  | [] => []
  end.

Definition trimEnd (s : jsstring) : jsstring := rev (trimStart (rev s)).

Definition trim (s : jsstring) : jsstring := trimEnd (trimStart s).

Fixpoint startsWith (s p : jsstring) : bool :=
  match p, s with
  | [], _ => true
  | _ :: _, [] => false
  | a :: p', b :: s' => (a =? b) && startsWith s' p'
  end.

(** [s.includes(p)]: [p] occurs in [s] as a contiguous run of code units. *)
Fixpoint includes (s p : jsstring) : bool :=
  startsWith s p ||
  match s with
  | [] => false
  | _ :: s' => includes s' p
  end.

(** [s.substring(i, j)] for [0 <= i <= j]. *)
Definition substring (s : jsstring) (i j : nat) : jsstring :=
  firstn (j - i) (skipn i s).

(** [s.split(sep)[0]] for a one-unit separator: the part before its first
    occurrence, or all of [s]. *)
Fixpoint before (sep : Z) (s : jsstring) : jsstring :=
  match s with
  | [] => []
  | c :: r => if c =? sep then [] else c :: before sep r
  end.

Definition isDigit (c : Z) : bool := (48 <=? c) && (c <=? 57).

Definition digit_chars : list Z := [48; 49; 50; 51; 52; 53; 54; 55; 56; 57].

(** Basic Latin lower-casing; it agrees with [toLowerCase] on every string
    whose cased letters are all Basic Latin. *)
Definition toLowerCase_basic (s : jsstring) : jsstring :=
  map (fun c => if (65 <=? c) && (c <=? 90) then c + 32 else c) s.

(** [s.endsWith(p)] *)
Definition endsWith (s p : jsstring) : bool := startsWith (rev s) (rev p).

End Str.

(** ** JavaScript numbers *)

Module Num.
Import Str.

(** A Number is a binary64 value; the operations are those of IEEE 754
    (round to nearest, ties to even). *)
Abbreviation number := spec_float.

Definition prec : Z := 53.
Definition emax : Z := 1024.

Definition add : number -> number -> number := SFadd prec emax.
Definition sub : number -> number -> number := SFsub prec emax.
Definition mul : number -> number -> number := SFmul prec emax.
Definition div : number -> number -> number := SFdiv prec emax.
(** [x < y], [x > y] and [x === y] on Numbers. *)
Definition ltb : number -> number -> bool := SFltb.
Definition gtb (x y : number) : bool := SFltb y x.
Definition strict_eqb : number -> number -> bool := SFeqb.

Definition isNaN (x : number) : bool :=
  match x with S754_nan => true | _ => false end.

Definition is_finite (x : number) : bool :=
  match x with S754_zero _ | S754_finite _ _ _ => true | _ => false end.

Definition NaN : number := S754_nan.
Definition zero : number := S754_zero false.

(** The Number nearest to an integer, and to a quotient of positive integers
    (the sign is given apart). *)
Definition of_Z (z : Z) : number := binary_normalize prec emax z 0 false.

Definition of_ratio (neg : bool) (p q : Z) : number :=
  match p, q with
  | Zpos _, Zpos _ =>
    let '(mz, ez, lz) := SFdiv_core_binary prec emax p 0 q 0 in
    binary_round_aux prec emax neg mz ez lz
  | _, _ => S754_zero neg
  end.

(** The Number nearest to [m * 10^e10], for [0 <= m]. *)
Definition of_decimal (neg : bool) (m e10 : Z) : number :=
  if 0 <=? e10
  then binary_normalize prec emax (if neg then - (m * 10 ^ e10) else m * 10 ^ e10) 0 neg
  else of_ratio neg m (10 ^ (- e10)).

(** The exact value [m * 2^e] of a finite Number as a fraction. *)
Definition exact (m : positive) (e : Z) : Z * Z :=
  if 0 <=? e then (Zpos m * 2 ^ e, 1) else (Zpos m, 2 ^ (- e)).

(** Structural equality; on the canonical values the operations return it
    is equality of Numbers that tells [+0] from [-0]. *)
Definition same (x y : number) : bool :=
  match x, y with
  | S754_zero a, S754_zero b => Bool.eqb a b
  | S754_infinity a, S754_infinity b => Bool.eqb a b
  | S754_nan, S754_nan => true
  | S754_finite a m e, S754_finite b m' e' => Bool.eqb a b && (m =? m')%positive && (e =? e')
  | _, _ => false
  end.

#[global] Instance number_eq_dec : EqDecision number.
Proof. solve_decision. Defined.

(** ToIntegerOrInfinity on a finite Number: truncation towards zero. *)
Definition truncate (x : number) : Z :=
  match x with
  | S754_finite s m e =>
    let (n, d) := exact m e in
    if s then - (n / d) else n / d
  | _ => 0
  end.

(** *** Decimal digits *)

Definition digit_char (d : Z) : Z := 48 + d.

Fixpoint dec_digits_aux (fuel : nat) (n : Z) (acc : jsstring) : jsstring :=
  match fuel with
  | O => acc
  | S f =>
    let acc' := digit_char (n mod 10) :: acc in
    if n <? 10 then acc' else dec_digits_aux f (n / 10) acc'
  end.

(** The decimal representation of [0 <= n], without leading zeros. *)
Definition dec_digits (n : Z) : jsstring :=
  dec_digits_aux (S (Z.to_nat (Z.log2 n))) n [].

(** The value of a run of decimal digits. *)
Definition digits_value (ds : jsstring) : Z :=
  fold_left (fun acc c => acc * 10 + (c - 48)) ds 0.

Fixpoint span_digits (s : jsstring) : jsstring * jsstring :=
  match s with
  | c :: r =>
    if isDigit c then let (ds, rest) := span_digits r in (c :: ds, rest)
    else ([], s)
  | [] => ([], [])
  end.

(** *** Number::toString

    For a finite [x > 0] the specification asks for integers [n], [k], [s]
    with [k >= 1], [10^(k-1) <= s < 10^k], [s * 10^(n-k)] rounding to [x],
    and [k] as small as possible (the [s] closest to [x] when several
    fit). *)

(** [num / den < 10^n] *)
Definition lt_pow10 (num den n : Z) : bool :=
  if 0 <=? n then num <? den * 10 ^ n else num * 10 ^ (- n) <? den.

Fixpoint find_exponent (fuel : nat) (n num den : Z) : Z :=
  match fuel with
  | O => n
  | S f => if lt_pow10 num den n then n else find_exponent f (n + 1) num den
  end.

(** The [n0] with [10^(n0-1) <= num/den < 10^n0]: the search starts just
    below the estimate that the binary logarithms of [num] and [den] give. *)
Definition decimal_exponent (num den : Z) : Z :=
  find_exponent 8 ((Z.log2 num - Z.log2 den - 1) * 30103 / 100000 - 2) num den.

(** [num / den / 10^e] as a fraction. *)
Definition scaled (num den e : Z) : Z * Z :=
  if 0 <=? e then (num, den * 10 ^ e) else (num * 10 ^ (- e), den).

(** The [k]-digit decimal [t * 10^(n0-k)], kept when it rounds to [x]. *)
Definition candidate (x : number) (n0 k t : Z) : option (Z * Z) :=
  let '(n, s) := if t <? 10 ^ k then (n0, t) else (n0 + 1, t / 10) in
  if same (of_decimal false s (n - k)) x then Some (n, s) else None.

Definition shortest_at (x : number) (num den n0 k : Z) : option (Z * Z) :=
  let '(q, p) := scaled num den (n0 - k) in
  let f := q / p in
  let r := q mod p in
  if r =? 0 then candidate x n0 k f
  else
    match candidate x n0 k f, candidate x n0 k (f + 1) with
    | Some lo, Some hi =>
      if 2 * r <? p then Some lo
      else if p <? 2 * r then Some hi
      else if Z.even (snd lo) then Some lo else Some hi
    | Some lo, None => Some lo
    | None, Some hi => Some hi
    | None, None => None
    end.

Fixpoint shortest_from (fuel : nat) (x : number) (num den n0 k : Z) : Z * Z * Z :=
  match fuel with
  | O => (n0, k, fst (scaled num den (n0 - k)) / snd (scaled num den (n0 - k)))
  | S f =>
    match shortest_at x num den n0 k with
    | Some (n, s) => (n, k, s)
    | None => shortest_from f x num den n0 (k + 1)
    end
  end.

(** Seventeen significant digits always identify a binary64 value. *)
Definition shortest (x : number) (num den : Z) : Z * Z * Z :=
  shortest_from 17 x num den (decimal_exponent num den) 1.

Definition zeros (n : Z) : jsstring := repeat 48 (Z.to_nat n).

Definition format_decimal (n k : Z) (ds : jsstring) : jsstring :=
  if (k <=? n) && (n <=? 21) then ds ++ zeros (n - k)
  else if (0 <? n) && (n <=? 21)
  then firstn (Z.to_nat n) ds ++ [46] ++ skipn (Z.to_nat n) ds
  else if (-6 <? n) && (n <=? 0) then [48; 46] ++ zeros (- n) ++ ds
  else
    let e := n - 1 in
    let es := (if e <? 0 then 45 else 43) :: dec_digits (Z.abs e) in
    match ds with
    | [] => []
    | [d] => [d; 101] ++ es
    | d :: rest => d :: 46 :: rest ++ [101] ++ es
    end.

Definition sign_prefix (neg : bool) : jsstring := if neg then [45] else [].

Definition toString (x : number) : jsstring :=
  match x with
  | S754_nan => lit "NaN"
  | S754_zero _ => lit "0"
  | S754_infinity s => sign_prefix s ++ lit "Infinity"
  | S754_finite s m e =>
    let (num, den) := exact m e in
    let '(n, k, d) := shortest (S754_finite false m e) num den in
    sign_prefix s ++ format_decimal n k (dec_digits d)
  end.

(** *** Number.prototype.toFixed *)

(** The integer [n] for which [n / 10^fd - num/den] is closest to zero, the
    larger one when there are two. *)
Definition nearest_scaled (fd num den : Z) : Z :=
  (2 * num * 10 ^ fd + den) / (2 * den).

Definition fixed_digits (fd n : Z) : jsstring :=
  let m := if n =? 0 then [48] else dec_digits n in
  if fd =? 0 then m
  else
    let m := if Z.of_nat (length m) <=? fd
             then zeros (fd + 1 - Z.of_nat (length m)) ++ m else m in
    let a := Z.to_nat (Z.of_nat (length m) - fd) in
    firstn a m ++ [46] ++ skipn a m.

Definition toFixed (fd : Z) (x : number) : jsstring :=
  match x with
  | S754_zero _ => fixed_digits fd 0
  | S754_finite s m e =>
    let (num, den) := exact m e in
    if 10 ^ 21 * den <=? num then toString x
    else sign_prefix s ++ fixed_digits fd (nearest_scaled fd num den)
  | _ => toString x
  end.

(** *** Reading a Number: parseFloat and Number(string) *)

(** An optional ExponentPart at the head of [s]: its value and what follows
    it ([s] itself when there is none). *)
Definition parse_exponent (s : jsstring) : Z * jsstring :=
  match s with
  | c :: r =>
    if (c =? 101) || (c =? 69) then
      let '(neg, r') :=
        match r with
        | sg :: r1 =>
          if sg =? 45 then (true, r1) else if sg =? 43 then (false, r1) else (false, r)
        | [] => (false, r)
        end in
      let (ds, rest) := span_digits r' in
      match ds with
      | [] => (0, s)
      | _ :: _ => (if neg then - digits_value ds else digits_value ds, rest)
      end
    else (0, s)
  | [] => (0, s)
  end.

(** The longest prefix of [s] that is a StrUnsignedDecimalLiteral, as the
    Number it denotes, and the rest of [s]. *)
Definition parse_unsigned_decimal (neg : bool) (s : jsstring)
  : option (number * jsstring) :=
  if startsWith s (lit "Infinity") then Some (S754_infinity neg, skipn 8 s)
  else
    let (ip, r1) := span_digits s in
    let (fp, r2) :=
      match r1 with
      | c :: r => if c =? 46 then span_digits r else ([], r1)
      | [] => ([], r1)
      end in
    match ip ++ fp with
    | [] => None
    | _ :: _ =>
      let (ex, rest) := parse_exponent r2 in
      Some (of_decimal neg (digits_value (ip ++ fp)) (ex - Z.of_nat (length fp)), rest)
    end.

Definition parse_decimal_prefix (s : jsstring) : option (number * jsstring) :=
  match s with
  | c :: r =>
    if c =? 43 then parse_unsigned_decimal false r
    else if c =? 45 then parse_unsigned_decimal true r
    else parse_unsigned_decimal false s
  | [] => None
  end.

Definition parseFloat (s : jsstring) : number :=
  match parse_decimal_prefix (trimStart s) with
  | Some (x, _) => x
  | None => NaN
  end.

Definition digit_in_radix (radix c : Z) : option Z :=
  let d := if isDigit c then c - 48
           else if (97 <=? c) && (c <=? 122) then c - 87
           else if (65 <=? c) && (c <=? 90) then c - 55
           else radix in
  if d <? radix then Some d else None.

Fixpoint radix_value (radix : Z) (s : jsstring) (acc : Z) : option Z :=
  match s with
  | [] => Some acc
  | c :: r =>
    match digit_in_radix radix c with
    | Some d => radix_value radix r (acc * radix + d)
    | None => None
    end
  end.

(** [0x], [0o] and [0b] integer literals. *)
Definition parse_nondecimal (t : jsstring) : option number :=
  match t with
  | z :: p :: (_ :: _) as ds =>
    let radix := if (p =? 120) || (p =? 88) then 16
                 else if (p =? 111) || (p =? 79) then 8
                 else if (p =? 98) || (p =? 66) then 2 else 0 in
    if (z =? 48) && negb (radix =? 0)
    then option_map of_Z (radix_value radix ds 0) else None
  | _ => None
  end.

(** [Number(s)] for a string [s]. *)
Definition StringToNumber (s : jsstring) : number :=
  match trim s with
  | [] => zero
  | t =>
    match parse_nondecimal t with
    | Some x => x
    | None =>
      match parse_decimal_prefix t with
      | Some (x, []) => x
      | _ => NaN
      end
    end
  end.

End Num.

(** ** JavaScript values and results *)

Module Js.
Import Str Num.

(** The primitive values a spreadsheet cell can hold. *)
Inductive value :=
| VUndefined
| VNull
| VBool (b : bool)
| VNumber (x : number)
| VString (s : jsstring).

(** ToBoolean: what [!value] and [value ? _ : _] test. *)
Definition ToBoolean (v : value) : bool :=
  match v with
  | VUndefined | VNull => false
  | VBool b => b
  | VNumber (S754_zero _) | VNumber S754_nan => false
  | VNumber _ => true
  | VString [] => false
  | VString (_ :: _) => true
  end.

(** [String(value)] *)
Definition ToString (v : value) : jsstring :=
  match v with
  | VUndefined => lit "undefined"
  | VNull => lit "null"
  | VBool true => lit "true"
  | VBool false => lit "false"
  | VNumber x => Num.toString x
  | VString s => s
  end.

Inductive error := RangeError | ReferenceError.

(** The result of evaluating code that may throw. *)
Inductive completion (A : Type) :=
| Normal (a : A)
| Throw (e : error).
Arguments Normal {A} a.
Arguments Throw {A} e.

(** ToNumber, on the primitive values. *)
Definition ToNumber (v : value) : number :=
  match v with
  | VUndefined => NaN
  | VNull => zero
  | VBool true => of_Z 1
  | VBool false => zero
  | VNumber x => x
  | VString s => StringToNumber s
  end.

(** [typeof v === 'number'] *)
Definition is_number (v : value) : bool :=
  match v with VNumber _ => true | _ => false end.

(** [Math.max(x, y)]: NaN if either argument is, and +0 above -0. *)
Definition Math_max (x y : number) : number :=
  if isNaN x || isNaN y then NaN
  else if ltb x y then y
  else if ltb y x then x
  else match x with S754_zero true => y | _ => x end.

End Js.

(** ** JavaScript dates *)

Module JsDate.
Import Str Num Js.

(** A time value is a number of milliseconds since the epoch, or NaN
    ([None]: an invalid Date). *)
Abbreviation time_value := (option Z).

Definition msPerDay : Z := 86400000.

Definition Day (t : Z) : Z := t / msPerDay.
Definition TimeWithinDay (t : Z) : Z := t mod msPerDay.

Definition InLeapYear (y : Z) : bool :=
  (y mod 4 =? 0) && (negb (y mod 100 =? 0) || (y mod 400 =? 0)).

Definition DaysInYear (y : Z) : Z := if InLeapYear y then 366 else 365.

Definition DayFromYear (y : Z) : Z :=
  365 * (y - 1970) + (y - 1969) / 4 - (y - 1901) / 100 + (y - 1601) / 400.

(** The year a day number falls in: the largest [y] with
    [DayFromYear y <= d]. *)
Definition YearFromDay (d : Z) : Z :=
  let y := 1970 + d * 400 / 146097 in
  if d <? DayFromYear y then y - 1
  else if DayFromYear (y + 1) <=? d then y + 1
  else y.

(** Days of the year before month [m] (0 for January). *)
Definition DaysBeforeMonth (leap : bool) (m : Z) : Z :=
  let l := if leap then 1 else 0 in
  if m <=? 0 then 0 else if m =? 1 then 31 else if m =? 2 then 59 + l
  else if m =? 3 then 90 + l else if m =? 4 then 120 + l
  else if m =? 5 then 151 + l else if m =? 6 then 181 + l
  else if m =? 7 then 212 + l else if m =? 8 then 243 + l
  else if m =? 9 then 273 + l else if m =? 10 then 304 + l
  else if m =? 11 then 334 + l else 365 + l.

(** The month (0 to 11) of a day of the year. *)
Definition MonthFromDayWithinYear (leap : bool) (dw : Z) : Z :=
  if dw <? DaysBeforeMonth leap 1 then 0
  else if dw <? DaysBeforeMonth leap 2 then 1
  else if dw <? DaysBeforeMonth leap 3 then 2
  else if dw <? DaysBeforeMonth leap 4 then 3
  else if dw <? DaysBeforeMonth leap 5 then 4
  else if dw <? DaysBeforeMonth leap 6 then 5
  else if dw <? DaysBeforeMonth leap 7 then 6
  else if dw <? DaysBeforeMonth leap 8 then 7
  else if dw <? DaysBeforeMonth leap 9 then 8
  else if dw <? DaysBeforeMonth leap 10 then 9
  else if dw <? DaysBeforeMonth leap 11 then 10
  else 11.

Definition YearFromTime (t : Z) : Z := YearFromDay (Day t).
Definition DayWithinYear (t : Z) : Z := Day t - DayFromYear (YearFromTime t).
Definition MonthFromTime (t : Z) : Z :=
  MonthFromDayWithinYear (InLeapYear (YearFromTime t)) (DayWithinYear t).
Definition DateFromTime (t : Z) : Z :=
  DayWithinYear t - DaysBeforeMonth (InLeapYear (YearFromTime t)) (MonthFromTime t) + 1.

Definition DaysInMonth (y m : Z) : Z :=
  DaysBeforeMonth (InLeapYear y) (m + 1) - DaysBeforeMonth (InLeapYear y) m.

(** MakeDay for a month [m] in 0..11: the day number of the date. *)
Definition MakeDay (y m d : Z) : Z :=
  DayFromYear y + DaysBeforeMonth (InLeapYear y) m + d - 1.

(** TimeClip, applied to the Number a Date is built from. *)
Definition TimeClip (x : number) : time_value :=
  if is_finite x
  then if Z.abs (truncate x) <=? 8640000000000000 then Some (truncate x) else None
  else None.

Definition TimeClipZ (t : Z) : time_value :=
  if Z.abs t <=? 8640000000000000 then Some t else None.

Definition pad (width : nat) (n : Z) : jsstring :=
  let ds := dec_digits n in repeat 48 (width - length ds) ++ ds.

(** [Date.prototype.toISOString]: a RangeError on an invalid Date. *)
Definition toISOString (tv : time_value) : completion jsstring :=
  match tv with
  | None => Throw RangeError
  | Some t =>
    let y := YearFromTime t in
    let ys := if (0 <=? y) && (y <=? 9999) then pad 4 y
              else (if y <? 0 then 45 else 43) :: pad 6 (Z.abs y) in
    let w := TimeWithinDay t in
    Normal (ys ++ [45] ++ pad 2 (MonthFromTime t + 1) ++ [45] ++ pad 2 (DateFromTime t)
            ++ [84] ++ pad 2 (w / 3600000) ++ [58] ++ pad 2 (w / 60000 mod 60)
            ++ [58] ++ pad 2 (w / 1000 mod 60) ++ [46] ++ pad 3 (w mod 1000) ++ [90])
  end.

(** The fields of a string of the shape [dddd-dd-dd]. *)
Definition iso_date_fields (s : jsstring) : option (Z * Z * Z) :=
  match s with
  | [y1; y2; y3; y4; h1; m1; m2; h2; d1; d2] =>
    if forallb isDigit [y1; y2; y3; y4; m1; m2; d1; d2] && (h1 =? 45) && (h2 =? 45)
    then Some (digits_value [y1; y2; y3; y4], digits_value [m1; m2], digits_value [d1; d2])
    else None
  | _ => None
  end.

Section HostParser.

(** [Date.parse] reads the date-time string format of the language itself;
    what it makes of any other string is left to the implementation, here
    [hostDateParse]. *)
Variable hostDateParse : jsstring -> time_value.

(** A date-only form [YYYY-MM-DD] is a UTC date; a month outside 01..12 or a
    day outside 01..31 makes the string unreadable; a day past the end of
    its month is read as the implementation pleases. *)
Definition Date_parse (s : jsstring) : time_value :=
  match iso_date_fields s with
  | Some (y, m, d) =>
    if (1 <=? m) && (m <=? 12) && (1 <=? d) && (d <=? 31)
    then if d <=? DaysInMonth y (m - 1)
         then Some (MakeDay y (m - 1) d * msPerDay)
         else hostDateParse s
    else None
  | None => hostDateParse s
  end.

(** [new Date(s)] for a string [s]. *)
Definition Date_of_string (s : jsstring) : time_value :=
  match Date_parse s with
  | Some t => TimeClipZ t
  | None => None
  end.

End HostParser.

End JsDate.

(** ** Code that reads the clock and may throw *)

Module Effects.
Import Str Num Js JsDate.

(** What a [throw] carries: an error object of the host's making, or
    [new Error(message)]. *)
Inductive thrown :=
| Builtin (e : error)
| ErrorObject (message : jsstring).

Inductive outcome (A : Type) :=
| Returned (a : A)
| Raised (t : thrown).
Arguments Returned {A} a.
Arguments Raised {A} t.

(** A computation takes the number of clock readings made so far and gives
    its outcome with the number of readings made after it. *)
Definition M (A : Type) : Type := nat -> outcome A * nat.

#[global] Instance M_ret : MRet M := fun A a k => (Returned a, k).

#[global] Instance M_bind : MBind M := fun A B f m k =>
  match m k with
  | (Returned a, k') => f a k'
  | (Raised t, k') => (Raised t, k')
  end.

#[global] Instance M_fmap : FMap M := fun A B f m k =>
  match m k with
  | (Returned a, k') => (Returned (f a), k')
  | (Raised t, k') => (Raised t, k')
  end.

Definition throw {A} (t : thrown) : M A := fun k => (Raised t, k).

(** [try { body } catch (error) { handler }] *)
Definition try_catch {A} (body : M A) (handler : thrown -> M A) : M A :=
  fun k =>
    match body k with
    | (Returned a, k') => (Returned a, k')
    | (Raised t, k') => handler t k'
    end.

Definition of_completion {A} (c : completion A) : M A :=
  match c with
  | Normal a => mret a
  | Throw e => throw (Builtin e)
  end.

(** [error instanceof Error ? error.message : ...]: every [thrown] is an
    Error; the message of a built-in one is the host's. *)
Definition message_of (builtin_message : error -> jsstring) (t : thrown) : jsstring :=
  match t with
  | Builtin e => builtin_message e
  | ErrorObject message => message
  end.

Section Clock.

(** The system clock: its reading number [k], in milliseconds since the
    epoch. *)
Variable clock : nat -> Z.

(** [Date.now()] *)
Definition Date_now : M Z := fun k => (Returned (clock k), S k).

(** [new Date().toISOString()] *)
Definition new_Date_toISOString : M jsstring :=
  fun k =>
    match toISOString (TimeClipZ (clock k)) with
    | Normal iso => (Returned iso, S k)
    | Throw e => (Raised (Builtin e), S k)
    end.

End Clock.

(** A promise once its executor has run and the events it waits for have
    fired. *)
Inductive promise (A E : Type) :=
| Resolved (a : A)
| Rejected (e : E)
| Pending.
Arguments Resolved {A E} a.
Arguments Rejected {A E} e.
Arguments Pending {A E}.

End Effects.

(** ** types/index.ts *)

Module Types.
Import Str Num.

Record WorkItem := {
  id : jsstring;
  workDate : jsstring;
  contractorId : jsstring;
  contractorName : jsstring;
  reporter : jsstring;
  headcount : number;
  employmentCode : jsstring;
  projectId : jsstring;
  projectCode : jsstring;
  subareaCode : jsstring;
  subworkCode : jsstring;
  inHours : number;
  outHours : number;
  totalHours : number;
  srcHash : jsstring;
  createdAt : jsstring
}.

Record WorkCode := {
  wc_subworkCode : jsstring;
  subworkName : jsstring;
  majorCode : jsstring;
  majorName : jsstring;
  note : option jsstring;
  version : jsstring;
  updatedAt : jsstring
}.

Record ImportResult := {
  jobId : jsstring;
  inserted : nat;
  updated : nat;
  ir_duplicates : nat;
  errors : nat;
  undefinedCodes : nat
}.

Record UndefinedCode := {
  uc_subworkCode : jsstring;
  count : nat;
  firstSeen : jsstring
}.

(** [{ ...item, srcHash: h }] *)
Definition with_srcHash (item : WorkItem) (h : jsstring) : WorkItem :=
  {| id := id item; workDate := workDate item; contractorId := contractorId item;
     contractorName := contractorName item; reporter := reporter item;
     headcount := headcount item; employmentCode := employmentCode item;
     projectId := projectId item; projectCode := projectCode item;
     subareaCode := subareaCode item; subworkCode := subworkCode item;
     inHours := inHours item; outHours := outHours item;
     totalHours := totalHours item; srcHash := h; createdAt := createdAt item |}.

(** [details] holds what was caught. *)
Record AppError := {
  err_code : jsstring;
  err_message : jsstring;
  err_details : option Effects.thrown;
  err_timestamp : jsstring
}.

Record ValidationResult := {
  isValid : bool;
  vr_errors : list jsstring;
  vr_warnings : list jsstring
}.

End Types.

(** ** utils/errorHandler.ts *)

Module ErrorHandler.
Import Str Num Js JsDate Effects Types.

(** [keyof typeof ERROR_CODES] *)
Inductive error_code :=
| FILE_READ_ERROR
| EXCEL_PARSE_ERROR
| VALIDATION_ERROR
| NETWORK_ERROR
| UNKNOWN_ERROR.

Definition ERROR_CODES (code : error_code) : jsstring :=
  match code with
  | FILE_READ_ERROR => lit "FILE_READ_ERROR"
  | EXCEL_PARSE_ERROR => lit "EXCEL_PARSE_ERROR"
  | VALIDATION_ERROR => lit "VALIDATION_ERROR"
  | NETWORK_ERROR => lit "NETWORK_ERROR"
  | UNKNOWN_ERROR => lit "UNKNOWN_ERROR"
  end.

Definition ERROR_MESSAGES (code : error_code) : jsstring :=
  match code with
  | FILE_READ_ERROR => lit "ファイルの読み込みに失敗しました"
  | EXCEL_PARSE_ERROR => lit "Excelファイルの解析に失敗しました"
  | VALIDATION_ERROR => lit "データの検証に失敗しました"
  | NETWORK_ERROR => lit "ネットワークエラーが発生しました"
  | UNKNOWN_ERROR => lit "不明なエラーが発生しました"
  end.

Section Clock.
Variable clock : nat -> Z.

(** [message || ERROR_MESSAGES[code]]: an absent or empty message gives way
    to the code's own. *)
Definition createError (code : error_code) (message : option jsstring)
    (details : option thrown) : M AppError :=
  timestamp ← new_Date_toISOString clock;
  mret {| err_code := ERROR_CODES code;
          err_message := match message with
                         | Some (c :: r) => c :: r
                         | _ => ERROR_MESSAGES code
                         end;
          err_details := details;
          err_timestamp := timestamp |}.

(** [logError] stamps its log entry and writes it to the console. *)
Definition logError (error : AppError) : M unit :=
  timestamp ← new_Date_toISOString clock;
  mret tt.

End Clock.

Definition getUserFriendlyMessage (error : AppError) : jsstring :=
  if bool_decide (err_code error = ERROR_CODES FILE_READ_ERROR)
  then lit "ファイルを読み込めませんでした。ファイルが破損していないか確認してください。"
  else if bool_decide (err_code error = ERROR_CODES EXCEL_PARSE_ERROR)
  then lit "Excelファイルの形式が正しくありません。正しい形式のファイルをアップロードしてください。"
  else if bool_decide (err_code error = ERROR_CODES VALIDATION_ERROR)
  then lit "データに問題があります。入力内容を確認してください。"
  else if bool_decide (err_code error = ERROR_CODES NETWORK_ERROR)
  then lit "ネットワーク接続に問題があります。接続を確認してから再試行してください。"
  else lit "エラーが発生しました。しばらく時間をおいてから再試行してください。".

(** [errors.push(msg)] under a condition. *)
Definition push_if (c : bool) (msg : jsstring) (l : list jsstring) : list jsstring :=
  if c then l ++ [msg] else l.

(** The properties of [item: any] that [validateWorkItem] reads. *)
Record item_fields := {
  item_workDate : value;
  item_contractorName : value;
  item_projectCode : value;
  item_subworkCode : value;
  item_inHours : value;
  item_outHours : value
}.

(** [typeof v !== 'number' || v < 0] *)
Definition not_a_number_or_negative (v : value) : bool :=
  match v with
  | VNumber x => ltb x zero
  | _ => true
  end.

(** [v > n], which compares [ToNumber(v)]. *)
Definition greater_than (v : value) (n : Z) : bool := gtb (ToNumber v) (of_Z n).

Definition validateWorkItem (item : item_fields) : ValidationResult :=
  let errors := [] in
  let warnings := [] in
  let errors := push_if (negb (ToBoolean (item_workDate item)))
                        (lit "作業日が設定されていません") errors in
  let errors := push_if (negb (ToBoolean (item_contractorName item)))
                        (lit "業者名が設定されていません") errors in
  let errors := push_if (negb (ToBoolean (item_projectCode item)))
                        (lit "工事番号が設定されていません") errors in
  let errors := push_if (negb (ToBoolean (item_subworkCode item)))
                        (lit "小区分コードが設定されていません") errors in
  let errors := push_if (not_a_number_or_negative (item_inHours item))
                        (lit "規内工数が正しくありません") errors in
  let errors := push_if (not_a_number_or_negative (item_outHours item))
                        (lit "規外工数が正しくありません") errors in
  let warnings := push_if (greater_than (item_inHours item) 24)
                          (lit "規内工数が24時間を超えています") warnings in
  let warnings := push_if (greater_than (item_outHours item) 8)
                          (lit "規外工数が8時間を超えています") warnings in
  {| isValid := bool_decide (length errors = 0%nat);
     vr_errors := errors;
     vr_warnings := warnings |}.

(** The fields of a typed record, as [validateWorkItem] reads them. *)
Definition fields_of (item : WorkItem) : item_fields :=
  {| item_workDate := VString (workDate item);
     item_contractorName := VString (contractorName item);
     item_projectCode := VString (projectCode item);
     item_subworkCode := VString (subworkCode item);
     item_inHours := VNumber (inHours item);
     item_outHours := VNumber (outHours item) |}.

(** The properties of the DOM's [File] that are read: its name, its MIME
    type and its size in bytes. *)
Record File := {
  file_name : jsstring;
  file_type : jsstring;
  file_size : Z
}.

Definition allowedTypes : list jsstring :=
  [lit "application/vnd.openxmlformats-officedocument.spreadsheetml.sheet";
   lit "application/vnd.ms-excel";
   lit "text/csv"].

Definition maxSize : Z := 10 * 1024 * 1024.

Definition validateFileType (file : File) : ValidationResult :=
  let errors := [] in
  let warnings := [] in
  let errors :=
    push_if (negb (bool_decide (file_type file ∈ allowedTypes)))
      (lit "サポートされていないファイル形式です。Excelファイル(.xlsx, .xls)またはCSVファイルをアップロードしてください。")
      errors in
  let errors :=
    push_if (maxSize <? file_size file)
      (lit "ファイルサイズが大きすぎます。10MB以下のファイルをアップロードしてください。")
      errors in
  let warnings :=
    push_if (5 * 1024 * 1024 <? file_size file)
      (lit "ファイルサイズが大きいため、処理に時間がかかる場合があります。")
      warnings in
  {| isValid := bool_decide (length errors = 0%nat);
     vr_errors := errors;
     vr_warnings := warnings |}.

End ErrorHandler.

(** ** utils/excelParser.ts *)

Module ExcelParser.
Import Str Num Js JsDate Types.

Definition is_8_digits (s : jsstring) : bool :=
  (length s =? 8)%nat && forallb isDigit s.

(** The regular expression [/^\d+\.?\d*$/]. *)
Definition is_serial (s : jsstring) : bool :=
  let (ip, r) := span_digits s in
  match ip, r with
  | [], _ => false
  | _ :: _, [] => true
  | _ :: _, c :: r' => (c =? 46) && forallb isDigit r'
  end.

Section ParseDate.

Variable hostDateParse : jsstring -> time_value.

Definition parseDate (value : value) : completion (option jsstring) :=
  if negb (ToBoolean value) then Normal None
  else
    let str := trim (ToString value) in
    if is_8_digits str then
      let year := substring str 0 4 in
      let month := substring str 4 6 in
      let day := substring str 6 8 in
      Normal (Some (year ++ [45] ++ month ++ [45] ++ day))
    else if is_serial str then
      let serial := parseFloat str in
      let date := TimeClip (mul (mul (sub serial (of_Z 25569)) (of_Z 86400)) (of_Z 1000)) in
      match toISOString date with
      | Normal iso => Normal (Some (before 84 iso))
      | Throw e => Throw e
      end
    else
      let date := Date_of_string hostDateParse str in
      match date with
      | Some _ =>
        match toISOString date with
        | Normal iso => Normal (Some (before 84 iso))
        | Throw e => Throw e
        end
      | None => Normal None
      end.

End ParseDate.

Definition parseNumber (value : value) : number :=
  match value with
  | VNull | VUndefined | VString [] => zero
  | _ =>
    let str := trim (ToString value) in
    let num := parseFloat str in
    if isNaN num then zero else num
  end.

Definition parseString (value : value) : jsstring :=
  if ToBoolean value then trim (ToString value) else [].

(** *** Column detection *)

Definition COLUMN_CANDIDATES : list (jsstring * list jsstring) :=
  [ (lit "workDate",
     [lit "日付"; lit "日付(YYYYMMDD|ExcelSerial|string)"; lit "work_date"; lit "date";
      lit "年月日"; lit "作業日"]);
    (lit "contractorName",
     [lit "業者名"; lit "業者"; lit "contractor"; lit "company"; lit "会社"; lit "企業"]);
    (lit "reporter",
     [lit "報告者名"; lit "報告者"; lit "reporter"; lit "name"; lit "氏名"; lit "担当者"]);
    (lit "headcount",
     [lit "在籍"; lit "人数"; lit "headcount"; lit "count"; lit "人員"]);
    (lit "employmentCode",
     [lit "雇"; lit "雇用区分"; lit "employment"; lit "emp_code"; lit "雇用"]);
    (lit "projectCode",
     [lit "工事番号"; lit "工事番号(Sxxxx)"; lit "project"; lit "project_code"; lit "工事";
      lit "プロジェクト"]);
    (lit "subareaCode",
     [lit "小区画"; lit "小区画(code例: B12P/H5P/...)"; lit "subarea"; lit "area"; lit "区画"]);
    (lit "subworkCode",
     [lit "小区分"; lit "小区分(code例: 25K/211/...)"; lit "subwork"; lit "work_code";
      lit "作業"; lit "工種"]);
    (lit "inHours",
     [lit "規内"; lit "規内(numeric)"; lit "in_hours"; lit "regular"; lit "通常"; lit "定時"]);
    (lit "outHours",
     [lit "規外"; lit "規外(numeric)"; lit "out_hours"; lit "overtime"; lit "残業"; lit "超過"]);
    (lit "totalHours",
     [lit "計"; lit "計(numeric)"; lit "total_hours"; lit "total"; lit "合計"; lit "総計"]) ].

Section DetectColumns.

(** [String.prototype.toLowerCase], whose case table is Unicode's. *)
Variable toLowerCase : jsstring -> jsstring.

(** The predicate of [validHeaders.find] for one candidate. *)
Definition header_matches (candidate header : jsstring) : bool :=
  let headerLower := trim (toLowerCase header) in
  let candidateLower := trim (toLowerCase candidate) in
  let exactMatch := bool_decide (headerLower = candidateLower) in
  let containsMatch :=
    includes headerLower candidateLower || includes candidateLower headerLower in
  let partialMatch := forallb (fun char => includes headerLower [char]) candidateLower in
  exactMatch || containsMatch || partialMatch.

(** [headers.filter(header => header && typeof header === 'string')] *)
Definition validHeaders (headers : list value) : list jsstring :=
  flat_map (fun header => match header with
                          | VString (c :: r) => [c :: r]
                          | _ => []
                          end) headers.

(** The loop over one field's candidates: the header found for the first
    candidate that finds one. *)
Fixpoint first_found (candidates valid : list jsstring) : option jsstring :=
  match candidates with
  | [] => None
  | candidate :: rest =>
    match List.find (header_matches candidate) valid with
    | Some found => Some found
    | None => first_found rest valid
    end
  end.

Definition detectColumns (headers : list value) : gmap jsstring jsstring :=
  fold_left
    (fun mapping '(key, candidates) =>
       match first_found candidates (validHeaders headers) with
       | Some found => <[key := found]> mapping
       | None => mapping
       end)
    COLUMN_CANDIDATES ∅.

End DetectColumns.

(** *** The row hash *)

Definition isHighSurrogate (c : Z) : bool := (55296 <=? c) && (c <=? 56319).
Definition isLowSurrogate (c : Z) : bool := (56320 <=? c) && (c <=? 57343).

Definition utf8_of_code_point (cp : Z) : list Z :=
  if cp <? 128 then [cp]
  else if cp <? 2048 then [192 + cp / 64; 128 + cp mod 64]
  else if cp <? 65536 then [224 + cp / 4096; 128 + cp / 64 mod 64; 128 + cp mod 64]
  else [240 + cp / 262144; 128 + cp / 4096 mod 64; 128 + cp / 64 mod 64; 128 + cp mod 64].

(** [new TextEncoder().encode(s)]: UTF-8, a surrogate without its pair
    encoded as U+FFFD. *)
Fixpoint TextEncoder_encode (s : jsstring) : list Z :=
  match s with
  | [] => []
  | c :: r =>
    if isHighSurrogate c then
      match r with
      | c2 :: r2 =>
        if isLowSurrogate c2
        then utf8_of_code_point (65536 + (c - 55296) * 1024 + (c2 - 56320))
               ++ TextEncoder_encode r2
        else [239; 191; 189] ++ TextEncoder_encode r
      | [] => [239; 191; 189]
      end
    else if isLowSurrogate c then [239; 191; 189] ++ TextEncoder_encode r
    else utf8_of_code_point c ++ TextEncoder_encode r
  end.

Definition base64_char (i : Z) : Z :=
  if i <? 26 then 65 + i
  else if i <? 52 then 97 + (i - 26)
  else if i <? 62 then 48 + (i - 52)
  else if i =? 62 then 43 else 47.

(** [btoa] on a binary string, given as its bytes. *)
Fixpoint btoa (bs : list Z) : jsstring :=
  match bs with
  | [] => []
  | [a] => [base64_char (a / 4); base64_char (a mod 4 * 16); 61; 61]
  | [a; b] =>
    [base64_char (a / 4); base64_char (a mod 4 * 16 + b / 16);
     base64_char (b mod 16 * 4); 61]
  | a :: b :: c :: r =>
    [base64_char (a / 4); base64_char (a mod 4 * 16 + b / 16);
     base64_char (b mod 16 * 4 + c / 64); base64_char (c mod 64)] ++ btoa r
  end.

Definition isAlphaNumeric (c : Z) : bool :=
  ((97 <=? c) && (c <=? 122)) || ((65 <=? c) && (c <=? 90)) || isDigit c.

(** [.replace(/[^a-zA-Z0-9]/g, '')] *)
Definition strip_non_alphanumeric (s : jsstring) : jsstring :=
  List.filter isAlphaNumeric s.

Definition ToInt32 (z : Z) : Z :=
  let m := z mod 2 ^ 32 in if m <? 2 ^ 31 then m else m - 2 ^ 32.

Definition radix36_char (d : Z) : Z := if d <? 10 then 48 + d else 87 + d.

Fixpoint radix36_aux (fuel : nat) (n : Z) (acc : jsstring) : jsstring :=
  match fuel with
  | O => acc
  | S f =>
    let acc' := radix36_char (n mod 36) :: acc in
    if n <? 36 then acc' else radix36_aux f (n / 36) acc'
  end.

(** [n.toString(36)] for an integer [0 <= n]. *)
Definition toString36 (n : Z) : jsstring :=
  radix36_aux (S (Z.to_nat (Z.log2 n))) n [].

(** The loop of the [catch] block. *)
Definition fallback_hash (key : jsstring) : jsstring :=
  let hash :=
    fold_left (fun hash char => ToInt32 (ToInt32 (hash * 32) - hash + char)) key 0 in
  toString36 (Z.abs hash).

Definition row_key (item : WorkItem) : jsstring :=
  workDate item ++ [95] ++ contractorName item ++ [95] ++ projectCode item ++ [95]
  ++ subworkCode item ++ [95] ++ subareaCode item ++ [95] ++ reporter item ++ [95]
  ++ Num.toString (inHours item) ++ [95] ++ Num.toString (outHours item).

(** [encoder_available] tells whether the host defines [TextEncoder] and
    [btoa]; where it does not, the [try] block throws a ReferenceError and
    the [catch] block answers. *)
Definition generateRowHash (encoder_available : bool) (item : WorkItem) : jsstring :=
  let key := row_key item in
  if encoder_available
  then strip_non_alphanumeric (btoa (TextEncoder_encode key))
  else fallback_hash key.

(** *** Reading a workbook *)

(** A sheet as [XLSX.utils.sheet_to_json(sheet, { header: 1 })] gives it: its
    rows, each the array of its cells; a cell left out of the array reads as
    [undefined]. A workbook is [workbook.Sheets], in the order of its keys. *)
Abbreviation sheet := (list (list value)).
Abbreviation workbook := (list (jsstring * sheet)).

(** What the [FileReader] and [XLSX.read] make of a file: the reader fails,
    the decoder throws, or there is a workbook. *)
Inductive file_content :=
| Unreadable
| Corrupt (t : Effects.thrown)
| Workbook (wb : workbook).

Record ParsedFile := {
  parsed_workItems : list WorkItem;
  parsed_workCodes : list WorkCode;
  parsed_columnMapping : gmap jsstring jsstring
}.

(** [workbook.Sheets[name]] *)
Definition find_sheet (wb : workbook) (name : jsstring) : option sheet :=
  snd <$> List.find (fun entry => bool_decide (fst entry = name)) wb.

(** [workbook.Sheets['データ(日報)'] || workbook.Sheets[Object.keys(workbook.Sheets)[0]]] *)
Definition dailyDataSheet (wb : workbook) : option sheet :=
  match find_sheet wb (lit "データ(日報)") with
  | Some s => Some s
  | None => snd <$> head wb
  end.

(** [h ? String(h).trim() : ''] *)
Definition header_cell (h : value) : jsstring :=
  if ToBoolean h then trim (ToString h) else [].

(** [(data[i] as any[])?.map(h => ...) || []] *)
Definition header_row (data : sheet) (i : nat) : list jsstring :=
  match data !! i with
  | Some row => map header_cell row
  | None => []
  end.

(** The fields and the columns they are taken from, as the assignments to
    [columnMapping] list them. *)
Definition COLUMN_POSITIONS : list (jsstring * nat) :=
  [ (lit "workDate", 0%nat); (lit "contractorName", 1%nat); (lit "reporter", 2%nat);
    (lit "headcount", 3%nat); (lit "employmentCode", 5%nat); (lit "projectCode", 6%nat);
    (lit "subareaCode", 10%nat); (lit "subworkCode", 11%nat); (lit "inHours", 14%nat);
    (lit "outHours", 15%nat); (lit "totalHours", 16%nat) ].

(** [if (headers[i]) columnMapping.key = headers[i]], for each field. *)
Definition positionalMapping (headers : list jsstring) : gmap jsstring jsstring :=
  fold_left
    (fun mapping '(key, i) =>
       match headers !! i with
       | Some (c :: r) => <[key := c :: r]> mapping
       | _ => mapping
       end)
    COLUMN_POSITIONS ∅.

(** [row.some(cell => cell !== null && cell !== undefined && cell !== '')] *)
Definition has_content (row : list value) : bool :=
  existsb (fun cell => match cell with
                       | VNull | VUndefined | VString [] => false
                       | _ => true
                       end) row.

(** [l.findIndex(p)], with [None] for -1. *)
Fixpoint findIndex {A} (p : A -> bool) (l : list A) : option nat :=
  match l with
  | [] => None
  | x :: r => if p x then Some 0%nat else S <$> findIndex p r
  end.

(** [headers.indexOf(columnName)] *)
Definition indexOf (headers : list jsstring) (columnName : jsstring) : option nat :=
  findIndex (fun header => bool_decide (header = columnName)) headers.

(** [row[i]], with [None] for -1: [undefined] outside the array. *)
Definition cell_at (row : list value) (i : option nat) : value :=
  match i with
  | Some i => default VUndefined (row !! i)
  | None => VUndefined
  end.

(** [item[key]] once the loop over [Object.entries(columnMapping)] has run:
    the cell under the first header that bears the mapped name. *)
Definition item_cell (headers : list jsstring) (columnMapping : gmap jsstring jsstring)
    (row : list value) (key : jsstring) : value :=
  match columnMapping !! key with
  | Some columnName => cell_at row (indexOf headers columnName)
  | None => VUndefined
  end.

(** The headers of the code sheet are found by what they contain. *)
Definition is_code_header (word : jsstring) (name : bool) (h : jsstring) : bool :=
  match h with
  | [] => false
  | _ :: _ =>
    includes h word && (if name then includes h (lit "名称") else negb (includes h (lit "名称")))
  end.

Definition is_note_header (h : jsstring) : bool :=
  match h with
  | [] => false
  | _ :: _ => includes h (lit "備考")
  end.

Section ParseExcelFile.

Variable hostDateParse : jsstring -> time_value.
Variable clock : nat -> Z.
Variable builtin_message : error -> jsstring.

(** The callback of [rows.filter(...).map((row, index) => ...)]. *)
Definition workItem_of_row (headers : list jsstring)
    (columnMapping : gmap jsstring jsstring) (row : list value) (index : nat)
  : Effects.M WorkItem :=
  let item := item_cell headers columnMapping row in
  workDate ← Effects.of_completion (parseDate hostDateParse (item (lit "workDate")));
  let inHours := parseNumber (item (lit "inHours")) in
  let outHours := parseNumber (item (lit "outHours")) in
  let totalHours := Math_max zero (add inHours outHours) in
  now ← Effects.Date_now clock;
  createdAt ← Effects.new_Date_toISOString clock;
  mret {| id := lit "work_" ++ dec_digits now ++ [95] ++ dec_digits (Z.of_nat index);
          workDate := default [] workDate;
          contractorId := lit "contractor_" ++ parseString (item (lit "contractorName"));
          contractorName := parseString (item (lit "contractorName"));
          reporter := parseString (item (lit "reporter"));
          headcount := parseNumber (item (lit "headcount"));
          employmentCode := parseString (item (lit "employmentCode"));
          projectId := lit "project_" ++ parseString (item (lit "projectCode"));
          projectCode := parseString (item (lit "projectCode"));
          subareaCode := parseString (item (lit "subareaCode"));
          subworkCode := parseString (item (lit "subworkCode"));
          inHours := inHours;
          outHours := outHours;
          totalHours := totalHours;
          srcHash := [];
          createdAt := createdAt |}.

(** The callback of [codesRows.filter(...).map(...)]. *)
Definition workCode_of_row (codesHeaders : list jsstring) (row : list value)
  : Effects.M WorkCode :=
  let majorCodeIndex := findIndex (is_code_header (lit "大区分") false) codesHeaders in
  let majorNameIndex := findIndex (is_code_header (lit "大区分") true) codesHeaders in
  let subworkCodeIndex := findIndex (is_code_header (lit "小区分") false) codesHeaders in
  let subworkNameIndex := findIndex (is_code_header (lit "小区分") true) codesHeaders in
  let noteIndex := findIndex is_note_header codesHeaders in
  updatedAt ← Effects.new_Date_toISOString clock;
  mret {| wc_subworkCode := parseString (cell_at row subworkCodeIndex);
          subworkName := parseString (cell_at row subworkNameIndex);
          majorCode := parseString (cell_at row majorCodeIndex);
          majorName := parseString (cell_at row majorNameIndex);
          note := match noteIndex with
                  | Some i => Some (parseString (cell_at row (Some i)))
                  | None => None
                  end;
          version := lit "1.0";
          updatedAt := updatedAt |}.

(** [rows.map((row, index) => f(row, index))], the callbacks run in order. *)
Fixpoint map_rows {B} (f : list value -> nat -> Effects.M B) (rows : sheet) (index : nat)
  : Effects.M (list B) :=
  match rows with
  | [] => mret []
  | row :: rest =>
    x ← f row index;
    xs ← map_rows f rest (S index);
    mret (x :: xs)
  end.

(** The body of the [try] block, from the workbook on. *)
Definition parse_workbook (wb : workbook) : Effects.M ParsedFile :=
  match dailyDataSheet wb with
  | None => Effects.throw (Effects.ErrorObject (lit "日報データシートが見つかりません"))
  | Some dailyData =>
    let headers := header_row dailyData 4 in
    let rows := drop 5 dailyData in
    let columnMapping := positionalMapping headers in
    workItems ← map_rows (workItem_of_row headers columnMapping)
                         (List.filter has_content rows) 0;
    workCodes ←
      match find_sheet wb (lit "コード") with
      | Some codesData =>
        let codesHeaders := header_row codesData 2 in
        let codesRows := drop 3 codesData in
        map_rows (fun row _ => workCode_of_row codesHeaders row)
                 (List.filter has_content codesRows) 0
      | None => mret []
      end;
    mret {| parsed_workItems := workItems;
            parsed_workCodes := workCodes;
            parsed_columnMapping := columnMapping |}
  end.

(** [createError(...)], [logError(...)], then [reject(appError)]. *)
Definition rejection (code : ErrorHandler.error_code) (message : jsstring)
    (details : option Effects.thrown) : Effects.M (ParsedFile + AppError) :=
  appError ← ErrorHandler.createError clock code (Some message) details;
  ErrorHandler.logError clock appError;;
  mret (inr appError).

(** [reader.onload]: the [try] block and its [catch]. *)
Definition onload (body : Effects.M ParsedFile) : Effects.M (ParsedFile + AppError) :=
  Effects.try_catch
    (inl <$> body)
    (fun error =>
       rejection ErrorHandler.EXCEL_PARSE_ERROR
         (lit "Excelファイルの解析に失敗しました: " ++ Effects.message_of builtin_message error)
         (Some error)).

(** [reader.onerror] *)
Definition onerror : Effects.M (ParsedFile + AppError) :=
  rejection ErrorHandler.FILE_READ_ERROR (lit "ファイルの読み込みに失敗しました") None.

(** The promise of [parseExcelFile] once the reader's event has fired: an
    error thrown by a handler itself leaves it pending. The second
    component counts the clock readings. *)
Definition parseExcelFile (content : file_content) (k : nat)
  : Effects.promise ParsedFile AppError * nat :=
  let handler :=
    match content with
    | Unreadable => onerror
    | Corrupt t => onload (Effects.throw t)
    | Workbook wb => onload (parse_workbook wb)
    end in
  match handler k with
  | (Effects.Returned (inl r), k') => (Effects.Resolved r, k')
  | (Effects.Returned (inr e), k') => (Effects.Rejected e, k')
  | (Effects.Raised _, k') => (Effects.Pending, k')
  end.

End ParseExcelFile.

End ExcelParser.

(** ** contexts/DataContext.tsx *)

Module DataContext.
Import Str Types.

(** The updater that [addWorkItems] hands to [setWorkItems]: from the
    previous store to the next one. *)
Definition addWorkItems (items prev : list WorkItem) : list WorkItem :=
  let existingHashes : gset jsstring := list_to_set (map srcHash prev) in
  let uniqueNewItems := filter (fun item => srcHash item ∉ existingHashes) items in
  prev ++ uniqueNewItems.

(** The store after a sequence of calls, starting from the empty one. *)
Definition store_after (batches : list (list WorkItem)) : list WorkItem :=
  fold_left (fun prev items => addWorkItems items prev) batches [].

(** The updater that [addWorkCodes] hands to [setWorkCodes]. *)
Definition addWorkCodes (codes prev : list WorkCode) : list WorkCode :=
  let existingCodes : gset jsstring := list_to_set (map wc_subworkCode prev) in
  let uniqueNewCodes := filter (fun code => wc_subworkCode code ∉ existingCodes) codes in
  prev ++ uniqueNewCodes.

(** The two collections that the provider holds. *)
Record Store := {
  store_workItems : list WorkItem;
  store_workCodes : list WorkCode
}.

Definition clearData (store : Store) : Store :=
  {| store_workItems := []; store_workCodes := [] |}.

End DataContext.

(** ** pages/Import.tsx *)

Module ImportPage.
Import Str Num Types ExcelParser.

Record dedup_state := {
  hashSet : gset jsstring;
  duplicates : list WorkItem;
  uniqueItems : list WorkItem
}.

(** The body of [itemsWithHash.forEach]. *)
Definition dedup_step (st : dedup_state) (item : WorkItem) : dedup_state :=
  if bool_decide (srcHash item ∈ hashSet st)
  then {| hashSet := hashSet st;
          duplicates := duplicates st ++ [item];
          uniqueItems := uniqueItems st |}
  else {| hashSet := {[ srcHash item ]} ∪ hashSet st;
          duplicates := duplicates st;
          uniqueItems := uniqueItems st ++ [item] |}.

Definition checkDuplicates (itemsWithHash : list WorkItem) : dedup_state :=
  fold_left dedup_step itemsWithHash
            {| hashSet := ∅; duplicates := []; uniqueItems := [] |}.

(** The items that the undefined-code check retains. *)
Definition undefinedCodeItems (unique : list WorkItem) (parsedWorkCodes : list WorkCode)
  : list WorkItem :=
  let definedCodes : gset jsstring := list_to_set (map wc_subworkCode parsedWorkCodes) in
  filter (fun item => subworkCode item ≠ [] ∧ subworkCode item ∉ definedCodes) unique.

(** What [handleFileUpload] computes from a parsed file: the result it shows
    and the unique items it stores. [now] is the clock's [Date.now()]. *)
Definition handleFileUpload (encoder_available : bool) (now : Z)
    (parsedWorkItems : list WorkItem) (parsedWorkCodes : list WorkCode)
  : ImportResult * list WorkItem :=
  let itemsWithHash :=
    map (fun item => with_srcHash item (generateRowHash encoder_available item))
        parsedWorkItems in
  let st := checkDuplicates itemsWithHash in
  let undefinedCodes := undefinedCodeItems (uniqueItems st) parsedWorkCodes in
  ({| jobId := lit "job_" ++ dec_digits now;
      inserted := length (uniqueItems st);
      updated := 0;
      ir_duplicates := length (duplicates st);
      errors := 0;
      undefinedCodes := length undefinedCodes |},
   uniqueItems st).

End ImportPage.

(** ** pages/Import.tsx: the handlers *)

Module ImportFlow.
Import Str Num Js Effects Types ErrorHandler ExcelParser DataContext.

(** The state of the page. *)
Record Page := {
  isDragOver : bool;
  isProcessing : bool;
  importResult : option ImportResult;
  page_workItems : list WorkItem;
  page_workCodes : list WorkCode;
  page_columnMapping : gmap jsstring jsstring;
  page_errors : list jsstring;
  appError : option AppError
}.

Definition initial_page : Page :=
  {| isDragOver := false; isProcessing := false; importResult := None;
     page_workItems := []; page_workCodes := []; page_columnMapping := ∅;
     page_errors := []; appError := None |}.

Definition setIsDragOver (b : bool) (p : Page) : Page :=
  {| isDragOver := b; isProcessing := isProcessing p; importResult := importResult p;
     page_workItems := page_workItems p; page_workCodes := page_workCodes p;
     page_columnMapping := page_columnMapping p; page_errors := page_errors p;
     appError := appError p |}.

Definition setIsProcessing (b : bool) (p : Page) : Page :=
  {| isDragOver := isDragOver p; isProcessing := b; importResult := importResult p;
     page_workItems := page_workItems p; page_workCodes := page_workCodes p;
     page_columnMapping := page_columnMapping p; page_errors := page_errors p;
     appError := appError p |}.

Definition setImportResult (r : option ImportResult) (p : Page) : Page :=
  {| isDragOver := isDragOver p; isProcessing := isProcessing p; importResult := r;
     page_workItems := page_workItems p; page_workCodes := page_workCodes p;
     page_columnMapping := page_columnMapping p; page_errors := page_errors p;
     appError := appError p |}.

Definition setParsed (items : list WorkItem) (codes : list WorkCode)
    (mapping : gmap jsstring jsstring) (p : Page) : Page :=
  {| isDragOver := isDragOver p; isProcessing := isProcessing p;
     importResult := importResult p;
     page_workItems := items; page_workCodes := codes; page_columnMapping := mapping;
     page_errors := page_errors p; appError := appError p |}.

(** [setErrors(update)], with the updater form. *)
Definition setErrors (update : list jsstring -> list jsstring) (p : Page) : Page :=
  {| isDragOver := isDragOver p; isProcessing := isProcessing p;
     importResult := importResult p;
     page_workItems := page_workItems p; page_workCodes := page_workCodes p;
     page_columnMapping := page_columnMapping p; page_errors := update (page_errors p);
     appError := appError p |}.

Definition setAppError (e : option AppError) (p : Page) : Page :=
  {| isDragOver := isDragOver p; isProcessing := isProcessing p;
     importResult := importResult p;
     page_workItems := page_workItems p; page_workCodes := page_workCodes p;
     page_columnMapping := page_columnMapping p; page_errors := page_errors p;
     appError := e |}.

(** A file as the page gets it: what [validateFileType] reads of it, and
    what reading and decoding it will give. *)
Record Upload := {
  upload_file : File;
  upload_content : file_content
}.

Section Handlers.

Variable hostDateParse : jsstring -> JsDate.time_value.
Variable clock : nat -> Z.
Variable builtin_message : error -> jsstring.
Variable encoder_available : bool.

(** [handleFileUpload]: the page and the store after the call has run to
    its end, or as far as it gets if the promise it awaits stays pending. *)
Definition handleFileUpload (upload : Upload) (state : Page * Store) (k : nat)
  : (Page * Store) * nat :=
  let '(page, store) := state in
  let page := setIsProcessing true page in
  let page := setErrors (fun _ => []) page in
  let page := setAppError None page in
  let page := setImportResult None page in
  let validation := validateFileType (upload_file upload) in
  if negb (isValid validation) then
    let page := setErrors (fun _ => vr_errors validation) page in
    let page := setIsProcessing false page in
    ((page, store), k)
  else
    let page :=
      if (0 <? length (vr_warnings validation))%nat
      then setErrors (fun prev => prev ++ vr_warnings validation) page
      else page in
    match parseExcelFile hostDateParse clock builtin_message (upload_content upload) k with
    | (Resolved parsed, k') =>
      let now := clock k' in
      let '(result, uniqueItems) :=
        ImportPage.handleFileUpload encoder_available now
          (parsed_workItems parsed) (parsed_workCodes parsed) in
      let page := setParsed uniqueItems (parsed_workCodes parsed)
                            (parsed_columnMapping parsed) page in
      let page := setImportResult (Some result) page in
      let store :=
        {| store_workItems := addWorkItems uniqueItems (store_workItems store);
           store_workCodes := addWorkCodes (parsed_workCodes parsed) (store_workCodes store) |} in
      let page :=
        if (0 <? undefinedCodes result)%nat
        then setErrors (fun _ => [lit "未定義の小区分コードが "
                                    ++ dec_digits (Z.of_nat (undefinedCodes result))
                                    ++ lit " 件見つかりました"]) page
        else page in
      let page := setIsProcessing false page in
      ((page, store), S k')
    | (Rejected error, k') =>
      let page := setAppError (Some error) page in
      let page := setErrors (fun _ => [getUserFriendlyMessage error]) page in
      let page := setIsProcessing false page in
      ((page, store), k')
    | (Pending, k') => ((page, store), k')
    end.

Definition handleDragOver (state : Page * Store) : Page * Store :=
  (setIsDragOver true (fst state), snd state).

Definition handleDragLeave (state : Page * Store) : Page * Store :=
  (setIsDragOver false (fst state), snd state).

(** [handleDrop]: the first dropped file named as a workbook is uploaded. *)
Definition handleDrop (files : list Upload) (state : Page * Store) (k : nat)
  : (Page * Store) * nat :=
  let '(page, store) := state in
  let page := setIsDragOver false page in
  let excelFile :=
    List.find (fun file => endsWith (file_name (upload_file file)) (lit ".xlsx")
                           || endsWith (file_name (upload_file file)) (lit ".xls"))
              files in
  match excelFile with
  | Some file => handleFileUpload file (page, store) k
  | None => ((page, store), k)
  end.

(** [handleFileInput]: the first selected file, if there is one. *)
Definition handleFileInput (files : list Upload) (state : Page * Store) (k : nat)
  : (Page * Store) * nat :=
  match files with
  | file :: _ => handleFileUpload file state k
  | [] => (state, k)
  end.

End Handlers.

End ImportFlow.

(** ** utils/dataAggregation.ts *)

Module DataAggregation.
Import Str Num Types.

Record WorkTypeData := {
  name : jsstring;
  規内 : number;
  規外 : number;
  計 : number
}.

(** The values of the object [grouped]. *)
Record Group := {
  group_projectCode : jsstring;
  group_subworkCode : jsstring;
  group_規内 : number;
  group_規外 : number;
  group_計 : number
}.

(** An object or a Map filled key by key keeps its keys in insertion order:
    [update_entry] is [if (!m[key]) m[key] = init; m[key] = f(m[key])]. *)
Fixpoint update_entry {K V : Type} `{EqDecision K} (key : K) (init : V) (f : V -> V)
    (m : list (K * V)) : list (K * V) :=
  match m with
  | [] => [(key, f init)]
  | (k, v) :: r =>
    if bool_decide (k = key) then (k, f v) :: r
    else (k, v) :: update_entry key init f r
  end.

(** The properties that [{}] inherits from [Object.prototype]: for such a
    key [acc[key]] is an object already, the additions land on it, and
    [acc] gets no property of its own. *)
Definition inherited_keys : list jsstring :=
  [lit "constructor"; lit "__defineGetter__"; lit "__defineSetter__";
   lit "hasOwnProperty"; lit "__lookupGetter__"; lit "__lookupSetter__";
   lit "isPrototypeOf"; lit "propertyIsEnumerable"; lit "toString";
   lit "valueOf"; lit "__proto__"; lit "toLocaleString"].

Definition group_key (item : WorkItem) : jsstring :=
  projectCode item ++ [95] ++ subworkCode item.

Definition add_item (item : WorkItem) (g : Group) : Group :=
  {| group_projectCode := group_projectCode g;
     group_subworkCode := group_subworkCode g;
     group_規内 := add (group_規内 g) (inHours item);
     group_規外 := add (group_規外 g) (outHours item);
     group_計 := add (group_計 g) (totalHours item) |}.

(** The callback of [workItems.reduce]. *)
Definition group_step (acc : list (jsstring * Group)) (item : WorkItem)
  : list (jsstring * Group) :=
  let key := group_key item in
  if bool_decide (key ∈ inherited_keys) then acc
  else update_entry key
         {| group_projectCode := projectCode item;
            group_subworkCode := subworkCode item;
            group_規内 := zero; group_規外 := zero; group_計 := zero |}
         (add_item item) acc.

Definition grouped (workItems : list WorkItem) : list (jsstring * Group) :=
  fold_left group_step workItems [].

Definition fallback_name (p s : jsstring) : jsstring :=
  lit "工事" ++ p ++ [95] ++ s.

Definition workTypeName (workCodes : list WorkCode) (group : Group) : jsstring :=
  match List.find (fun code => bool_decide (wc_subworkCode code = group_subworkCode group))
                  workCodes with
  | Some workCode =>
    match majorName workCode, subworkName workCode with
    | _ :: _, _ => majorName workCode
    | [], _ :: _ => subworkName workCode
    | [], [] => fallback_name (group_projectCode group) (group_subworkCode group)
    end
  | None => fallback_name (group_projectCode group) (group_subworkCode group)
  end.

Definition add_group (group : Group) (existing : WorkTypeData) : WorkTypeData :=
  {| name := name existing;
     規内 := add (規内 existing) (group_規内 group);
     規外 := add (規外 existing) (group_規外 group);
     計 := add (計 existing) (group_計 group) |}.

(** The callback of [Object.values(grouped).forEach]. *)
Definition merge_step (workCodes : list WorkCode)
    (workTypeMap : list (jsstring * WorkTypeData)) (group : Group)
  : list (jsstring * WorkTypeData) :=
  let workTypeName := workTypeName workCodes group in
  update_entry workTypeName
    {| name := workTypeName; 規内 := zero; 規外 := zero; 計 := zero |}
    (add_group group) workTypeMap.

Definition aggregateByWorkType (workItems : list WorkItem) (workCodes : list WorkCode)
  : list WorkTypeData :=
  match workItems with
  | [] => []
  | _ :: _ =>
    map snd (fold_left (merge_step workCodes) (map snd (grouped workItems)) [])
  end.

Record Totals := {
  totalInHours : number;
  totalOutHours : number;
  totals_totalHours : number;
  overtimeRatio : number
}.

Definition calculateTotals (workItems : list WorkItem) : Totals :=
  let totalInHours := fold_left (fun sum item => add sum (inHours item)) workItems zero in
  let totalOutHours := fold_left (fun sum item => add sum (outHours item)) workItems zero in
  let totalHours := add totalInHours totalOutHours in
  let overtimeRatio :=
    if gtb totalHours zero then mul (div totalOutHours totalHours) (of_Z 100) else zero in
  {| totalInHours := totalInHours;
     totalOutHours := totalOutHours;
     totals_totalHours := totalHours;
     overtimeRatio := StringToNumber (toFixed 1 overtimeRatio) |}.

Record RatioData := {
  ratio_name : jsstring;
  ratio_value : number;
  ratio_color : jsstring
}.

Definition generateRatioData (workItems : list WorkItem) : list RatioData :=
  let totalInHours := fold_left (fun sum item => add sum (inHours item)) workItems zero in
  let totalOutHours := fold_left (fun sum item => add sum (outHours item)) workItems zero in
  [ {| ratio_name := lit "規内"; ratio_value := totalInHours; ratio_color := lit "#3B82F6" |};
    {| ratio_name := lit "規外"; ratio_value := totalOutHours; ratio_color := lit "#EF4444" |} ].

End DataAggregation.

(** ** pages/Codes.tsx: the handlers *)

Module CodesPage.
Import Str.

(** The page's own [WorkCode]. *)
Record CodeRow := {
  row_subworkCode : jsstring;
  row_subworkName : jsstring;
  row_majorCode : jsstring;
  row_majorName : jsstring;
  row_note : option jsstring
}.

Record State := {
  codes : list CodeRow;
  editingCode : option jsstring;
  editingData : option CodeRow;
  isAddingNew : bool;
  newCode : CodeRow
}.

Definition blank_code : CodeRow :=
  {| row_subworkCode := []; row_subworkName := []; row_majorCode := [];
     row_majorName := []; row_note := Some [] |}.

Definition mockCodes : list CodeRow :=
  [ {| row_subworkCode := lit "211"; row_subworkName := lit "配材作業";
       row_majorCode := lit "110"; row_majorName := lit "組立";
       row_note := Some (lit "材料の準備作業") |};
    {| row_subworkCode := lit "212"; row_subworkName := lit "組立作業";
       row_majorCode := lit "110"; row_majorName := lit "組立";
       row_note := Some (lit "部品の組み立て") |};
    {| row_subworkCode := lit "221"; row_subworkName := lit "配管作業";
       row_majorCode := lit "120"; row_majorName := lit "配管";
       row_note := Some (lit "配管の設置") |};
    {| row_subworkCode := lit "222"; row_subworkName := lit "配管検査";
       row_majorCode := lit "120"; row_majorName := lit "配管";
       row_note := Some (lit "配管の検査") |};
    {| row_subworkCode := lit "231"; row_subworkName := lit "電気配線";
       row_majorCode := lit "130"; row_majorName := lit "電気";
       row_note := Some (lit "電気配線作業") |} ].

Definition initial_state : State :=
  {| codes := mockCodes; editingCode := None; editingData := None;
     isAddingNew := false; newCode := blank_code |}.

Definition handleEdit (code : CodeRow) (st : State) : State :=
  {| codes := codes st;
     editingCode := Some (row_subworkCode code);
     editingData := Some code;
     isAddingNew := isAddingNew st;
     newCode := newCode st |}.

(** [setEditingData(prev => prev ? update(prev) : null)], the change of one
    input of the row being edited. *)
Definition changeEditingData (update : CodeRow -> CodeRow) (st : State) : State :=
  {| codes := codes st;
     editingCode := editingCode st;
     editingData := update <$> editingData st;
     isAddingNew := isAddingNew st;
     newCode := newCode st |}.

Definition handleSave (st : State) : State :=
  {| codes :=
       match editingData st with
       | Some data =>
         map (fun code => if bool_decide (row_subworkCode code = row_subworkCode data)
                          then data else code)
             (codes st)
       | None => codes st
       end;
     editingCode := None;
     editingData := None;
     isAddingNew := isAddingNew st;
     newCode := newCode st |}.

Definition handleCancel (st : State) : State :=
  {| codes := codes st;
     editingCode := None;
     editingData := None;
     isAddingNew := false;
     newCode := blank_code |}.

Definition nonempty (s : jsstring) : bool :=
  match s with [] => false | _ :: _ => true end.

Definition handleAddNew (st : State) : State :=
  if nonempty (row_subworkCode (newCode st)) && nonempty (row_subworkName (newCode st))
     && nonempty (row_majorCode (newCode st)) && nonempty (row_majorName (newCode st))
  then {| codes := codes st ++ [newCode st];
          editingCode := editingCode st;
          editingData := editingData st;
          isAddingNew := false;
          newCode := blank_code |}
  else st.

End CodesPage.

(** ** The properties as the specification words them *)

Module Spec.
Import Str Num Types.

(** The records of a batch whose hash no earlier record of the batch bears,
    and the others; [earlier] holds the records already passed. *)
Fixpoint first_occurrences (earlier items : list WorkItem) : list WorkItem :=
  match items with
  | [] => []
  | item :: rest =>
    (if bool_decide (srcHash item ∈ map srcHash earlier) then [] else [item])
      ++ first_occurrences (earlier ++ [item]) rest
  end.

Fixpoint later_occurrences (earlier items : list WorkItem) : list WorkItem :=
  match items with
  | [] => []
  | item :: rest =>
    (if bool_decide (srcHash item ∈ map srcHash earlier) then [item] else [])
      ++ later_occurrences (earlier ++ [item]) rest
  end.

(** [a < b] on strings: the order of their code units. *)
Fixpoint str_ltb (a b : jsstring) : bool :=
  match a, b with
  | _, [] => false
  | [], _ :: _ => true
  | x :: a', y :: b' => (x <? y) || ((x =? y) && str_ltb a' b')
  end.

(** The undefined-code statistics as the specification words them: one
    entry per code, with the number of its occurrences and the earliest
    [workDate] among them. *)
Fixpoint add_occurrence (item : WorkItem) (stats : list UndefinedCode)
  : list UndefinedCode :=
  match stats with
  | [] => [{| uc_subworkCode := subworkCode item; count := 1;
              firstSeen := workDate item |}]
  | s :: rest =>
    if bool_decide (uc_subworkCode s = subworkCode item)
    then {| uc_subworkCode := uc_subworkCode s; count := S (count s);
            firstSeen := if str_ltb (workDate item) (firstSeen s)
                         then workDate item else firstSeen s |} :: rest
    else s :: add_occurrence item rest
  end.

Definition has_taxonomy_entry (taxonomy : list WorkCode) (item : WorkItem) : Prop :=
  subworkCode item ∈ map wc_subworkCode taxonomy.

#[global] Instance has_taxonomy_entry_dec taxonomy item :
  Decision (has_taxonomy_entry taxonomy item).
Proof. unfold has_taxonomy_entry. apply _. Defined.

Definition undefinedCodeStats (records : list WorkItem) (taxonomy : list WorkCode)
  : list UndefinedCode :=
  fold_left
    (fun stats item =>
       if decide (has_taxonomy_entry taxonomy item) then stats
       else add_occurrence item stats)
    records [].

Definition total_count (stats : list UndefinedCode) : nat :=
  foldr (fun s n => (count s + n)%nat) 0%nat stats.

(** Two Numbers that a record comparison takes for the same: identical, or
    equal under [===]. *)
Definition same_number (x y : number) : Prop := x = y ∨ strict_eqb x y = true.

(** Two records that agree on the significant fields. *)
Definition same_significant_fields (r1 r2 : WorkItem) : Prop :=
  workDate r1 = workDate r2 ∧ contractorName r1 = contractorName r2
  ∧ projectCode r1 = projectCode r2 ∧ subworkCode r1 = subworkCode r2
  ∧ subareaCode r1 = subareaCode r2 ∧ reporter r1 = reporter r2
  ∧ same_number (inHours r1) (inHours r2) ∧ same_number (outHours r1) (outHours r2).

(** By-category aggregation as the specification words it: the records
    are grouped by the pair ([projectCode], [subworkCode]) itself; names are
    resolved and groups of one name merged as in the code. *)
Definition grouped_by_pair (workItems : list WorkItem)
  : list (jsstring * jsstring * DataAggregation.Group) :=
  fold_left
    (fun acc item =>
       DataAggregation.update_entry (projectCode item, subworkCode item)
         {| DataAggregation.group_projectCode := projectCode item;
            DataAggregation.group_subworkCode := subworkCode item;
            DataAggregation.group_規内 := zero;
            DataAggregation.group_規外 := zero;
            DataAggregation.group_計 := zero |}
         (DataAggregation.add_item item) acc)
    workItems [].

(** The key that the code gives a pair of codes. *)
Definition pair_key (k : jsstring * jsstring) : jsstring := fst k ++ [95] ++ snd k.

(** A project code that is not empty and holds no underscore. *)
Definition plain_project_code (item : WorkItem) : Prop :=
  (95 ∉ projectCode item) ∧ projectCode item ≠ [].

(** The display name of the category of a record. *)
Definition resolved_name (workCodes : list WorkCode) (item : WorkItem) : jsstring :=
  DataAggregation.workTypeName workCodes
    {| DataAggregation.group_projectCode := projectCode item;
       DataAggregation.group_subworkCode := subworkCode item;
       DataAggregation.group_規内 := zero;
       DataAggregation.group_規外 := zero;
       DataAggregation.group_計 := zero |}.

Definition aggregate_by_category (workItems : list WorkItem) (workCodes : list WorkCode)
  : list DataAggregation.WorkTypeData :=
  map snd (fold_left (DataAggregation.merge_step workCodes)
                     (map snd (grouped_by_pair workItems)) []).

(** A string of the form [YYYY-MM-DD] that names a day of the calendar. *)
Definition valid_iso_date (s : jsstring) : bool :=
  match JsDate.iso_date_fields s with
  | Some (y, m, d) =>
    (1 <=? m) && (m <=? 12) && (1 <=? d) && (d <=? JsDate.DaysInMonth y (m - 1))
  | None => false
  end.

(** The sum of a list of Numbers, taken from the left as [reduce] does. *)
Definition sum_numbers (xs : list number) : number := fold_left add xs zero.






(** By-category aggregation stated on the records themselves. The pairs of
    codes in the order in which the records bring them: *)
Fixpoint distinct {A : Type} `{EqDecision A} (l : list A) : list A :=
  match l with
  | [] => []
  | x :: r => x :: filter (fun y => y ≠ x) (distinct r)
  end.

Definition code_pair (item : WorkItem) : jsstring * jsstring :=
  (projectCode item, subworkCode item).

Definition code_pairs (records : list WorkItem) : list (jsstring * jsstring) :=
  distinct (map code_pair records).

(** The display name of a pair of codes: the major name of the first
    taxonomy entry for the sub-work code if it has one, else the sub-work
    name of that entry if it has one, else a name made of the two codes. *)
Definition category_name (taxonomy : list WorkCode) (p : jsstring * jsstring) : jsstring :=
  let synthesized := lit "工事" ++ fst p ++ lit "_" ++ snd p in
  match filter (fun code => wc_subworkCode code = snd p) taxonomy with
  | entry :: _ =>
    if bool_decide (majorName entry ≠ []) then majorName entry
    else if bool_decide (subworkName entry ≠ []) then subworkName entry
    else synthesized
  | [] => synthesized
  end.

(** The hours [hours] of the records of one pair, summed in their order. *)
Definition pair_hours (hours : WorkItem -> number) (records : list WorkItem)
    (p : jsstring * jsstring) : number :=
  sum_numbers (map hours (filter (fun item => code_pair item = p) records)).

(** The sums of the pairs that bear one display name, summed in the order
    of the pairs. *)
Definition category_hours (hours : WorkItem -> number) (taxonomy : list WorkCode)
    (records : list WorkItem) (n : jsstring) : number :=
  sum_numbers
    (map (pair_hours hours records)
         (filter (fun p => category_name taxonomy p = n) (code_pairs records))).

(** One row to a display name, in the order in which the pairs bring the
    names. *)
Definition category_rows (records : list WorkItem) (taxonomy : list WorkCode)
  : list DataAggregation.WorkTypeData :=
  map (fun n =>
         {| DataAggregation.name := n;
            DataAggregation.規内 := category_hours inHours taxonomy records n;
            DataAggregation.規外 := category_hours outHours taxonomy records n;
            DataAggregation.計 := category_hours totalHours taxonomy records n |})
      (distinct (map (category_name taxonomy) (code_pairs records))).

End Spec.

(** ** Sample data *)

Module Examples.
Import Str Num Js JsDate Types.

(** The two records and the two codes of [test/testDataGenerator.ts]. *)
Definition work_1 : WorkItem :=
  {| id := lit "work_1"; workDate := lit "2025-01-15";
     contractorId := lit "contractor_㈲三和工業"; contractorName := lit "㈲三和工業";
     reporter := lit "田中太郎"; headcount := of_Z 5; employmentCode := lit "正社員";
     projectId := lit "project_S6290"; projectCode := lit "S6290";
     subareaCode := lit "B12P"; subworkCode := lit "211";
     inHours := of_Z 8; outHours := of_decimal false 15 (-1);
     totalHours := of_decimal false 95 (-1);
     srcHash := lit "test_hash_1"; createdAt := lit "2025-01-15T00:00:00.000Z" |}.

Definition work_2 : WorkItem :=
  {| id := lit "work_2"; workDate := lit "2025-01-16";
     contractorId := lit "contractor_㈲三和工業"; contractorName := lit "㈲三和工業";
     reporter := lit "佐藤花子"; headcount := of_Z 3; employmentCode := lit "正社員";
     projectId := lit "project_S6290"; projectCode := lit "S6290";
     subareaCode := lit "B12P"; subworkCode := lit "212";
     inHours := of_decimal false 75 (-1); outHours := of_decimal false 5 (-1);
     totalHours := of_Z 8;
     srcHash := lit "test_hash_2"; createdAt := lit "2025-01-16T00:00:00.000Z" |}.

Definition code_211 : WorkCode :=
  {| wc_subworkCode := lit "211"; subworkName := lit "配材作業"; majorCode := lit "110";
     majorName := lit "組立"; note := Some (lit "材料の準備作業"); version := lit "1.0";
     updatedAt := lit "2025-01-15T00:00:00.000Z" |}.

Definition code_212 : WorkCode :=
  {| wc_subworkCode := lit "212"; subworkName := lit "組立作業"; majorCode := lit "110";
     majorName := lit "組立"; note := Some (lit "部品の組み立て"); version := lit "1.0";
     updatedAt := lit "2025-01-15T00:00:00.000Z" |}.

(** [{ ...item, field: value }] for the fields the examples vary. *)
Definition with_id (item : WorkItem) (v : jsstring) : WorkItem :=
  {| id := v; workDate := workDate item; contractorId := contractorId item;
     contractorName := contractorName item; reporter := reporter item;
     headcount := headcount item; employmentCode := employmentCode item;
     projectId := projectId item; projectCode := projectCode item;
     subareaCode := subareaCode item; subworkCode := subworkCode item;
     inHours := inHours item; outHours := outHours item;
     totalHours := totalHours item; srcHash := srcHash item;
     createdAt := createdAt item |}.

Definition with_workDate (item : WorkItem) (v : jsstring) : WorkItem :=
  {| id := id item; workDate := v; contractorId := contractorId item;
     contractorName := contractorName item; reporter := reporter item;
     headcount := headcount item; employmentCode := employmentCode item;
     projectId := projectId item; projectCode := projectCode item;
     subareaCode := subareaCode item; subworkCode := subworkCode item;
     inHours := inHours item; outHours := outHours item;
     totalHours := totalHours item; srcHash := srcHash item;
     createdAt := createdAt item |}.

Definition with_reporter (item : WorkItem) (v : jsstring) : WorkItem :=
  {| id := id item; workDate := workDate item; contractorId := contractorId item;
     contractorName := contractorName item; reporter := v;
     headcount := headcount item; employmentCode := employmentCode item;
     projectId := projectId item; projectCode := projectCode item;
     subareaCode := subareaCode item; subworkCode := subworkCode item;
     inHours := inHours item; outHours := outHours item;
     totalHours := totalHours item; srcHash := srcHash item;
     createdAt := createdAt item |}.

(** [work_1] under another id, head count, employment code and time of
    creation. *)
Definition work_1_again : WorkItem :=
  {| id := lit "work_9"; workDate := workDate work_1;
     contractorId := contractorId work_1;
     contractorName := contractorName work_1; reporter := reporter work_1;
     headcount := of_Z 7; employmentCode := lit "派遣";
     projectId := projectId work_1; projectCode := projectCode work_1;
     subareaCode := subareaCode work_1; subworkCode := subworkCode work_1;
     inHours := inHours work_1; outHours := outHours work_1;
     totalHours := totalHours work_1; srcHash := lit "";
     createdAt := lit "2026-03-01T09:30:00.000Z" |}.

Definition with_codes (item : WorkItem) (p s : jsstring) : WorkItem :=
  {| id := id item; workDate := workDate item; contractorId := contractorId item;
     contractorName := contractorName item; reporter := reporter item;
     headcount := headcount item; employmentCode := employmentCode item;
     projectId := projectId item; projectCode := p;
     subareaCode := subareaCode item; subworkCode := s;
     inHours := inHours item; outHours := outHours item;
     totalHours := totalHours item; srcHash := srcHash item;
     createdAt := createdAt item |}.

Definition with_hours (item : WorkItem) (i o t : number) : WorkItem :=
  {| id := id item; workDate := workDate item; contractorId := contractorId item;
     contractorName := contractorName item; reporter := reporter item;
     headcount := headcount item; employmentCode := employmentCode item;
     projectId := projectId item; projectCode := projectCode item;
     subareaCode := subareaCode item; subworkCode := subworkCode item;
     inHours := i; outHours := o; totalHours := t; srcHash := srcHash item;
     createdAt := createdAt item |}.

(** Two records whose pairs of codes differ and whose keys coincide, and a
    taxonomy that names their sub-work codes differently. *)
Definition work_A_B__C : WorkItem := with_codes work_1 (lit "A_B") (lit "C").
Definition work_A__B_C : WorkItem := with_codes work_2 (lit "A") (lit "B_C").

Definition code_C : WorkCode :=
  {| wc_subworkCode := lit "C"; subworkName := lit "配材作業"; majorCode := lit "110";
     majorName := lit "組立"; note := None; version := lit "1.0";
     updatedAt := lit "2025-01-15T00:00:00.000Z" |}.

Definition code_B_C : WorkCode :=
  {| wc_subworkCode := lit "B_C"; subworkName := lit "配管作業"; majorCode := lit "120";
     majorName := lit "配管"; note := None; version := lit "1.0";
     updatedAt := lit "2025-01-15T00:00:00.000Z" |}.

(** A host whose [Date.parse] reads nothing beyond the date-time string
    format. *)
Definition strict_host : jsstring -> time_value := fun _ => None.


(** A record of another project, whose sub-work code the sample taxonomy
    does not name. *)
Definition work_3 : WorkItem := with_codes work_2 (lit "S7001") (lit "999").

(** Two records in ASCII, whose base64 tokens hold no '+' and no '/'. *)
Definition work_en_1 : WorkItem :=
  {| id := lit "work_1"; workDate := lit "2025-01-15";
     contractorId := lit "contractor_Sanwa"; contractorName := lit "Sanwa";
     reporter := lit "Tanaka"; headcount := of_Z 5; employmentCode := lit "regular";
     projectId := lit "project_S6290"; projectCode := lit "S6290";
     subareaCode := lit "B12P"; subworkCode := lit "211";
     inHours := of_Z 8; outHours := of_decimal false 15 (-1);
     totalHours := of_decimal false 95 (-1);
     srcHash := lit "test_hash_1"; createdAt := lit "2025-01-15T00:00:00.000Z" |}.

Definition work_en_2 : WorkItem :=
  {| id := lit "work_2"; workDate := lit "2025-01-16";
     contractorId := lit "contractor_Sanwa"; contractorName := lit "Sanwa";
     reporter := lit "Sato"; headcount := of_Z 3; employmentCode := lit "regular";
     projectId := lit "project_S6290"; projectCode := lit "S6290";
     subareaCode := lit "B12P"; subworkCode := lit "212";
     inHours := of_decimal false 75 (-1); outHours := of_decimal false 5 (-1);
     totalHours := of_Z 8;
     srcHash := lit "test_hash_2"; createdAt := lit "2025-01-16T00:00:00.000Z" |}.

(** A workbook laid out as the parser expects it: the headers of the daily
    sheet on its fifth row, those of the code sheet on its third. *)
Definition sample_headers : list value :=
  [VString (lit "日付"); VString (lit "業者名"); VString (lit "報告者名");
   VString (lit "在籍"); VUndefined; VString (lit "雇"); VString (lit "工事番号");
   VUndefined; VUndefined; VUndefined; VString (lit "小区画"); VString (lit "小区分");
   VUndefined; VUndefined; VString (lit "規内"); VString (lit "規外"); VString (lit "計")].

Definition sample_row_1 : list value :=
  [VString (lit "20250115"); VString (lit "㈲三和工業"); VString (lit "田中太郎");
   VNumber (of_Z 5); VUndefined; VString (lit "正社員"); VString (lit "S6290");
   VUndefined; VUndefined; VUndefined; VString (lit "B12P"); VString (lit "211");
   VUndefined; VUndefined; VNumber (of_Z 8); VNumber (of_decimal false 15 (-1));
   VNumber (of_decimal false 95 (-1))].

(** A row with a serial date, a padded name, a numeric code and hours that
    add up to less than nothing. *)
Definition sample_row_2 : list value :=
  [VNumber (of_Z 45673); VString (lit " ㈲三和工業 "); VString (lit "佐藤花子");
   VNumber (of_Z 3); VUndefined; VString (lit "正社員"); VString (lit "S6290");
   VUndefined; VUndefined; VUndefined; VString (lit "B12P"); VNumber (of_Z 212);
   VUndefined; VUndefined; VString (lit "7.5"); VString (lit "-9");
   VNumber (of_Z 100)].

Definition sample_daily : ExcelParser.sheet :=
  [[]; []; []; []; sample_headers; sample_row_1; [VUndefined; VNull; VString []];
   sample_row_2].

Definition sample_codes : ExcelParser.sheet :=
  [[]; [];
   [VString (lit "大区分"); VString (lit "大区分名称"); VString (lit "小区分");
    VString (lit "小区分名称"); VString (lit "備考")];
   [VString (lit "110"); VString (lit "組立"); VString (lit "211");
    VString (lit "配材作業"); VString (lit "材料の準備作業")];
   [VNumber (of_Z 110); VString (lit "組立"); VNumber (of_Z 212);
    VString (lit "組立作業")]].

Definition sample_workbook : ExcelParser.workbook :=
  [(lit "データ(日報)", sample_daily); (lit "コード", sample_codes)].

(** The same daily sheet with one more row, whose date is a serial past the
    last day of a Date. *)
Definition bad_workbook : ExcelParser.workbook :=
  [(lit "データ(日報)", sample_daily ++ [[VString (lit "100025570")]])].

(** A clock that starts on 2025-01-15 and advances a millisecond a reading,
    and V8's message for an invalid Date. *)
Definition sample_clock (k : nat) : Z := 1736899200000 + Z.of_nat k.

Definition sample_message (e : error) : jsstring :=
  match e with
  | RangeError => lit "Invalid time value"
  | ReferenceError => lit "TextEncoder is not defined"
  end.

(** What reading [sample_workbook] with that clock, from its first reading
    on, resolves with. *)
Definition sample_parsed : ExcelParser.ParsedFile :=
  Eval vm_compute in
    match fst (ExcelParser.parseExcelFile strict_host sample_clock sample_message
                 (ExcelParser.Workbook sample_workbook) 0) with
    | Effects.Resolved parsed => parsed
    | _ => {| ExcelParser.parsed_workItems := []; ExcelParser.parsed_workCodes := [];
              ExcelParser.parsed_columnMapping := ∅ |}
    end.

(** A clock that has stopped. *)
Definition frozen_clock (k : nat) : Z := 1736899200000.

(** A workbook of 20 KiB, the same file with the bad date in it, and a
    picture. *)
Definition sample_file : ErrorHandler.File :=
  {| ErrorHandler.file_name := lit "日報.xlsx";
     ErrorHandler.file_type :=
       lit "application/vnd.openxmlformats-officedocument.spreadsheetml.sheet";
     ErrorHandler.file_size := 20480 |}.

Definition sample_upload : ImportFlow.Upload :=
  {| ImportFlow.upload_file := sample_file;
     ImportFlow.upload_content := ExcelParser.Workbook sample_workbook |}.

Definition bad_upload : ImportFlow.Upload :=
  {| ImportFlow.upload_file := sample_file;
     ImportFlow.upload_content := ExcelParser.Workbook bad_workbook |}.

Definition picture_upload : ImportFlow.Upload :=
  {| ImportFlow.upload_file :=
       {| ErrorHandler.file_name := lit "photo.png";
          ErrorHandler.file_type := lit "image/png";
          ErrorHandler.file_size := 1000 |};
     ImportFlow.upload_content := ExcelParser.Unreadable |}.

Definition empty_store : DataContext.Store :=
  {| DataContext.store_workItems := []; DataContext.store_workCodes := [] |}.

(** The same workbook read again, from the eighth reading of the clock on. *)
Definition sample_parsed_again : ExcelParser.ParsedFile :=
  Eval vm_compute in
    match fst (ExcelParser.parseExcelFile strict_host sample_clock sample_message
                 (ExcelParser.Workbook sample_workbook) 7) with
    | Effects.Resolved parsed => parsed
    | _ => {| ExcelParser.parsed_workItems := []; ExcelParser.parsed_workCodes := [];
              ExcelParser.parsed_columnMapping := ∅ |}
    end.

End Examples.

(** ** Encodings: the notions behind the row hash *)

Module Encoding.
Import Str Num Types ExcelParser.

(** Characters of a printed Number. *)
Definition number_char (c : Z) : bool :=
  isDigit c || bool_decide (c ∈ [43; 45; 46; 101; 78; 97; 73; 110; 102; 105; 116; 121]).

(** A string without lone surrogates: what [TextEncoder] encodes without
    replacing anything. *)
Fixpoint well_formed (s : jsstring) : bool :=
  match s with
  | [] => true
  | c :: r =>
    if isHighSurrogate c then
      match r with
      | c2 :: r2 => isLowSurrogate c2 && well_formed r2
      | [] => false
      end
    else negb (isLowSurrogate c) && (0 <=? c) && (c <? 65536) && well_formed r
  end.

(** Bytes, and the code point of a surrogate pair. *)
Definition is_byte (b : Z) : Prop := 0 <= b < 256.

Definition pair_code_point (h l : Z) : Z := 65536 + (h - 55296) * 1024 + (l - 56320).

(** The head of a well-formed string: a unit outside the surrogates, or a
    surrogate pair. *)
Inductive wf_view : jsstring -> Prop :=
| wf_view_nil : wf_view []
| wf_view_unit c r :
    isHighSurrogate c = false → isLowSurrogate c = false → (0 <= c < 65536) →
    well_formed r = true → wf_view (c :: r)
| wf_view_pair h l r :
    isHighSurrogate h = true → isLowSurrogate l = true →
    well_formed r = true → wf_view (h :: l :: r).

(** The six-bit groups that [btoa] writes, before padding. *)
Definition is_sextet (i : Z) : Prop := 0 <= i < 64.

Fixpoint sextets_of (bs : list Z) : list Z :=
  match bs with
  | [] => []
  | [a] => [a / 4; a mod 4 * 16]
  | [a; b] => [a / 4; a mod 4 * 16 + b / 16; b mod 16 * 4]
  | a :: b :: c :: r =>
    [a / 4; a mod 4 * 16 + b / 16; b mod 16 * 4 + c / 64; c mod 64] ++ sextets_of r
  end.

(** A token free of '+' and '/'. *)
Definition plain_token (t : jsstring) : Prop := (43 ∉ t) ∧ (47 ∉ t).

(** A field that the row key keeps apart from its neighbours and that UTF-8
    encodes without loss: no underscore, no lone surrogate. *)
Definition plain_field (s : jsstring) : Prop := (95 ∉ s) ∧ well_formed s = true.

(** A record whose six text fields are plain. *)
Definition plain_fields (item : WorkItem) : Prop :=
  plain_field (workDate item) ∧ plain_field (contractorName item)
  ∧ plain_field (projectCode item) ∧ plain_field (subworkCode item)
  ∧ plain_field (subareaCode item) ∧ plain_field (reporter item).

End Encoding.

(** ** What a parsed record owes to its row *)

Module Rows.
Import Str Num Js JsDate Types ExcelParser.

(** The record that [parseExcelFile] makes of a row, but for its [id] and
    [createdAt], which come from the clock. *)
Definition read_from_row (hostDateParse : jsstring -> time_value)
    (headers : list jsstring) (row : list value) (item : WorkItem) : Prop :=
  let cell := item_cell headers (positionalMapping headers) row in
  (exists date, parseDate hostDateParse (cell (lit "workDate")) = Normal date
                ∧ workDate item = default [] date)
  ∧ contractorName item = parseString (cell (lit "contractorName"))
  ∧ contractorId item = lit "contractor_" ++ contractorName item
  ∧ reporter item = parseString (cell (lit "reporter"))
  ∧ headcount item = parseNumber (cell (lit "headcount"))
  ∧ employmentCode item = parseString (cell (lit "employmentCode"))
  ∧ projectCode item = parseString (cell (lit "projectCode"))
  ∧ projectId item = lit "project_" ++ projectCode item
  ∧ subareaCode item = parseString (cell (lit "subareaCode"))
  ∧ subworkCode item = parseString (cell (lit "subworkCode"))
  ∧ inHours item = parseNumber (cell (lit "inHours"))
  ∧ outHours item = parseNumber (cell (lit "outHours"))
  ∧ totalHours item = Math_max zero (add (inHours item) (outHours item))
  ∧ srcHash item = [].

(** Whether a promise was fulfilled, and with what. *)
Definition is_resolved {A E} (p : Effects.promise A E) : bool :=
  match p with Effects.Resolved _ => true | _ => false end.

Definition is_rejected {A E} (p : Effects.promise A E) : option E :=
  match p with Effects.Rejected e => Some e | _ => None end.

(** A clock reading that is a time a Date can hold. *)
Definition valid_time (t : Z) : Prop := Z.abs t <= 8640000000000000.

End Rows.

(** ** The groups behind the chart *)

Module Groups.
Import Str Num Types DataAggregation Spec.

(** The group and the row that a first record or group opens. *)
Definition empty_group (p : jsstring * jsstring) : Group :=
  {| group_projectCode := fst p; group_subworkCode := snd p;
     group_規内 := zero; group_規外 := zero; group_計 := zero |}.

Definition empty_row (n : jsstring) : WorkTypeData :=
  {| name := n; 規内 := zero; 規外 := zero; 計 := zero |}.

(** The group of a pair of codes once all its records are added. *)
Definition group_of (records : list WorkItem) (p : jsstring * jsstring) : Group :=
  fold_left (fun g item => add_item item g)
            (filter (fun item => code_pair item = p) records) (empty_group p).

End Groups.

(** * Proofs *)

Import Str Num Js JsDate Types.

(** ** Deduplication of a batch (pages/Import.tsx) *)

Section Dedup.
Import ImportPage Spec.

Lemma length_occurrences earlier items :
  (length (first_occurrences earlier items) + length (later_occurrences earlier items)
   = length items)%nat.
Proof.
  revert earlier; induction items as [|item rest IH]; intros earlier; simpl; [done|].
  rewrite !length_app, <- (IH (earlier ++ [item])).
  case_bool_decide; simpl; lia.
Qed.

Lemma first_occurrences_fresh earlier items x :
  x ∈ first_occurrences earlier items → srcHash x ∉ map srcHash earlier.
Proof.
  revert earlier; induction items as [|item rest IH]; intros earlier; simpl.
  - by intros ?%elem_of_nil.
  - rewrite elem_of_app. intros [Hx|Hx].
    + case_bool_decide; [by apply elem_of_nil in Hx|].
      apply list_elem_of_singleton in Hx. by subst.
    + apply IH in Hx. rewrite map_app, elem_of_app in Hx. tauto.
Qed.

Lemma first_occurrences_NoDup earlier items :
  NoDup (map srcHash (first_occurrences earlier items)).
Proof.
  revert earlier; induction items as [|item rest IH]; intros earlier; simpl.
  - constructor.
  - rewrite map_app. apply NoDup_app. split_and!; [|intros h Hh Hin|apply IH].
    + case_bool_decide; simpl; [constructor|apply NoDup_singleton].
    + case_bool_decide; simpl in Hh; [by apply elem_of_nil in Hh|].
      apply list_elem_of_singleton in Hh. subst h.
      apply list_elem_of_In, in_map_iff in Hin as (x & Hx & Hin).
      apply list_elem_of_In, first_occurrences_fresh in Hin.
      apply Hin. rewrite map_app, elem_of_app, Hx. right. simpl. left.
Qed.

Lemma occurrences_Permutation earlier items :
  first_occurrences earlier items ++ later_occurrences earlier items ≡ₚ items.
Proof.
  revert earlier; induction items as [|item rest IH]; intros earlier; simpl; [done|].
  specialize (IH (earlier ++ [item])).
  case_bool_decide; simpl.
  - rewrite <- IH at 3. by rewrite Permutation_middle.
  - by rewrite IH.
Qed.

(** The loop keeps in [hashSet] the hashes of the records it has passed. *)
Lemma fold_dedup_step items : forall earlier st,
  (forall h, h ∈ hashSet st ↔ h ∈ map srcHash earlier) →
  let st' := fold_left dedup_step items st in
  uniqueItems st' = uniqueItems st ++ first_occurrences earlier items
  ∧ duplicates st' = duplicates st ++ later_occurrences earlier items.
Proof.
  induction items as [|item rest IH]; intros earlier st Hset; simpl.
  - by rewrite !app_nil_r.
  - unfold dedup_step at 2 4.
    destruct (decide (srcHash item ∈ hashSet st)) as [Hin|Hin].
    + rewrite (bool_decide_eq_true_2 _ Hin).
      rewrite (bool_decide_eq_true_2 (srcHash item ∈ map srcHash earlier)) by by apply Hset.
      edestruct (IH (earlier ++ [item])) as [-> ->]; simpl.
      * intros h. rewrite map_app, elem_of_app, <- Hset. simpl.
        rewrite list_elem_of_singleton. split; [tauto|]. intros [?| ->]; done.
      * by rewrite <- app_assoc.
    + rewrite (bool_decide_eq_false_2 _ Hin).
      rewrite (bool_decide_eq_false_2 (srcHash item ∈ map srcHash earlier))
        by by rewrite <- Hset.
      edestruct (IH (earlier ++ [item])) as [-> ->]; simpl.
      * intros h. rewrite map_app, elem_of_app, <- Hset. simpl.
        rewrite list_elem_of_singleton, elem_of_union, elem_of_singleton. tauto.
      * by rewrite <- app_assoc.
Qed.

Lemma checkDuplicates_occurrences (itemsWithHash : list WorkItem) :
  uniqueItems (checkDuplicates itemsWithHash) = first_occurrences [] itemsWithHash
  ∧ duplicates (checkDuplicates itemsWithHash) = later_occurrences [] itemsWithHash.
Proof.
  destruct (fold_dedup_step itemsWithHash []
              {| hashSet := ∅; duplicates := []; uniqueItems := [] |}) as [Hu Hd].
  { intros h. simpl. rewrite elem_of_empty. by split; [|intros ?%elem_of_nil]. }
  simpl in Hu, Hd. by unfold checkDuplicates.
Qed.

(** C2: the duplicate check splits a batch of hashed records into the first
    record of each hash, in input order, and the later records of a hash
    already met; the two lists together hold every record of the batch once,
    so their lengths add up to the batch's, and the hashes of the unique list
    are pairwise distinct. *)
Theorem checkDuplicates_partition (itemsWithHash : list WorkItem) :
  let st := checkDuplicates itemsWithHash in
  uniqueItems st = first_occurrences [] itemsWithHash
  ∧ duplicates st = later_occurrences [] itemsWithHash
  ∧ uniqueItems st ++ duplicates st ≡ₚ itemsWithHash
  ∧ (length (uniqueItems st) + length (duplicates st) = length itemsWithHash)%nat
  ∧ NoDup (map srcHash (uniqueItems st)).
Proof.
  destruct (fold_dedup_step itemsWithHash []
              {| hashSet := ∅; duplicates := []; uniqueItems := [] |}) as [Hu Hd].
  { intros h. simpl. rewrite elem_of_empty. by split; [|intros ?%elem_of_nil]. }
  simpl in Hu, Hd. unfold checkDuplicates. cbv zeta. rewrite Hu, Hd.
  split_and!; auto using occurrences_Permutation, length_occurrences,
    first_occurrences_NoDup.
Qed.

End Dedup.

(** ** The store (contexts/DataContext.tsx) *)

Section Store.
Import DataContext Examples.

Lemma addWorkItems_app items prev :
  addWorkItems items prev
  = prev ++ filter (fun item => srcHash item ∉ map srcHash prev) items.
Proof.
  unfold addWorkItems. f_equal. apply list_filter_iff.
  intros item. by rewrite elem_of_list_to_set.
Qed.

Lemma addWorkItems_NoDup items prev :
  NoDup (map srcHash prev) → NoDup (map srcHash items) →
  NoDup (map srcHash (addWorkItems items prev)).
Proof.
  intros Hprev Hitems. rewrite addWorkItems_app, map_app.
  apply NoDup_app. split_and!; [done| |].
  - intros h Hh Hin.
    apply list_elem_of_In, in_map_iff in Hin as (x & <- & Hx).
    apply list_elem_of_In, list_elem_of_filter in Hx as [Hx _]. done.
  - clear Hprev. induction items as [|x items IH]; [constructor|].
    simpl in Hitems. apply NoDup_cons in Hitems as [Hx Hitems].
    rewrite filter_cons. case_decide; [|by apply IH].
    simpl. apply NoDup_cons. split; [|by apply IH].
    intros Hin. apply Hx.
    apply list_elem_of_In, in_map_iff in Hin as (y & Hy & Hin).
    apply list_elem_of_In, list_elem_of_filter in Hin as [_ Hin].
    rewrite <- Hy. apply list_elem_of_In, in_map, list_elem_of_In, Hin.
Qed.

Lemma store_after_snoc batches items :
  store_after (batches ++ [items]) = addWorkItems items (store_after batches).
Proof. unfold store_after. by rewrite fold_left_app. Qed.

Lemma store_after_NoDup batches :
  Forall (fun items => NoDup (map srcHash items)) batches →
  NoDup (map srcHash (store_after batches)).
Proof.
  induction batches as [|items batches IH] using rev_ind; intros Hall.
  - constructor.
  - apply Forall_app in Hall as [Hall Hitems].
    apply Forall_inv in Hitems.
    rewrite store_after_snoc. by apply addWorkItems_NoDup; [apply IH|].
Qed.

(** C9 (as amended): starting from the empty store, after any sequence of
    [addWorkItems] calls whose batches each have pairwise distinct hashes,
    the hashes of the store are pairwise distinct; a call keeps the items
    stored before it, unchanged and in place, and appends exactly the
    incoming items whose hash does not occur in the store. *)
Theorem addWorkItems_preserves_distinct_hashes
    (batches : list (list WorkItem)) (items : list WorkItem) :
  Forall (fun b => NoDup (map srcHash b)) (batches ++ [items]) →
  let prev := store_after batches in
  let next := store_after (batches ++ [items]) in
  NoDup (map srcHash next)
  ∧ next = prev ++ filter (fun item => srcHash item ∉ map srcHash prev) items
  ∧ (forall item, item ∈ items → srcHash item ∈ map srcHash prev →
       item ∉ drop (length prev) next).
Proof.
  intros Hall prev next. split_and!.
  - by apply store_after_NoDup.
  - unfold next. by rewrite store_after_snoc, addWorkItems_app.
  - intros item _ Hin. unfold next.
    rewrite store_after_snoc, addWorkItems_app, drop_app_length.
    rewrite list_elem_of_filter. tauto.
Qed.

Lemma addWorkItems_preserves_distinct_hashes_witness :
  let batches := [[work_1]; [work_1; work_2]] in
  let prev := store_after batches in
  let next := store_after (batches ++ [[work_2; with_id work_1 (lit "work_3")]]) in
  NoDup (map srcHash next)
  ∧ next = prev ++ filter (fun item => srcHash item ∉ map srcHash prev)
                     [work_2; with_id work_1 (lit "work_3")]
  ∧ (forall item, item ∈ [work_2; with_id work_1 (lit "work_3")] →
       srcHash item ∈ map srcHash prev → item ∉ drop (length prev) next).
Proof.
  apply (addWorkItems_preserves_distinct_hashes
           [[work_1]; [work_1; work_2]] [work_2; with_id work_1 (lit "work_3")]).
  apply (bool_decide_unpack _). by vm_compute.
Defined.

(** C9 (as stated) fails: a batch that holds the same hash twice is stored
    whole by the first call on the empty store. *)
Lemma addWorkItems_keeps_duplicates_within_a_batch :
  store_after [[work_1; with_id work_1 (lit "work_1_again")]]
  = [work_1; with_id work_1 (lit "work_1_again")]
  ∧ map srcHash (store_after [[work_1; with_id work_1 (lit "work_1_again")]])
    = [lit "test_hash_1"; lit "test_hash_1"]
  ∧ ¬ NoDup (map srcHash (store_after [[work_1; with_id work_1 (lit "work_1_again")]])).
Proof.
  split_and!; [by vm_compute..|].
  apply (bool_decide_eq_false_1 _). by vm_compute.
Qed.

End Store.

(** ** Coercion of cells (utils/excelParser.ts) *)

Section Coercion.
Import ExcelParser Examples.

(** C10: [parseString] gives the empty string for every falsy cell, the
    number 0 and the boolean false among them, so that a 0 in a string column
    reads as a missing value does. *)
Theorem parseString_falsy (value : value) :
  ToBoolean value = false →
  parseString value = []
  ∧ parseString (VNumber (of_Z 0)) = parseString VNull
  ∧ parseString (VBool false) = parseString VUndefined.
Proof. intros H. unfold parseString. rewrite H. by vm_compute. Qed.

Lemma parseString_falsy_witness :
  ToBoolean (VNumber (of_Z 0)) = false
  ∧ parseString (VNumber (of_Z 0)) = []
  ∧ parseString (VNumber (of_Z 0)) = parseString VNull
  ∧ parseString (VBool false) = parseString VUndefined.
Proof.
  split; [reflexivity|].
  apply (parseString_falsy (VNumber (of_Z 0))). reflexivity.
Defined.

(** The falsy cells are exactly these. *)
Lemma ToBoolean_false (value : value) :
  ToBoolean value = false ↔
  value = VUndefined ∨ value = VNull ∨ value = VBool false
  ∨ (exists s, value = VNumber (S754_zero s)) ∨ value = VNumber S754_nan
  ∨ value = VString [].
Proof.
  split.
  - destruct value as [| |[]|[]|[]]; simpl; intros; try discriminate; eauto 10.
  - intros [->|[->|[->|[[s ->]|[->| ->]]]]]; reflexivity.
Qed.

(** [parseNumber] never gives NaN, and gives 0 where [parseFloat] reads no
    number. *)
Lemma parseNumber_not_NaN (value : value) : isNaN (parseNumber value) = false.
Proof.
  unfold parseNumber.
  destruct value as [| | | |[]]; try reflexivity;
    match goal with |- context [parseFloat ?s] => destruct (parseFloat s) end;
    reflexivity.
Qed.

Lemma parseNumber_defaults :
  parseNumber (VString []) = zero ∧ parseNumber VNull = zero
  ∧ parseNumber VUndefined = zero ∧ parseNumber (VString (lit "abc")) = zero.
Proof. by vm_compute. Qed.

(** C7: [parseDate] does not return for every cell: a string of digits that
    is no eight-digit date is read as a spreadsheet serial, and once the
    serial lies past the last day a Date can hold, [toISOString] throws a
    RangeError, whatever the host's date parser. *)
Theorem parseDate_throws_on_large_serial (hostDateParse : jsstring -> time_value) :
  parseDate hostDateParse (VString (lit "100025570")) = Throw RangeError
  ∧ parseDate hostDateParse (VNumber (of_Z 100025570)) = Throw RangeError
  ∧ parseDate hostDateParse (VString (lit "100025569"))
    = Normal (Some (lit "+275760-09-13")).
Proof. by vm_compute. Qed.

End Coercion.

(** ** Column detection (utils/excelParser.ts) *)

Section Columns.
Import ExcelParser Examples.

Variable toLowerCase : jsstring -> jsstring.

Lemma find_none_intro {A : Type} (f : A -> bool) (l : list A) :
  (forall x, In x l → f x = false) → List.find f l = None.
Proof.
  induction l as [|a l IH]; intros H; simpl; [done|].
  rewrite (H a) by by left. apply IH. intros x Hx. apply H. by right.
Qed.

(** The fold over a table of fields with distinct names gives each field
    what its own candidates find. *)
Lemma fold_detect_lookup (valid : list jsstring) (table : list (jsstring * list jsstring)) :
  forall (mapping : gmap jsstring jsstring) (key : jsstring),
  NoDup (map fst table) →
  fold_left
    (fun mapping '(key, candidates) =>
       match first_found toLowerCase candidates valid with
       | Some found => <[key := found]> mapping
       | None => mapping
       end) table mapping !! key
  = match List.find (fun entry => bool_decide (fst entry = key)) table with
    | Some (_, candidates) =>
      match first_found toLowerCase candidates valid with
      | Some found => Some found
      | None => mapping !! key
      end
    | None => mapping !! key
    end.
Proof.
  induction table as [|[k cs] table IH]; intros mapping key Hnd; simpl; [done|].
  apply NoDup_cons in Hnd as [Hk Hnd].
  rewrite IH by done. case_bool_decide as Hkey; simpl in Hkey.
  - subst k.
    replace (List.find (fun entry => bool_decide (entry.1 = key)) table) with
      (@None (jsstring * list jsstring)).
    + destruct (first_found toLowerCase cs valid); [|done].
      by rewrite lookup_insert_eq.
    + symmetry. apply find_none_intro. intros [k' cs'] Hin. simpl.
      apply bool_decide_eq_false_2. intros ->. apply Hk.
      apply list_elem_of_In. by apply (in_map fst) in Hin.
  - destruct (List.find _ table) as [[k' cs']|];
      destruct (first_found toLowerCase cs valid); try done;
      by rewrite lookup_insert_ne.
Qed.

Lemma COLUMN_CANDIDATES_NoDup : NoDup (map fst COLUMN_CANDIDATES).
Proof. apply (bool_decide_unpack _). by vm_compute. Qed.

(** C6 (as amended): in [detectColumns] every canonical field is mapped on
    its own, to the first valid header (in header order) that the first of
    its candidates to match any header matches; the headers that other
    fields were mapped to play no part, so one header may serve several
    fields. *)
Theorem detectColumns_field (headers : list value) (key : jsstring)
    (candidates : list jsstring) :
  (key, candidates) ∈ COLUMN_CANDIDATES →
  detectColumns toLowerCase headers !! key
  = first_found toLowerCase candidates (validHeaders headers).
Proof.
  intros Hin. unfold detectColumns.
  rewrite fold_detect_lookup by apply COLUMN_CANDIDATES_NoDup.
  rewrite lookup_empty.
  assert (List.find (fun entry => bool_decide (fst entry = key)) COLUMN_CANDIDATES
          = Some (key, candidates)) as ->.
  { revert Hin. unfold COLUMN_CANDIDATES.
    rewrite !elem_of_cons, elem_of_nil.
    intros H; repeat destruct H as [H|H]; try done;
      injection H as -> ->; by vm_compute. }
  by destruct (first_found _ _ _).
Qed.

End Columns.

Lemma detectColumns_field_witness :
  (lit "reporter", [lit "報告者名"; lit "報告者"; lit "reporter"; lit "name"; lit "氏名";
                    lit "担当者"]) ∈ ExcelParser.COLUMN_CANDIDATES
  ∧ ExcelParser.detectColumns toLowerCase_basic
      [VString (lit "日付"); VNull; VString (lit "Reporter Name")] !! lit "reporter"
    = ExcelParser.first_found toLowerCase_basic
        [lit "報告者名"; lit "報告者"; lit "reporter"; lit "name"; lit "氏名"; lit "担当者"]
        (ExcelParser.validHeaders [VString (lit "日付"); VNull; VString (lit "Reporter Name")]).
Proof.
  assert ((lit "reporter", [lit "報告者名"; lit "報告者"; lit "reporter"; lit "name";
                            lit "氏名"; lit "担当者"]) ∈ ExcelParser.COLUMN_CANDIDATES) as Hin.
  { apply (bool_decide_unpack _). by vm_compute. }
  split; [exact Hin|].
  exact (detectColumns_field toLowerCase_basic
           [VString (lit "日付"); VNull; VString (lit "Reporter Name")] _ _ Hin).
Defined.

(** C6 (as stated) fails: the one header ["date name"] is taken by the field
    [workDate] (candidate ["date"]) and taken again by the later field
    [reporter] (candidate ["name"]). *)
Lemma detectColumns_maps_two_fields_to_one_header :
  ExcelParser.detectColumns toLowerCase_basic [VString (lit "date name")] !! lit "workDate"
  = Some (lit "date name")
  ∧ ExcelParser.detectColumns toLowerCase_basic [VString (lit "date name")] !! lit "reporter"
    = Some (lit "date name").
Proof. by vm_compute. Qed.

(** ** The undefined-code check (pages/Import.tsx) *)

Section UndefinedCodes.
Import ExcelParser ImportPage Spec Examples.

Lemma total_count_add_occurrence item stats :
  total_count (add_occurrence item stats) = S (total_count stats).
Proof.
  induction stats as [|s rest IH]; simpl; [done|].
  case_bool_decide; simpl; [done|]. rewrite IH. lia.
Qed.

Lemma total_count_fold taxonomy records : forall stats,
  total_count
    (fold_left (fun stats item =>
                  if decide (has_taxonomy_entry taxonomy item) then stats
                  else add_occurrence item stats) records stats)
  = (total_count stats
     + length (filter (fun item => ¬ has_taxonomy_entry taxonomy item) records))%nat.
Proof.
  induction records as [|item records IH]; intros stats; simpl; [lia|].
  rewrite IH, filter_cons.
  destruct (decide (has_taxonomy_entry taxonomy item)) as [Hin|Hin].
  - by rewrite decide_False by tauto.
  - rewrite decide_True by done. rewrite total_count_add_occurrence. simpl. lia.
Qed.

Lemma undefinedCodeItems_filter unique parsedWorkCodes :
  undefinedCodeItems unique parsedWorkCodes
  = filter (fun item => ¬ has_taxonomy_entry parsedWorkCodes item)
           (filter (fun item => subworkCode item ≠ []) unique).
Proof.
  unfold undefinedCodeItems, has_taxonomy_entry.
  rewrite list_filter_filter. apply list_filter_iff.
  intros item. rewrite elem_of_list_to_set. tauto.
Qed.

(** C5 (as amended): for every parsed batch and taxonomy the import result
    is produced, and its [undefinedCodes] is one number: how many unique
    records bear a non-empty [subworkCode] that has no taxonomy entry, each
    occurrence counted. That number is the sum of the per-code counts of the
    statistics the specification describes (over the records with a
    non-empty code); the entries themselves, with their code and
    [firstSeen], are computed nowhere. *)
Theorem undefinedCodes_counts_occurrences (encoder_available : bool) (now : Z)
    (parsedWorkItems : list WorkItem) (parsedWorkCodes : list WorkCode) :
  let result := fst (handleFileUpload encoder_available now parsedWorkItems parsedWorkCodes) in
  let unique := snd (handleFileUpload encoder_available now parsedWorkItems parsedWorkCodes) in
  undefinedCodes result
  = length (filter (fun item => subworkCode item ≠ []
                                ∧ subworkCode item ∉ map wc_subworkCode parsedWorkCodes)
                   unique)
  ∧ undefinedCodes result
    = total_count (undefinedCodeStats (filter (fun item => subworkCode item ≠ []) unique)
                                      parsedWorkCodes)
  ∧ (inserted result + ir_duplicates result = length parsedWorkItems)%nat
  ∧ errors result = 0%nat.
Proof.
  cbv zeta. unfold handleFileUpload. simpl.
  split_and!; [| | |done].
  - rewrite undefinedCodeItems_filter, list_filter_filter.
    f_equal. apply list_filter_iff. intros item.
    unfold has_taxonomy_entry. tauto.
  - unfold undefinedCodeStats. rewrite total_count_fold. simpl.
    by rewrite undefinedCodeItems_filter.
  - match goal with |- context [checkDuplicates ?l] =>
      destruct (checkDuplicates_partition l) as (_ & _ & _ & Hlen & _) end.
    simpl in Hlen. by rewrite Hlen, length_map.
Qed.

(** C5 (as stated) fails: two unique records that share the undefined code
    ["999"] make the result's [undefinedCodes] 2, where the statistics of the
    claim hold one entry (of count 2, first seen on the earlier date); and a
    record whose code is empty, which no taxonomy entry matches either, is
    not counted at all. *)
Lemma undefinedCodes_is_not_grouped_by_code :
  let batch := [with_codes work_2 (lit "S6290") (lit "999");
                with_codes work_1 (lit "S6290") (lit "999")] in
  let blank := [with_codes work_1 (lit "S6290") []] in
  undefinedCodes (fst (handleFileUpload true 0 batch [code_211])) = 2%nat
  ∧ undefinedCodeStats (snd (handleFileUpload true 0 batch [code_211])) [code_211]
    = [{| uc_subworkCode := lit "999"; count := 2; firstSeen := lit "2025-01-15" |}]
  ∧ undefinedCodes (fst (handleFileUpload true 0 blank [code_211])) = 0%nat
  ∧ undefinedCodeStats (snd (handleFileUpload true 0 blank [code_211])) [code_211]
    = [{| uc_subworkCode := []; count := 1; firstSeen := lit "2025-01-15" |}].
Proof. by vm_compute. Qed.

End UndefinedCodes.

(** ** Decimal digits: printing and reading back *)

Section Digits.

Lemma dec_digits_aux_S fuel n acc :
  dec_digits_aux (S fuel) n acc
  = if n <? 10 then digit_char (n mod 10) :: acc
    else dec_digits_aux fuel (n / 10) (digit_char (n mod 10) :: acc).
Proof. reflexivity. Qed.

Lemma dec_digits_aux_acc fuel : forall n acc,
  dec_digits_aux fuel n acc = dec_digits_aux fuel n [] ++ acc.
Proof.
  induction fuel as [|fuel IH]; intros n acc; [done|].
  rewrite !dec_digits_aux_S. destruct (n <? 10); [done|].
  rewrite (IH _ (_ :: acc)), (IH _ [_]). by rewrite <- app_assoc.
Qed.

Lemma pow10_S_lt n f : 10 <= n → n < 10 ^ Z.of_nat (S f) → 0 <= n / 10 < 10 ^ Z.of_nat f.
Proof.
  intros Hn Hlt. split; [apply Z.div_pos; lia|].
  apply Z.div_lt_upper_bound; [lia|].
  replace (Z.of_nat (S f)) with (1 + Z.of_nat f) in Hlt by lia.
  rewrite Z.pow_add_r in Hlt by lia. lia.
Qed.

Lemma dec_digits_aux_fuel f1 : forall f2 n,
  (0 <= n < 10 ^ Z.of_nat (S f1)) → n < 10 ^ Z.of_nat (S f2) →
  dec_digits_aux (S f1) n [] = dec_digits_aux (S f2) n [].
Proof.
  induction f1 as [|f1 IH]; intros f2 n H1 H2.
  - rewrite (dec_digits_aux_S 0), (dec_digits_aux_S f2).
    assert ((n <? 10) = true) as -> by (apply Z.ltb_lt; simpl in H1; lia). done.
  - rewrite (dec_digits_aux_S (S f1)), (dec_digits_aux_S f2).
    destruct (Z.ltb_spec n 10) as [|Hn]; [done|].
    destruct f2 as [|f2].
    { simpl in H2. lia. }
    rewrite (dec_digits_aux_acc (S f1)), (dec_digits_aux_acc (S f2)).
    f_equal. apply IH; [apply pow10_S_lt; lia|].
    refine (proj2 (pow10_S_lt n _ _ _)); lia.
Qed.

Lemma dec_digits_fuel_enough n :
  0 <= n → n < 10 ^ Z.of_nat (S (Z.to_nat (Z.log2 n))).
Proof.
  intros Hn. destruct (Z.eq_dec n 0) as [->|Hne]; [by vm_compute|].
  assert (0 <= Z.log2 n) by apply Z.log2_nonneg.
  replace (Z.of_nat (S (Z.to_nat (Z.log2 n)))) with (Z.succ (Z.log2 n)) by lia.
  eapply Z.lt_le_trans; [apply Z.log2_spec; lia|].
  apply Z.pow_le_mono_l. lia.
Qed.

Lemma dec_digits_small n : (0 <= n < 10) → dec_digits n = [digit_char n].
Proof.
  intros Hn. unfold dec_digits. rewrite dec_digits_aux_S.
  assert ((n <? 10) = true) as -> by (apply Z.ltb_lt; lia).
  by rewrite Z.mod_small.
Qed.

Lemma dec_digits_step n :
  10 <= n → dec_digits n = dec_digits (n / 10) ++ [digit_char (n mod 10)].
Proof.
  intros Hn. unfold dec_digits at 1. rewrite dec_digits_aux_S.
  assert ((n <? 10) = false) as -> by (apply Z.ltb_ge; lia).
  rewrite dec_digits_aux_acc. f_equal.
  assert (0 < Z.log2 n) by (apply Z.log2_pos; lia).
  pose proof (dec_digits_fuel_enough n ltac:(lia)) as Hlt.
  destruct (Z.to_nat (Z.log2 n)) as [|f] eqn:Hf; [lia|].
  unfold dec_digits. apply dec_digits_aux_fuel.
  - by apply pow10_S_lt.
  - apply dec_digits_fuel_enough, Z.div_pos; lia.
Qed.

(** An induction that follows the digits of a natural number. *)
Lemma digits_ind (P : Z -> Prop) :
  (forall n, (0 <= n < 10) → P n) →
  (forall n, 10 <= n → P (n / 10) → P n) →
  forall n, 0 <= n → P n.
Proof.
  intros Hsmall Hstep. apply (Zlt_0_ind P). intros n IH Hn.
  destruct (Z_lt_ge_dec n 10); [apply Hsmall; lia|].
  apply Hstep; [lia|]. apply IH. split; [apply Z.div_pos; lia|].
  apply Z.div_lt; lia.
Qed.

Lemma dec_digits_isDigit n : 0 <= n → forallb isDigit (dec_digits n) = true.
Proof.
  revert n. apply (digits_ind (fun n => forallb isDigit (dec_digits n) = true)).
  - intros n Hn. rewrite dec_digits_small by done. simpl.
    unfold isDigit, digit_char. rewrite andb_true_r. apply andb_true_iff. lia.
  - intros n Hn IH. rewrite dec_digits_step, forallb_app, IH by done. simpl.
    pose proof (Z.mod_pos_bound n 10 ltac:(lia)).
    unfold isDigit, digit_char. rewrite andb_true_r. apply andb_true_iff. lia.
Qed.

Lemma digits_value_snoc ds c : digits_value (ds ++ [c]) = digits_value ds * 10 + (c - 48).
Proof. unfold digits_value. by rewrite fold_left_app. Qed.

Lemma digits_value_dec_digits n : 0 <= n → digits_value (dec_digits n) = n.
Proof.
  revert n. apply (digits_ind (fun n => digits_value (dec_digits n) = n)).
  - intros n Hn. rewrite dec_digits_small by done. unfold digits_value, digit_char.
    simpl. lia.
  - intros n Hn IH. rewrite dec_digits_step, digits_value_snoc, IH by done.
    unfold digit_char. pose proof (Z.div_mod n 10 ltac:(lia)). lia.
Qed.


Lemma span_digits_app ds rest :
  forallb isDigit ds = true →
  match rest with [] => True | c :: _ => isDigit c = false end →
  span_digits (ds ++ rest) = (ds, rest).
Proof.
  intros Hds Hrest. induction ds as [|d ds IH]; simpl.
  - destruct rest as [|c r]; [done|]. simpl. by rewrite Hrest.
  - simpl in Hds. apply andb_true_iff in Hds as [-> Hds]. by rewrite IH.
Qed.

End Digits.

(** ** Rounding to one decimal place: [Number(x.toFixed(1))] *)

Section Rounding.
Import Spec.

Lemma isDigit_bounds c : isDigit c = true ↔ 48 <= c <= 57.
Proof. unfold isDigit. rewrite andb_true_iff, !Z.leb_le. done. Qed.

Lemma isDigit_digit_char d : (0 <= d < 10) → isDigit (digit_char d) = true.
Proof. intros. apply isDigit_bounds. unfold digit_char. lia. Qed.

Lemma isDigit_not_space c : isDigit c = true → isWhiteSpace c = false.
Proof.
  intros H%isDigit_bounds. unfold isWhiteSpace.
  repeat (apply orb_false_iff; split); try (apply Z.eqb_neq; lia).
  apply andb_false_iff. left. apply Z.leb_gt. lia.
Qed.

Lemma trimStart_head c r : isWhiteSpace c = false → trimStart (c :: r) = c :: r.
Proof. intros H. simpl. by rewrite H. Qed.









End Rounding.

(** ** Totals (utils/dataAggregation.ts) *)

Section TotalsProofs.
Import DataAggregation Spec Examples.





End TotalsProofs.

(** ** The row hash (utils/excelParser.ts) *)

Section RowHash.
Import ExcelParser Spec Examples.

Lemma strict_eqb_toString (x y : number) :
  strict_eqb x y = true → Num.toString x = Num.toString y.
Proof.
  unfold strict_eqb, SFeqb.
  destruct x as [a|a| |a m e], y as [b|b| |b m' e']; cbn [SFcompare]; try discriminate.
  all: try (destruct a; discriminate). all: try (destruct b; discriminate).
  - done.
  - destruct a, b; (discriminate || done).
  - change (PosDef.Pos.compare_cont Eq m m') with (Pos.compare_cont Eq m m').
    rewrite Pos.compare_cont_spec.
    destruct a, b; try discriminate;
      destruct (Z.compare_spec e e') as [->| |]; try discriminate;
      destruct (Pos.compare_spec m m') as [->| |]; try discriminate; done.
Qed.

Lemma same_number_toString (x y : number) :
  same_number x y → Num.toString x = Num.toString y.
Proof. intros [->|H]; [done|by apply strict_eqb_toString]. Qed.

Lemma row_key_significant r1 r2 :
  same_significant_fields r1 r2 → row_key r1 = row_key r2.
Proof.
  intros (Hd & Hc & Hp & Hs & Ha & Hr & Hi & Ho). unfold row_key.
  by rewrite Hd, Hc, Hp, Hs, Ha, Hr, (same_number_toString _ _ Hi),
    (same_number_toString _ _ Ho).
Qed.

(** C1 (as amended): the hash is a function of the significant fields
    (workDate, contractorName, projectCode, subworkCode, subareaCode,
    reporter, inHours, outHours) alone: two records that agree on all of them
    get the same hash, on either path, whatever their id, createdAt,
    headcount, employmentCode and other fields; so two records whose hashes
    differ differ in a significant field. *)
Theorem generateRowHash_significant_fields (encoder_available : bool) (r1 r2 : WorkItem) :
  same_significant_fields r1 r2 →
  generateRowHash encoder_available r1 = generateRowHash encoder_available r2.
Proof. intros H. unfold generateRowHash. by rewrite (row_key_significant r1 r2 H). Qed.

Lemma generateRowHash_significant_fields_witness :
  same_significant_fields work_1 work_1_again
  ∧ id work_1 ≠ id work_1_again ∧ createdAt work_1 ≠ createdAt work_1_again
  ∧ headcount work_1 ≠ headcount work_1_again
  ∧ employmentCode work_1 ≠ employmentCode work_1_again
  ∧ generateRowHash true work_1 = generateRowHash true work_1_again
  ∧ generateRowHash false work_1 = generateRowHash false work_1_again.
Proof.
  assert (same_significant_fields work_1 work_1_again) as H.
  { unfold same_significant_fields, same_number. simpl. tauto. }
  split_and!; [exact H|by vm_compute..| |].
  - exact (generateRowHash_significant_fields true _ _ H).
  - exact (generateRowHash_significant_fields false _ _ H).
Defined.

(** C1 (as stated) fails: two records that differ in their reporter alone,
    Matsuhashi and Itabashi, get the same hash. The UTF-8 bytes of the two
    names differ in the last six bits of one byte triple, which base64 writes
    as '+' for the one and '/' for the other, and both characters are
    stripped. On the fallback path the work dates ["Aa"] and ["BB"] collide. *)
Lemma generateRowHash_collision :
  let r1 := with_reporter work_1 (lit "松橋太郎") in
  let r2 := with_reporter work_1 (lit "板橋太郎") in
  reporter r1 ≠ reporter r2
  ∧ generateRowHash true r1 = generateRowHash true r2
  ∧ workDate (with_workDate work_1 (lit "Aa")) ≠ workDate (with_workDate work_1 (lit "BB"))
  ∧ generateRowHash false (with_workDate work_1 (lit "Aa"))
    = generateRowHash false (with_workDate work_1 (lit "BB")).
Proof. by vm_compute. Qed.

(** Each significant field does bear on the hash. *)
Lemma generateRowHash_depends_on_each_field :
  let h := generateRowHash true in
  h work_1 ≠ h (with_workDate work_1 (lit "2025-01-16"))
  ∧ h work_1 ≠ h (with_reporter work_1 (lit "佐藤花子"))
  ∧ h work_1 ≠ h (with_codes work_1 (lit "S6291") (lit "211"))
  ∧ h work_1 ≠ h (with_codes work_1 (lit "S6290") (lit "212"))
  ∧ h work_1 ≠ h (with_hours work_1 (of_decimal false 75 (-1)) (outHours work_1)
                                (totalHours work_1))
  ∧ h work_1 ≠ h (with_hours work_1 (inHours work_1) (of_Z 2) (totalHours work_1))
  ∧ h work_1 = h (with_hours work_1 (inHours work_1) (outHours work_1) (of_Z 0)).
Proof. by vm_compute. Qed.

End RowHash.

(** ** By-category aggregation (utils/dataAggregation.ts) *)

Section Aggregation.
Import DataAggregation Spec Examples.

(** C4: the groups of [aggregateByWorkType] are keyed by the string
    [projectCode_subworkCode], not by the pair: the records (A_B, C) and
    (A, B_C) fall into one group, which takes the codes of the first, so that
    both are reported under the category of sub-work code C; grouped by the
    pair they belong to two categories. *)
Theorem aggregateByWorkType_merges_distinct_pairs :
  (projectCode work_A_B__C, subworkCode work_A_B__C)
    ≠ (projectCode work_A__B_C, subworkCode work_A__B_C)
  ∧ group_key work_A_B__C = group_key work_A__B_C
  ∧ aggregateByWorkType [work_A_B__C; work_A__B_C] [code_C; code_B_C]
    = [{| name := lit "組立"; 規内 := of_decimal false 155 (-1); 規外 := of_Z 2;
          計 := of_decimal false 175 (-1) |}]
  ∧ aggregate_by_category [work_A_B__C; work_A__B_C] [code_C; code_B_C]
    = [{| name := lit "組立"; 規内 := of_Z 8; 規外 := of_decimal false 15 (-1);
          計 := of_decimal false 95 (-1) |};
       {| name := lit "配管"; 規内 := of_decimal false 75 (-1);
          規外 := of_decimal false 5 (-1); 計 := of_Z 8 |}].
Proof. by vm_compute. Qed.

Lemma group_key_injective (p1 s1 p2 s2 : jsstring) :
  95 ∉ p1 → 95 ∉ p2 → p1 ++ [95] ++ s1 = p2 ++ [95] ++ s2 → p1 = p2 ∧ s1 = s2.
Proof.
  revert p2. induction p1 as [|c p1 IH]; intros [|c2 p2] H1 H2; simpl; intros E.
  - by injection E.
  - injection E as <- _. exfalso. apply H2. left.
  - injection E as -> _. exfalso. apply H1. left.
  - injection E as -> E. apply not_elem_of_cons in H1 as [_ H1].
    apply not_elem_of_cons in H2 as [_ H2].
    destruct (IH p2 H1 H2 E) as [-> ->]. done.
Qed.

Lemma group_key_not_inherited (p s : jsstring) :
  95 ∉ p → p ≠ [] → p ++ [95] ++ s ∉ inherited_keys.
Proof.
  intros Hp Hne Hin.
  assert (forallb (fun k => bool_decide (95 ∉ k) || bool_decide (head k = Some 95))
                  inherited_keys = true) as Hall by by vm_compute.
  rewrite forallb_forall in Hall.
  specialize (Hall _ (proj1 (list_elem_of_In _ _) Hin)).
  apply orb_true_iff in Hall as [H%bool_decide_eq_true|H%bool_decide_eq_true].
  - apply H. rewrite elem_of_app. right. left.
  - destruct p as [|c p]; [done|]. simpl in H. injection H as ->. apply Hp. left.
Qed.

Lemma update_entry_map {K1 K2 V : Type} `{EqDecision K1} `{EqDecision K2}
    (f : K1 -> K2) (key : K1) (init : V) (g : V -> V) (m : list (K1 * V)) :
  (forall k, k ∈ map fst m → f k = f key → k = key) →
  update_entry (f key) init g (map (fun e => (f (fst e), snd e)) m)
  = map (fun e => (f (fst e), snd e)) (update_entry key init g m).
Proof.
  induction m as [|[k v] m IH]; intros Hinj; simpl; [done|].
  destruct (decide (k = key)) as [->|Hne].
  - by rewrite !bool_decide_eq_true_2.
  - rewrite (bool_decide_eq_false_2 (k = key)) by done.
    rewrite bool_decide_eq_false_2.
    + simpl. f_equal. apply IH. intros k' Hk'. apply Hinj. simpl. by right.
    + intros E. apply Hne, Hinj; [simpl; left|done].
Qed.

Lemma update_entry_keys {K V : Type} `{EqDecision K} (key : K) (init : V) (g : V -> V)
    (m : list (K * V)) (k : K) :
  k ∈ map fst (update_entry key init g m) → k = key ∨ k ∈ map fst m.
Proof.
  induction m as [|[k' v] m IH]; simpl.
  - intros ?%list_elem_of_singleton. by left.
  - case_bool_decide; simpl; [by right|].
    rewrite !elem_of_cons. intros [->|Hk]; [right; by left|].
    destruct (IH Hk); [by left|right; by right].
Qed.

Lemma grouped_by_pair_spec (workItems : list WorkItem) :
  Forall plain_project_code workItems →
  grouped workItems = map (fun e => (pair_key (fst e), snd e)) (grouped_by_pair workItems)
  ∧ (forall k, k ∈ map fst (grouped_by_pair workItems) → 95 ∉ fst k).
Proof.
  unfold grouped, grouped_by_pair.
  induction workItems as [|item items IH] using rev_ind; intros Hall.
  - split; [done|]. intros k Hk. by apply elem_of_nil in Hk.
  - apply Forall_app in Hall as [Hall Hitem]. apply Forall_inv in Hitem.
    destruct Hitem as [Hp Hne]. destruct (IH Hall) as [IH1 IH2]. clear IH.
    rewrite !fold_left_app. simpl. split.
    + unfold group_step at 1. rewrite bool_decide_eq_false_2
        by by apply group_key_not_inherited.
      rewrite IH1.
      apply (update_entry_map pair_key (projectCode item, subworkCode item)).
      intros [p s] Hk E. apply IH2 in Hk. simpl in Hk.
      unfold pair_key in E. simpl in E.
      by destruct (group_key_injective _ _ _ _ Hk Hp E) as [-> ->].
    + intros k Hk. apply update_entry_keys in Hk as [->|Hk]; [done|by apply IH2].
Qed.

(** Where every project code is non-empty and free of underscores, keying
    the groups by the string [projectCode_subworkCode] is keying them by the
    pair ([projectCode], [subworkCode]). *)
Theorem aggregateByWorkType_groups_by_pair (workItems : list WorkItem)
    (workCodes : list WorkCode) :
  Forall plain_project_code workItems →
  aggregateByWorkType workItems workCodes = aggregate_by_category workItems workCodes.
Proof.
  intros Hall. unfold aggregateByWorkType, aggregate_by_category.
  destruct workItems as [|item items]; [done|].
  destruct (grouped_by_pair_spec _ Hall) as [-> _].
  by rewrite map_map.
Qed.

Lemma aggregateByWorkType_groups_by_pair_witness :
  Forall plain_project_code [work_1; work_2; work_1]
  ∧ aggregateByWorkType [work_1; work_2; work_1] [code_211]
    = aggregate_by_category [work_1; work_2; work_1] [code_211].
Proof.
  assert (Forall plain_project_code [work_1; work_2; work_1]) as H.
  { repeat constructor; try (apply (bool_decide_unpack _); by vm_compute); done. }
  split; [exact H|]. exact (aggregateByWorkType_groups_by_pair _ _ H).
Defined.

Lemma workTypeName_of_item (workCodes : list WorkCode) (r : WorkItem) g1 g2 g3 :
  workTypeName workCodes
    (add_item r {| group_projectCode := projectCode r;
                   group_subworkCode := subworkCode r;
                   group_規内 := g1; group_規外 := g2; group_計 := g3 |})
  = resolved_name workCodes r.
Proof. reflexivity. Qed.

(** The example of the specification: two records with regular hours 8 and
    7.5 and overtime hours 1.5 and 0.5, each with the sum of the two as its
    total, that resolve to one category name make one row of 15.5, 2 and
    17.5 hours, whether or not they share a group, provided that the group
    key of neither is the name of a property that an empty object inherits
    (such as [__proto__], the key of an empty project code and the sub-work
    code [_proto__]): a record with such a key opens no group. *)
Theorem aggregateByWorkType_two_records (r1 r2 : WorkItem) (workCodes : list WorkCode) :
  inHours r1 = of_Z 8 → outHours r1 = of_decimal false 15 (-1) →
  inHours r2 = of_decimal false 75 (-1) → outHours r2 = of_decimal false 5 (-1) →
  totalHours r1 = add (inHours r1) (outHours r1) →
  totalHours r2 = add (inHours r2) (outHours r2) →
  group_key r1 ∉ inherited_keys → group_key r2 ∉ inherited_keys →
  resolved_name workCodes r1 = resolved_name workCodes r2 →
  aggregateByWorkType [r1; r2] workCodes
  = [{| name := resolved_name workCodes r1; 規内 := of_decimal false 155 (-1);
        規外 := of_Z 2; 計 := of_decimal false 175 (-1) |}].
Proof.
  intros Hi1 Ho1 Hi2 Ho2 Ht1 Ht2 Hk1 Hk2 Hname.
  unfold aggregateByWorkType, grouped. cbn [fold_left].
  unfold group_step.
  rewrite (bool_decide_eq_false_2 _ Hk1), (bool_decide_eq_false_2 _ Hk2).
  cbn [update_entry].
  destruct (decide (group_key r1 = group_key r2)) as [E|E].
  - rewrite (bool_decide_eq_true_2 _ E). cbn [map snd fold_left].
    unfold merge_step, add_item. cbn [update_entry map snd fst].
    unfold add_group. cbn.
    rewrite Ht1, Ht2, Hi1, Ho1, Hi2, Ho2. unfold resolved_name. by vm_compute.
  - rewrite (bool_decide_eq_false_2 _ E). cbn [map snd fold_left update_entry].
    unfold merge_step. rewrite !workTypeName_of_item. cbn [update_entry].
    rewrite <- Hname.
    rewrite bool_decide_eq_true_2 by done.
    cbn [map snd]. unfold add_group, add_item. cbn.
    rewrite Ht1, Ht2, Hi1, Ho1, Hi2, Ho2. by vm_compute.
Qed.

Lemma aggregateByWorkType_two_records_witness :
  resolved_name [code_211; code_212] work_1 = resolved_name [code_211; code_212] work_2
  ∧ aggregateByWorkType [work_1; work_2] [code_211; code_212]
    = [{| name := resolved_name [code_211; code_212] work_1;
          規内 := of_decimal false 155 (-1); 規外 := of_Z 2;
          計 := of_decimal false 175 (-1) |}].
Proof.
  assert (resolved_name [code_211; code_212] work_1
          = resolved_name [code_211; code_212] work_2) as Hname by by vm_compute.
  split; [exact Hname|].
  apply (aggregateByWorkType_two_records work_1 work_2 [code_211; code_212]);
    [by vm_compute..| | |exact Hname];
    apply (bool_decide_unpack _); by vm_compute.
Defined.

End Aggregation.

(** ** Dates (utils/excelParser.ts) *)

Section Dates.
Import ExcelParser Spec Examples.

Lemma DayFromYear_succ y : DayFromYear (y + 1) = DayFromYear y + DaysInYear y.
Proof.
  unfold DayFromYear, DaysInYear, InLeapYear.
  destruct (Z.eqb_spec (y mod 4) 0), (Z.eqb_spec (y mod 100) 0),
    (Z.eqb_spec (y mod 400) 0); simpl; Z.div_mod_to_equations; lia.
Qed.

Lemma DaysInYear_bounds y : 365 <= DaysInYear y <= 366.
Proof. unfold DaysInYear. destruct (InLeapYear y); lia. Qed.

Lemma YearFromDay_estimate y dw :
  (0 <= dw < 366) → y - 1 <= 1970 + (DayFromYear y + dw) * 400 / 146097 <= y + 1.
Proof. intros Hdw. unfold DayFromYear. Z.div_mod_to_equations. lia. Qed.

Lemma YearFromDay_spec y dw : (0 <= dw < DaysInYear y) → YearFromDay (DayFromYear y + dw) = y.
Proof.
  intros Hdw. pose proof (DaysInYear_bounds y).
  pose proof (YearFromDay_estimate y dw ltac:(lia)) as Hy0.
  pose proof (DayFromYear_succ y) as Hs.
  pose proof (DayFromYear_succ (y + 1)) as Hs2. pose proof (DaysInYear_bounds (y + 1)).
  pose proof (DayFromYear_succ (y - 1)) as Hp. pose proof (DaysInYear_bounds (y - 1)).
  replace (y - 1 + 1) with y in Hp by lia.
  unfold YearFromDay.
  set (d := DayFromYear y + dw) in *.
  set (y0 := 1970 + d * 400 / 146097) in *.
  assert (y0 = y - 1 ∨ y0 = y ∨ y0 = y + 1) as [E|[E|E]] by lia; rewrite E.
  - replace (y - 1 + 1) with y by lia.
    destruct (Z.ltb_spec d (DayFromYear (y - 1))); [lia|].
    destruct (Z.leb_spec (DayFromYear y) d); lia.
  - destruct (Z.ltb_spec d (DayFromYear y)); [lia|].
    destruct (Z.leb_spec (DayFromYear (y + 1)) d); lia.
  - destruct (Z.ltb_spec d (DayFromYear (y + 1))); lia.
Qed.

Lemma DaysBeforeMonth_12 leap : DaysBeforeMonth leap 12 = if leap then 366 else 365.
Proof. by destruct leap. Qed.

(** The calendar fields of the day that [MakeDay] gives a date. *)
Lemma MakeDay_fields y m d :
  (0 <= m <= 11) → (1 <= d <= DaysInMonth y m) →
  let t := MakeDay y m d * msPerDay in
  YearFromTime t = y ∧ MonthFromTime t = m ∧ DateFromTime t = d ∧ TimeWithinDay t = 0.
Proof.
  intros Hm Hd t.
  assert (Day t = MakeDay y m d) as HDay by (unfold t, Day; by rewrite Z.div_mul).
  assert (TimeWithinDay t = 0) as HT by (unfold t, TimeWithinDay; by rewrite Z.mod_mul).
  unfold DaysInMonth in Hd.
  set (leap := InLeapYear y) in *.
  set (dw := DaysBeforeMonth leap m + d - 1).
  assert (0 <= dw < DaysInYear y ∧ MonthFromDayWithinYear leap dw = m
          ∧ dw - DaysBeforeMonth leap m + 1 = d) as (Hdw & Hmonth & Hdate).
  { unfold DaysInYear. fold leap. unfold dw.
    assert (m = 0 ∨ m = 1 ∨ m = 2 ∨ m = 3 ∨ m = 4 ∨ m = 5 ∨ m = 6 ∨ m = 7 ∨ m = 8
            ∨ m = 9 ∨ m = 10 ∨ m = 11) as Hcases by lia.
    destruct leap;
      repeat (destruct Hcases as [->|Hcases]); try subst m;
      repeat match goal with
             | H : context [DaysBeforeMonth ?l ?k] |- _ =>
               let c := eval vm_compute in (DaysBeforeMonth l k) in
               change (DaysBeforeMonth l k) with c in H
             end;
      unfold MonthFromDayWithinYear;
      repeat match goal with
             | |- context [DaysBeforeMonth ?l ?k] =>
               let c := eval vm_compute in (DaysBeforeMonth l k) in
               change (DaysBeforeMonth l k) with c
             end;
      (split_and!; [lia|lia| |lia]);
      repeat match goal with
             | |- context [?a <? ?c] => destruct (Z.ltb_spec a c); try lia
             end;
      reflexivity. }
  assert (MakeDay y m d = DayFromYear y + dw) as HMake by (unfold MakeDay, dw; fold leap; lia).
  assert (YearFromTime t = y) as HY.
  { unfold YearFromTime. rewrite HDay, HMake. by apply YearFromDay_spec. }
  assert (DayWithinYear t = dw) as HDW.
  { unfold DayWithinYear. rewrite HY, HDay, HMake. lia. }
  split_and!; [done| | |done].
  - unfold MonthFromTime. rewrite HY, HDW. done.
  - unfold DateFromTime, MonthFromTime. rewrite HY, HDW. fold leap. rewrite Hmonth. done.
Qed.

Lemma isDigit_In c : isDigit c = true → In c digit_chars.
Proof.
  unfold isDigit. rewrite andb_true_iff, !Z.leb_le. intros H.
  unfold digit_chars. simpl. lia.
Qed.

Lemma pad_4_digits a b c d :
  isDigit a = true → isDigit b = true → isDigit c = true → isDigit d = true →
  pad 4 (digits_value [a; b; c; d]) = [a; b; c; d]
  ∧ (0 <= digits_value [a; b; c; d] <= 9999).
Proof.
  intros Ha%isDigit_In Hb%isDigit_In Hc%isDigit_In Hd%isDigit_In.
  assert (forallb (fun a => forallb (fun b => forallb (fun c => forallb (fun d =>
            bool_decide (pad 4 (digits_value [a; b; c; d]) = [a; b; c; d])
            && (0 <=? digits_value [a; b; c; d]) && (digits_value [a; b; c; d] <=? 9999))
            digit_chars) digit_chars) digit_chars) digit_chars = true) as Hall
    by by vm_compute.
  rewrite forallb_forall in Hall. specialize (Hall a Ha).
  rewrite forallb_forall in Hall. specialize (Hall b Hb).
  rewrite forallb_forall in Hall. specialize (Hall c Hc).
  rewrite forallb_forall in Hall. specialize (Hall d Hd).
  apply andb_true_iff in Hall as [[H1%bool_decide_eq_true H2%Z.leb_le]%andb_true_iff H3%Z.leb_le].
  done.
Qed.

Lemma pad_2_digits a b :
  isDigit a = true → isDigit b = true → pad 2 (digits_value [a; b]) = [a; b].
Proof.
  intros Ha%isDigit_In Hb%isDigit_In.
  assert (forallb (fun a => forallb (fun b =>
            bool_decide (pad 2 (digits_value [a; b]) = [a; b]))
            digit_chars) digit_chars = true) as Hall by by vm_compute.
  rewrite forallb_forall in Hall. specialize (Hall a Ha).
  rewrite forallb_forall in Hall. specialize (Hall b Hb).
  by apply bool_decide_eq_true in Hall.
Qed.

Lemma before_app sep pre rest :
  Forall (fun c => c ≠ sep) pre → before sep (pre ++ sep :: rest) = pre.
Proof.
  induction 1 as [|c pre Hc _ IH]; simpl.
  - by rewrite Z.eqb_refl.
  - destruct (Z.eqb_spec c sep); [done|]. by rewrite IH.
Qed.

Lemma iso_date_fields_shape s y m d :
  iso_date_fields s = Some (y, m, d) →
  exists y1 y2 y3 y4 m1 m2 d1 d2,
    s = [y1; y2; y3; y4; 45; m1; m2; 45; d1; d2]
    ∧ forallb isDigit [y1; y2; y3; y4; m1; m2; d1; d2] = true
    ∧ y = digits_value [y1; y2; y3; y4] ∧ m = digits_value [m1; m2]
    ∧ d = digits_value [d1; d2].
Proof.
  unfold iso_date_fields.
  destruct s as [|y1 [|y2 [|y3 [|y4 [|h1 [|m1 [|m2 [|h2 [|d1 [|d2 [|? ?]]]]]]]]]]];
    try discriminate.
  destruct (forallb isDigit _) eqn:Hd; [|discriminate].
  destruct (Z.eqb_spec h1 45) as [->|]; [|discriminate].
  destruct (Z.eqb_spec h2 45) as [->|]; [|discriminate].
  intros [= <- <- <-]. eauto 15.
Qed.


Lemma DaysBeforeMonth_bounds leap m : 0 <= DaysBeforeMonth leap m <= 366.
Proof.
  unfold DaysBeforeMonth.
  destruct leap;
    repeat match goal with |- context [if ?b then _ else _] => destruct b end; lia.
Qed.

Lemma MakeDay_bound y m d :
  (0 <= y <= 9999) → (1 <= d <= 31) →
  Z.abs (MakeDay y m d * msPerDay) <= 8640000000000000.
Proof.
  intros Hy Hd. pose proof (DaysBeforeMonth_bounds (InLeapYear y) m).
  unfold MakeDay, msPerDay, DayFromYear.
  set (b := DaysBeforeMonth (InLeapYear y) m) in *. clearbody b.
  Z.div_mod_to_equations. lia.
Qed.

(** C8 (as amended): [parseDate] returns unchanged every string of the form
    [YYYY-MM-DD] that names a day of the calendar (a month from 01 to 12 and
    a day from 01 to the length of that month in that year), whatever the
    host's date parser. *)
Theorem parseDate_valid_iso_date (hostDateParse : jsstring -> time_value) (s : jsstring) :
  valid_iso_date s = true →
  parseDate hostDateParse (VString s) = Normal (Some s).
Proof.
  unfold valid_iso_date. destruct (iso_date_fields s) as [[[y m] d]|] eqn:Hf; [|done].
  intros Hv.
  apply andb_true_iff in Hv as [[[Hm1%Z.leb_le Hm2%Z.leb_le]%andb_true_iff
    Hd1%Z.leb_le]%andb_true_iff Hd2%Z.leb_le].
  destruct (iso_date_fields_shape _ _ _ _ Hf)
    as (y1 & y2 & y3 & y4 & m1 & m2 & d1 & d2 & -> & Hdig & Hy & Hm & Hd).
  cbn [forallb] in Hdig.
  apply andb_true_iff in Hdig as [Hy1 Hdig]. apply andb_true_iff in Hdig as [Hy2 Hdig].
  apply andb_true_iff in Hdig as [Hy3 Hdig]. apply andb_true_iff in Hdig as [Hy4 Hdig].
  apply andb_true_iff in Hdig as [Hm1' Hdig]. apply andb_true_iff in Hdig as [Hm2' Hdig].
  apply andb_true_iff in Hdig as [Hd1' Hdig]. apply andb_true_iff in Hdig as [Hd2' _].
  pose proof isDigit_not_space as Hws.
  unfold parseDate. cbn [ToBoolean negb ToString].
  assert (trim [y1; y2; y3; y4; 45; m1; m2; 45; d1; d2]
          = [y1; y2; y3; y4; 45; m1; m2; 45; d1; d2]) as ->.
  { unfold trim, trimEnd. cbn [trimStart rev app]. rewrite (Hws y1) by done.
    cbn [rev app trimStart]. rewrite (Hws d2) by done. reflexivity. }
  change (is_8_digits [y1; y2; y3; y4; 45; m1; m2; 45; d1; d2]) with false.
  cbv iota.
  assert (is_serial [y1; y2; y3; y4; 45; m1; m2; 45; d1; d2] = false) as ->.
  { unfold is_serial.
    change [y1; y2; y3; y4; 45; m1; m2; 45; d1; d2]
      with ([y1; y2; y3; y4] ++ [45; m1; m2; 45; d1; d2]).
    rewrite span_digits_app; [done| |done].
    cbn [forallb]. by rewrite Hy1, Hy2, Hy3, Hy4. }
  unfold Date_of_string, Date_parse. rewrite Hf.
  assert (d <= 31) as Hd31.
  { etrans; [exact Hd2|]. unfold DaysInMonth.
    assert (m - 1 = 0 ∨ m - 1 = 1 ∨ m - 1 = 2 ∨ m - 1 = 3 ∨ m - 1 = 4 ∨ m - 1 = 5
            ∨ m - 1 = 6 ∨ m - 1 = 7 ∨ m - 1 = 8 ∨ m - 1 = 9 ∨ m - 1 = 10
            ∨ m - 1 = 11) as Hcases by lia.
    destruct (InLeapYear y);
      repeat (destruct Hcases as [->|Hcases]); try rewrite Hcases; by vm_compute. }
  assert (((1 <=? m) && (m <=? 12) && (1 <=? d) && (d <=? 31)) = true) as ->
    by (repeat (apply andb_true_iff; split); apply Z.leb_le; lia).
  assert ((d <=? DaysInMonth y (m - 1)) = true) as -> by by apply Z.leb_le.
  destruct (pad_4_digits y1 y2 y3 y4) as [Hpy Hyr]; try done. rewrite <- Hy in Hpy, Hyr.
  pose proof (pad_2_digits m1 m2 ltac:(done) ltac:(done)) as Hpm. rewrite <- Hm in Hpm.
  pose proof (pad_2_digits d1 d2 ltac:(done) ltac:(done)) as Hpd. rewrite <- Hd in Hpd.
  destruct (MakeDay_fields y (m - 1) d ltac:(lia) ltac:(lia)) as (HY & HM & HD & HT).
  set (t := MakeDay y (m - 1) d * msPerDay) in *.
  assert (TimeClipZ t = Some t) as ->.
  { unfold TimeClipZ.
    assert (Z.abs t <= 8640000000000000) as ->%Z.leb_le; [|done].
    apply MakeDay_bound; lia. }
  unfold toISOString. rewrite HY, HM, HD.
  assert (((0 <=? y) && (y <=? 9999)) = true) as ->
    by (apply andb_true_iff; split; apply Z.leb_le; lia).
  replace (m - 1 + 1) with m by lia. rewrite Hpy, Hpm, Hpd.
  do 2 f_equal.
  apply (before_app 84 [y1; y2; y3; y4; 45; m1; m2; 45; d1; d2]).
  repeat (apply Forall_cons; split;
          [first [lia | match goal with H : isDigit ?c = true |- ?c ≠ _ =>
                          apply isDigit_bounds in H; lia end]|]).
  apply Forall_nil_2.
Qed.

Lemma parseDate_valid_iso_date_witness :
  valid_iso_date (lit "2025-01-15") = true
  ∧ parseDate strict_host (VString (lit "2025-01-15")) = Normal (Some (lit "2025-01-15")).
Proof.
  split; [reflexivity|].
  apply (parseDate_valid_iso_date strict_host (lit "2025-01-15")). reflexivity.
Defined.

(** C8 (as stated) fails: from the eight digits 20251345 [parseDate] makes
    the string 2025-13-45, of the normalized form, and given that string it
    returns null, the month 13 being none. *)
Lemma parseDate_not_idempotent :
  parseDate strict_host (VString (lit "20251345")) = Normal (Some (lit "2025-13-45"))
  ∧ parseDate strict_host (VString (lit "2025-13-45")) = Normal None.
Proof. by vm_compute. Qed.

(** The same on every host: a month outside 01..12 is not handed to the
    host's parser. *)
Lemma parseDate_not_idempotent_any_host (hostDateParse : jsstring -> time_value) :
  parseDate hostDateParse (VString (lit "20251345")) = Normal (Some (lit "2025-13-45"))
  ∧ parseDate hostDateParse (VString (lit "2025-13-45")) = Normal None.
Proof. by vm_compute. Qed.

End Dates.

(** ** Further properties of the parser and of the import (utils/excelParser.ts,
    pages/Import.tsx) *)

Section Parser.
Import ExcelParser DataContext ImportPage Spec Examples.

(** [parseNumber] is total and never gives NaN: where [parseFloat] reads no
    number in the trimmed text of the cell the result is 0, as it is for
    null, undefined and the empty string. *)
Theorem parseNumber_total (value : value) :
  isNaN (parseNumber value) = false
  ∧ (parseFloat (trim (ToString value)) = NaN → parseNumber value = zero)
  ∧ parseNumber (VString []) = zero ∧ parseNumber VNull = zero
  ∧ parseNumber VUndefined = zero ∧ parseNumber (VString (lit "abc")) = zero
  ∧ parseNumber (VString (lit "8.5")) = of_decimal false 85 (-1).
Proof.
  split_and!; [| |by vm_compute..].
  - unfold parseNumber.
    destruct value as [| | | |[]]; try reflexivity;
      match goal with |- context [parseFloat ?s] => destruct (parseFloat s) end;
      reflexivity.
  - intros H. unfold parseNumber.
    destruct value as [| | | |[]]; try reflexivity; by rewrite H.
Qed.

Section ParseDateOutcomes.
Variable hostDateParse : jsstring -> time_value.

(** What [parseDate] does with a cell: null for a falsy cell and for a text
    that is neither eight digits nor a serial and that [Date.parse] cannot
    read; a RangeError exactly for a serial that lies outside the days a Date
    can hold; a string otherwise. *)
Theorem parseDate_outcomes (value : value) :
  let str := trim (ToString value) in
  let serial_date :=
    TimeClip (mul (mul (sub (parseFloat str) (of_Z 25569)) (of_Z 86400)) (of_Z 1000)) in
  (ToBoolean value = false → parseDate hostDateParse value = Normal None)
  ∧ (ToBoolean value = true → is_8_digits str = false → is_serial str = false →
     Date_of_string hostDateParse str = None →
     parseDate hostDateParse value = Normal None)
  ∧ (forall e, parseDate hostDateParse value = Throw e ↔
       e = RangeError ∧ ToBoolean value = true ∧ is_8_digits str = false
       ∧ is_serial str = true ∧ serial_date = None).
Proof.
  cbv zeta. unfold parseDate. split_and!.
  - by intros ->.
  - by intros -> -> -> ->.
  - intros e. destruct (ToBoolean value); simpl.
    2:{ split; [done|]. by intros (_ & ? & _). }
    destruct (is_8_digits _).
    { split; [done|]. by intros (_ & _ & ? & _). }
    destruct (is_serial _).
    + destruct (TimeClip _) as [t|]; simpl.
      * split; [done|]. by intros (_ & _ & _ & _ & ?).
      * split; [by intros [= <-]|]. by intros (-> & _).
    + destruct (Date_of_string _ _) as [t|]; simpl.
      * split; [done|]. by intros (_ & _ & _ & ? & _).
      * split; [done|]. by intros (_ & _ & _ & ? & _).
Qed.

End ParseDateOutcomes.

Section PipelineInvariant.

(** The store after a run of imports: each file's parsed rows go through
    [handleFileUpload], whose unique items go to [addWorkItems]. *)
Lemma imports_keep_hashes_distinct (encoder_available : bool)
    (files : list (Z * list WorkItem * list WorkCode)) :
  NoDup (map srcHash
    (store_after
       (map (fun '(now, parsedWorkItems, parsedWorkCodes) =>
               snd (handleFileUpload encoder_available now parsedWorkItems parsedWorkCodes))
            files))).
Proof.
  apply store_after_NoDup. apply Forall_map, Forall_forall.
  intros [[now items] codes] _. simpl.
  match goal with |- context [checkDuplicates ?l] =>
    destruct (checkDuplicates_occurrences l) as [-> _] end.
  apply first_occurrences_NoDup.
Qed.

End PipelineInvariant.

Section HeaderExamples.
Variable toLowerCase : jsstring -> jsstring.

Lemma detectColumns_empty : detectColumns toLowerCase [] = ∅.
Proof. reflexivity. Qed.

Lemma detectColumns_no_valid_header :
  detectColumns toLowerCase [VNull; VUndefined; VString []; VNumber (of_Z 3)] = ∅.
Proof. reflexivity. Qed.

End HeaderExamples.

Lemma detectColumns_examples :
  let m := detectColumns toLowerCase_basic
             [VString (lit "日付(YYYYMMDD)"); VString (lit "業者名");
              VString (lit "工事番号(Sxxxx)")] in
  m !! lit "workDate" = Some (lit "日付(YYYYMMDD)")
  ∧ m !! lit "contractorName" = Some (lit "業者名")
  ∧ m !! lit "projectCode" = Some (lit "工事番号(Sxxxx)").
Proof. by vm_compute. Qed.

End Parser.

(** ** How far the row hash tells records apart (utils/excelParser.ts) *)

Section HashInjectivity.
Import ExcelParser Encoding Spec Examples.

(** *** The characters of a printed Number *)

Lemma dec_digits_negative n : n < 0 → dec_digits n = [digit_char (n mod 10)].
Proof.
  intros Hn. unfold dec_digits.
  assert (Z.log2 n = 0) as -> by (apply Z.log2_nonpos; lia).
  change (Z.to_nat 0) with 0%nat. rewrite dec_digits_aux_S.
  assert ((n <? 10) = true) as -> by (apply Z.ltb_lt; lia). done.
Qed.

Lemma dec_digits_all_digits n : forallb isDigit (dec_digits n) = true.
Proof.
  destruct (Z_lt_ge_dec n 0) as [Hn|Hn]; [|apply dec_digits_isDigit; lia].
  rewrite dec_digits_negative by done. simpl.
  rewrite isDigit_digit_char; [done|]. apply Z.mod_pos_bound. lia.
Qed.

Lemma number_char_digit c : isDigit c = true → number_char c = true.
Proof. intros H. unfold number_char. by rewrite H. Qed.

Lemma forallb_number_char_digits ds :
  forallb isDigit ds = true → forallb number_char ds = true.
Proof.
  rewrite !forallb_forall. intros H c Hc. by apply number_char_digit, H.
Qed.

Lemma forallb_zeros n : forallb number_char (zeros n) = true.
Proof.
  unfold zeros. apply forallb_forall. intros c Hc%repeat_spec. by subst.
Qed.

Lemma forallb_take {A} (f : A -> bool) n l : forallb f l = true → forallb f (take n l) = true.
Proof.
  rewrite !forallb_forall. intros H x Hx. apply H.
  apply list_elem_of_In. apply list_elem_of_In in Hx. by apply (subseteq_take n l).
Qed.

Lemma forallb_drop {A} (f : A -> bool) n l : forallb f l = true → forallb f (drop n l) = true.
Proof.
  rewrite !forallb_forall. intros H x Hx. apply H.
  apply list_elem_of_In. apply list_elem_of_In in Hx. by apply (subseteq_drop n l).
Qed.

Lemma format_decimal_chars n k ds :
  forallb isDigit ds = true → forallb number_char (format_decimal n k ds) = true.
Proof.
  intros Hds. pose proof (forallb_number_char_digits ds Hds) as Hnc.
  unfold format_decimal.
  destruct ((k <=? n) && (n <=? 21)).
  { by rewrite forallb_app, Hnc, forallb_zeros. }
  destruct ((0 <? n) && (n <=? 21)).
  { rewrite !forallb_app. rewrite forallb_take, forallb_drop by done. done. }
  destruct ((-6 <? n) && (n <=? 0)).
  { rewrite !forallb_app. by rewrite forallb_zeros, Hnc. }
  assert (forallb number_char
            ((if n - 1 <? 0 then 45 else 43) :: dec_digits (Z.abs (n - 1))) = true) as Hes.
  { cbn [forallb]. rewrite (forallb_number_char_digits _ (dec_digits_all_digits _)).
    by destruct (n - 1 <? 0). }
  cbv zeta. destruct ds as [|d [|d2 rest]]; [done| |].
  - rewrite forallb_app, Hes, andb_true_r.
    cbn [forallb] in Hnc |- *. apply andb_true_iff in Hnc as [-> _]. done.
  - change (d :: 46 :: (d2 :: rest) ++ [101] ++ _)
      with ([d; 46] ++ (d2 :: rest) ++ [101] ++
            ((if n - 1 <? 0 then 45 else 43) :: dec_digits (Z.abs (n - 1)))).
    cbn [forallb] in Hnc. apply andb_true_iff in Hnc as [Hd Hnc].
    rewrite !forallb_app, Hes. cbn [forallb]. by rewrite Hd, Hnc.
Qed.

Lemma toString_chars (x : number) : forallb number_char (Num.toString x) = true.
Proof.
  destruct x as [s|s| |s m e]; [done|by destruct s|done|].
  unfold Num.toString. destruct (exact m e) as [num den].
  destruct (shortest _ num den) as [[n k] d].
  rewrite forallb_app, format_decimal_chars by apply dec_digits_all_digits.
  by destruct s.
Qed.

Lemma toString_no_underscore (x : number) : 95 ∉ Num.toString x.
Proof.
  intros Hin. pose proof (toString_chars x) as H. rewrite forallb_forall in H.
  apply list_elem_of_In, H in Hin. done.
Qed.

(** *** UTF-8 *)

Lemma utf8_of_code_point_prefix cp1 cp2 x y :
  (0 <= cp1 < 1114112) → (0 <= cp2 < 1114112) →
  utf8_of_code_point cp1 ++ x = utf8_of_code_point cp2 ++ y → cp1 = cp2 ∧ x = y.
Proof.
  intros H1 H2. unfold utf8_of_code_point.
  destruct (Z.ltb_spec cp1 128), (Z.ltb_spec cp2 128);
    [|destruct (Z.ltb_spec cp2 2048); [|destruct (Z.ltb_spec cp2 65536)]
     |destruct (Z.ltb_spec cp1 2048); [|destruct (Z.ltb_spec cp1 65536)]
     |destruct (Z.ltb_spec cp1 2048); [|destruct (Z.ltb_spec cp1 65536)];
      (destruct (Z.ltb_spec cp2 2048); [|destruct (Z.ltb_spec cp2 65536)])];
    cbn [app]; intros E; injection E; intros; subst;
    (split; [|try done]); Z.div_mod_to_equations; lia.
Qed.

Lemma utf8_of_code_point_bytes cp :
  (0 <= cp < 1114112) → Forall is_byte (utf8_of_code_point cp).
Proof.
  intros H. unfold utf8_of_code_point, is_byte.
  destruct (Z.ltb_spec cp 128); [|destruct (Z.ltb_spec cp 2048);
    [|destruct (Z.ltb_spec cp 65536)]];
    repeat (apply Forall_cons; split; [Z.div_mod_to_equations; lia|]); apply Forall_nil_2.
Qed.

Lemma utf8_of_code_point_nonempty cp : utf8_of_code_point cp ≠ [].
Proof.
  unfold utf8_of_code_point.
  by destruct (cp <? 128), (cp <? 2048), (cp <? 65536).
Qed.

Lemma well_formed_view s : well_formed s = true → wf_view s.
Proof.
  destruct s as [|c r]; [constructor|]. cbn [well_formed].
  destruct (isHighSurrogate c) eqn:Hh.
  - destruct r as [|l r]; [done|]. intros [Hl Hr]%andb_true_iff. by constructor.
  - intros [[[Hl H0%Z.leb_le]%andb_true_iff H1%Z.ltb_lt]%andb_true_iff Hr]%andb_true_iff.
    apply negb_true_iff in Hl. by constructor.
Qed.

Lemma encode_unit c r :
  isHighSurrogate c = false → isLowSurrogate c = false →
  TextEncoder_encode (c :: r) = utf8_of_code_point c ++ TextEncoder_encode r.
Proof. intros Hh Hl. cbn [TextEncoder_encode]. by rewrite Hh, Hl. Qed.

Lemma encode_pair h l r :
  isHighSurrogate h = true → isLowSurrogate l = true →
  TextEncoder_encode (h :: l :: r)
  = utf8_of_code_point (pair_code_point h l) ++ TextEncoder_encode r.
Proof. intros Hh Hl. cbn [TextEncoder_encode]. by rewrite Hh, Hl. Qed.

Lemma pair_code_point_range h l :
  isHighSurrogate h = true → isLowSurrogate l = true →
  65536 <= pair_code_point h l < 1114112.
Proof.
  unfold isHighSurrogate, isLowSurrogate, pair_code_point.
  rewrite !andb_true_iff, !Z.leb_le. lia.
Qed.

Lemma pair_code_point_inj h1 l1 h2 l2 :
  isHighSurrogate h1 = true → isLowSurrogate l1 = true →
  isHighSurrogate h2 = true → isLowSurrogate l2 = true →
  pair_code_point h1 l1 = pair_code_point h2 l2 → h1 = h2 ∧ l1 = l2.
Proof.
  unfold isHighSurrogate, isLowSurrogate, pair_code_point.
  rewrite !andb_true_iff, !Z.leb_le. lia.
Qed.

Lemma TextEncoder_encode_inj_aux (n : nat) : forall s1 s2,
  (length s1 <= n)%nat → well_formed s1 = true → well_formed s2 = true →
  TextEncoder_encode s1 = TextEncoder_encode s2 → s1 = s2.
Proof.
  induction n as [|n IH]; intros s1 s2 Hlen H1 H2 E.
  - destruct s1; [|simpl in Hlen; lia].
    destruct (well_formed_view s2 H2) as [|c r Hh Hl Hc Hr|h l r Hh Hl Hr]; [done| |].
    + rewrite encode_unit in E by done. symmetry in E.
      apply app_eq_nil in E as [E _]. by apply utf8_of_code_point_nonempty in E.
    + rewrite encode_pair in E by done. symmetry in E.
      apply app_eq_nil in E as [E _]. by apply utf8_of_code_point_nonempty in E.
  - destruct (well_formed_view s1 H1) as [|c1 r1 Hh1 Hl1 Hc1 Hr1|h1 l1 r1 Hh1 Hl1 Hr1];
      destruct (well_formed_view s2 H2) as [|c2 r2 Hh2 Hl2 Hc2 Hr2|h2 l2 r2 Hh2 Hl2 Hr2];
      try done;
      change (TextEncoder_encode []) with (@nil Z) in E;
      repeat match goal with
             | H : context [TextEncoder_encode (_ :: _ :: _)] |- _ =>
               first [rewrite encode_pair in H by done | rewrite encode_unit in H by done]
             | H : context [TextEncoder_encode (_ :: _)] |- _ =>
               rewrite encode_unit in H by done
             end.
    + symmetry in E. apply app_eq_nil in E as [E _].
      by apply utf8_of_code_point_nonempty in E.
    + symmetry in E. apply app_eq_nil in E as [E _].
      by apply utf8_of_code_point_nonempty in E.
    + apply app_eq_nil in E as [E _]. by apply utf8_of_code_point_nonempty in E.
    + apply utf8_of_code_point_prefix in E as [-> E]; [|lia..].
      f_equal. apply IH; [simpl in Hlen; lia|done..].
    + pose proof (pair_code_point_range h2 l2 Hh2 Hl2).
      apply utf8_of_code_point_prefix in E as [-> E]; lia.
    + apply app_eq_nil in E as [E _]. by apply utf8_of_code_point_nonempty in E.
    + pose proof (pair_code_point_range h1 l1 Hh1 Hl1).
      apply utf8_of_code_point_prefix in E as [E' E]; lia.
    + pose proof (pair_code_point_range h1 l1 Hh1 Hl1).
      pose proof (pair_code_point_range h2 l2 Hh2 Hl2).
      apply utf8_of_code_point_prefix in E as [E' E]; [|lia..].
      destruct (pair_code_point_inj _ _ _ _ Hh1 Hl1 Hh2 Hl2 E') as [-> ->].
      do 2 f_equal. apply IH; [simpl in Hlen; lia|done..].
Qed.

Lemma TextEncoder_encode_inj s1 s2 :
  well_formed s1 = true → well_formed s2 = true →
  TextEncoder_encode s1 = TextEncoder_encode s2 → s1 = s2.
Proof. by apply (TextEncoder_encode_inj_aux (length s1)). Qed.

Lemma TextEncoder_encode_bytes_aux (n : nat) : forall s,
  (length s <= n)%nat → well_formed s = true → Forall is_byte (TextEncoder_encode s).
Proof.
  induction n as [|n IH]; intros s Hlen H.
  - destruct s; [constructor|simpl in Hlen; lia].
  - destruct (well_formed_view s H) as [|c r Hh Hl Hc Hr|h l r Hh Hl Hr].
    + constructor.
    + rewrite encode_unit by done. apply Forall_app. split.
      * apply utf8_of_code_point_bytes. lia.
      * apply IH; [simpl in Hlen; lia|done].
    + rewrite encode_pair by done. apply Forall_app. split.
      * apply utf8_of_code_point_bytes. pose proof (pair_code_point_range h l Hh Hl). lia.
      * apply IH; [simpl in Hlen; lia|done].
Qed.

Lemma TextEncoder_encode_bytes s :
  well_formed s = true → Forall is_byte (TextEncoder_encode s).
Proof. by apply (TextEncoder_encode_bytes_aux (length s)). Qed.

(** *** base64 *)

Lemma sextet_In i : is_sextet i → In i (seqZ 0 64).
Proof. intros H. apply list_elem_of_In, elem_of_seqZ. unfold is_sextet in H. lia. Qed.

Lemma base64_char_inj i j :
  is_sextet i → is_sextet j → base64_char i = base64_char j → i = j.
Proof.
  intros Hi%sextet_In Hj%sextet_In.
  assert (forallb (fun i => forallb (fun j =>
            implb (base64_char i =? base64_char j) (i =? j)) (seqZ 0 64)) (seqZ 0 64) = true)
    as Hall by by vm_compute.
  rewrite forallb_forall in Hall. specialize (Hall i Hi).
  rewrite forallb_forall in Hall. specialize (Hall j Hj).
  intros E. rewrite E, Z.eqb_refl in Hall. by apply Z.eqb_eq.
Qed.

Lemma base64_char_alnum i :
  is_sextet i → base64_char i ≠ 43 → base64_char i ≠ 47 →
  isAlphaNumeric (base64_char i) = true.
Proof.
  intros Hi%sextet_In H43 H47.
  assert (forallb (fun i => (base64_char i =? 43) || (base64_char i =? 47)
                            || isAlphaNumeric (base64_char i)) (seqZ 0 64) = true)
    as Hall by by vm_compute.
  rewrite forallb_forall in Hall. specialize (Hall i Hi).
  destruct (Z.eqb_spec (base64_char i) 43); [done|].
  by destruct (Z.eqb_spec (base64_char i) 47).
Qed.

Lemma sextet_1 a : is_byte a → is_sextet (a / 4).
Proof. unfold is_byte, is_sextet. intros. Z.div_mod_to_equations. lia. Qed.
Lemma sextet_2 a b : is_byte a → is_byte b → is_sextet (a mod 4 * 16 + b / 16).
Proof. unfold is_byte, is_sextet. intros. Z.div_mod_to_equations. lia. Qed.
Lemma sextet_2_last a : is_byte a → is_sextet (a mod 4 * 16).
Proof. unfold is_byte, is_sextet. intros. Z.div_mod_to_equations. lia. Qed.
Lemma sextet_3 b c : is_byte b → is_byte c → is_sextet (b mod 16 * 4 + c / 64).
Proof. unfold is_byte, is_sextet. intros. Z.div_mod_to_equations. lia. Qed.
Lemma sextet_3_last b : is_byte b → is_sextet (b mod 16 * 4).
Proof. unfold is_byte, is_sextet. intros. Z.div_mod_to_equations. lia. Qed.
Lemma sextet_4 c : is_byte c → is_sextet (c mod 64).
Proof. unfold is_byte, is_sextet. intros. Z.div_mod_to_equations. lia. Qed.

Lemma sextets_1_inj a a' :
  is_byte a → is_byte a' → a / 4 = a' / 4 → a mod 4 * 16 = a' mod 4 * 16 → a = a'.
Proof. unfold is_byte. intros. Z.div_mod_to_equations. lia. Qed.

Lemma sextets_2_inj a b a' b' :
  is_byte a → is_byte b → is_byte a' → is_byte b' →
  a / 4 = a' / 4 → a mod 4 * 16 + b / 16 = a' mod 4 * 16 + b' / 16 →
  b mod 16 * 4 = b' mod 16 * 4 → a = a' ∧ b = b'.
Proof. unfold is_byte. intros. Z.div_mod_to_equations. lia. Qed.

Lemma sextets_3_inj a b c a' b' c' :
  is_byte a → is_byte b → is_byte c → is_byte a' → is_byte b' → is_byte c' →
  a / 4 = a' / 4 → a mod 4 * 16 + b / 16 = a' mod 4 * 16 + b' / 16 →
  b mod 16 * 4 + c / 64 = b' mod 16 * 4 + c' / 64 → c mod 64 = c' mod 64 →
  a = a' ∧ b = b' ∧ c = c'.
Proof. unfold is_byte. intros. Z.div_mod_to_equations. lia. Qed.

Lemma triple_ind (P : list Z -> Prop) :
  P [] → (forall a, P [a]) → (forall a b, P [a; b]) →
  (forall a b c r, P r → P (a :: b :: c :: r)) → forall l, P l.
Proof.
  intros H0 H1 H2 H3.
  enough (forall n l, (length l < n)%nat → P l) by eauto.
  induction n as [|n IH]; [intros; lia|].
  intros [|a [|b [|c r]]] Hl; auto. apply H3, IH. simpl in Hl. lia.
Qed.

Lemma sextets_of_range bs : Forall is_byte bs → Forall is_sextet (sextets_of bs).
Proof.
  pattern bs. apply triple_ind; clear bs.
  - constructor.
  - intros a (Ha & _)%Forall_cons. cbn [sextets_of].
    repeat apply Forall_cons_2; auto using sextet_1, sextet_2_last.
  - intros a b (Ha & (Hb & _)%Forall_cons)%Forall_cons. cbn [sextets_of].
    repeat apply Forall_cons_2; auto using sextet_1, sextet_2, sextet_3_last.
  - intros a b c r IH (Ha & (Hb & (Hc & Hr)%Forall_cons)%Forall_cons)%Forall_cons.
    cbn [sextets_of app].
    repeat apply Forall_cons_2; auto using sextet_1, sextet_2, sextet_3, sextet_4.
Qed.

Lemma sextets_of_inj bs1 : forall bs2,
  Forall is_byte bs1 → Forall is_byte bs2 →
  sextets_of bs1 = sextets_of bs2 → bs1 = bs2.
Proof.
  pattern bs1. apply triple_ind; clear bs1.
  - intros [|a' [|b' [|c' r']]] _ _; cbn [sextets_of app]; by try discriminate.
  - intros a [|a' [|b' [|c' r']]] B1 B2; cbn [sextets_of app]; try discriminate.
    apply Forall_cons in B1 as [Ha _]. apply Forall_cons in B2 as [Ha' _].
    intros [= E1 E2]. f_equal. by apply sextets_1_inj.
  - intros a b [|a' [|b' [|c' r']]] B1 B2; cbn [sextets_of app]; try discriminate.
    apply Forall_cons in B1 as [Ha (Hb & _)%Forall_cons].
    apply Forall_cons in B2 as [Ha' (Hb' & _)%Forall_cons].
    intros [= E1 E2 E3].
    destruct (sextets_2_inj a b a' b') as [-> ->]; done.
  - intros a b c r IH [|a' [|b' [|c' r']]] B1 B2; cbn [sextets_of app]; try discriminate.
    apply Forall_cons in B1 as [Ha (Hb & (Hc & Hr)%Forall_cons)%Forall_cons].
    apply Forall_cons in B2 as [Ha' (Hb' & (Hc' & Hr')%Forall_cons)%Forall_cons].
    intros [= E1 E2 E3 E4 E].
    destruct (sextets_3_inj a b c a' b' c') as (-> & -> & ->); try done.
    do 3 f_equal. by apply IH.
Qed.

Lemma map_base64_char_inj l1 : forall l2,
  Forall is_sextet l1 → Forall is_sextet l2 →
  map base64_char l1 = map base64_char l2 → l1 = l2.
Proof.
  induction l1 as [|i l1 IH]; intros [|j l2] S1 S2; simpl; try done.
  apply Forall_cons in S1 as [Hi S1]. apply Forall_cons in S2 as [Hj S2].
  intros [= E1 E]. f_equal; [by apply base64_char_inj | by apply IH].
Qed.

Lemma plain_token_cons c t : plain_token (c :: t) ↔ c ≠ 43 ∧ c ≠ 47 ∧ plain_token t.
Proof. unfold plain_token. rewrite !not_elem_of_cons. intuition congruence. Qed.

Lemma strip_base64 i t :
  is_sextet i → plain_token (base64_char i :: t) →
  strip_non_alphanumeric (base64_char i :: t)
  = base64_char i :: strip_non_alphanumeric t.
Proof.
  intros Hi (H43 & H47 & _)%plain_token_cons.
  unfold strip_non_alphanumeric. cbn [List.filter].
  by rewrite base64_char_alnum.
Qed.

Lemma plain_token_tail c t : plain_token (c :: t) → plain_token t.
Proof. by intros (_ & _ & H)%plain_token_cons. Qed.

Lemma strip_pad t : strip_non_alphanumeric (61 :: t) = strip_non_alphanumeric t.
Proof. reflexivity. Qed.

(** The sanitised token is the base64 alphabet applied to the sextets: the
    padding is dropped and, for a token free of '+' and '/', nothing else. *)
Lemma strip_btoa bs :
  Forall is_byte bs → plain_token (btoa bs) →
  strip_non_alphanumeric (btoa bs) = map base64_char (sextets_of bs).
Proof.
  pattern bs. apply triple_ind; clear bs.
  - done.
  - intros a (Ha & _)%Forall_cons. cbn [btoa sextets_of map]. intros T.
    rewrite strip_base64; [|by apply sextet_1|done]. apply plain_token_tail in T.
    rewrite strip_base64; [|by apply sextet_2_last|done]. done.
  - intros a b (Ha & (Hb & _)%Forall_cons)%Forall_cons.
    cbn [btoa sextets_of map]. intros T.
    rewrite strip_base64; [|by apply sextet_1|done]. apply plain_token_tail in T.
    rewrite strip_base64; [|by apply sextet_2|done]. apply plain_token_tail in T.
    rewrite strip_base64; [|by apply sextet_3_last|done]. done.
  - intros a b c r IH (Ha & (Hb & (Hc & Hr)%Forall_cons)%Forall_cons)%Forall_cons.
    cbn [btoa sextets_of map app]. intros T.
    rewrite strip_base64; [|by apply sextet_1|done]. apply plain_token_tail in T.
    rewrite strip_base64; [|by apply sextet_2|done]. apply plain_token_tail in T.
    rewrite strip_base64; [|by apply sextet_3|done]. apply plain_token_tail in T.
    rewrite strip_base64; [|by apply sextet_4|done]. apply plain_token_tail in T.
    by rewrite IH.
Qed.

Lemma strip_btoa_inj bs1 bs2 :
  Forall is_byte bs1 → Forall is_byte bs2 →
  plain_token (btoa bs1) → plain_token (btoa bs2) →
  strip_non_alphanumeric (btoa bs1) = strip_non_alphanumeric (btoa bs2) → bs1 = bs2.
Proof.
  intros B1 B2 T1 T2. rewrite !strip_btoa by done. intros E.
  apply map_base64_char_inj in E; auto using sextets_of_range.
  by apply sextets_of_inj.
Qed.

(** *** The row key *)

Lemma well_formed_app_aux (n : nat) : forall s1 s2,
  (length s1 < n)%nat → well_formed s1 = true → well_formed s2 = true →
  well_formed (s1 ++ s2) = true.
Proof.
  induction n as [|n IH]; intros s1 s2 Hn H1 H2; [lia|].
  destruct (well_formed_view s1 H1) as [|c r Hh Hl Hc Hr|h l r Hh Hl Hr].
  - done.
  - cbn [app well_formed]. rewrite Hh, Hl. cbn [negb andb].
    rewrite (IH r s2) by (simpl in Hn; done || lia).
    destruct Hc as [H0%Z.leb_le H16%Z.ltb_lt]. by rewrite H0, H16.
  - cbn [app well_formed]. rewrite Hh, Hl. cbn [andb].
    apply IH; [simpl in Hn; lia|done..].
Qed.

Lemma well_formed_app s1 s2 :
  well_formed s1 = true → well_formed s2 = true → well_formed (s1 ++ s2) = true.
Proof. by apply (well_formed_app_aux (S (length s1))); [lia|..]. Qed.

Lemma number_char_well_formed s : forallb number_char s = true → well_formed s = true.
Proof.
  induction s as [|c s IH]; [done|]. cbn [forallb well_formed].
  intros [Hc Hs]%andb_true_iff. rewrite (IH Hs), andb_true_r.
  assert (43 <= c <= 121) as Hb.
  { apply orb_true_iff in Hc as [Hd%isDigit_bounds|Hin%bool_decide_eq_true]; [lia|].
    repeat (apply elem_of_cons in Hin as [->|Hin]; [lia|]). by apply elem_of_nil in Hin. }
  unfold isHighSurrogate, isLowSurrogate.
  replace (55296 <=? c) with false by (symmetry; apply Z.leb_gt; lia).
  replace (56320 <=? c) with false by (symmetry; apply Z.leb_gt; lia).
  cbn [andb negb].
  replace (0 <=? c) with true by (symmetry; apply Z.leb_le; lia).
  replace (c <? 65536) with true by (symmetry; apply Z.ltb_lt; lia). done.
Qed.

Lemma toString_well_formed (x : number) : well_formed (Num.toString x) = true.
Proof. apply number_char_well_formed, toString_chars. Qed.

Lemma well_formed_sep s1 s2 :
  well_formed s1 = true → well_formed s2 = true → well_formed (s1 ++ [95] ++ s2) = true.
Proof. intros H1 H2. apply well_formed_app; [done|]. by apply (well_formed_app [95]). Qed.

Lemma row_key_well_formed item : plain_fields item → well_formed (row_key item) = true.
Proof.
  intros ([_ H1] & [_ H2] & [_ H3] & [_ H4] & [_ H5] & [_ H6]). unfold row_key.
  auto 10 using well_formed_sep, toString_well_formed.
Qed.

(** With no underscore in a text field the row key splits back into its
    eight parts. *)
Lemma row_key_injective r1 r2 :
  plain_fields r1 → plain_fields r2 → row_key r1 = row_key r2 →
  workDate r1 = workDate r2 ∧ contractorName r1 = contractorName r2
  ∧ projectCode r1 = projectCode r2 ∧ subworkCode r1 = subworkCode r2
  ∧ subareaCode r1 = subareaCode r2 ∧ reporter r1 = reporter r2
  ∧ Num.toString (inHours r1) = Num.toString (inHours r2)
  ∧ Num.toString (outHours r1) = Num.toString (outHours r2).
Proof.
  intros ([U1 _] & [U2 _] & [U3 _] & [U4 _] & [U5 _] & [U6 _]).
  intros ([V1 _] & [V2 _] & [V3 _] & [V4 _] & [V5 _] & [V6 _]).
  unfold row_key. intros E.
  apply group_key_injective in E as [E1 E]; [|done..].
  apply group_key_injective in E as [E2 E]; [|done..].
  apply group_key_injective in E as [E3 E]; [|done..].
  apply group_key_injective in E as [E4 E]; [|done..].
  apply group_key_injective in E as [E5 E]; [|done..].
  apply group_key_injective in E as [E6 E]; [|done..].
  apply group_key_injective in E as [E7 E]; [|apply toString_no_underscore..].
  done.
Qed.

(** Where [TextEncoder] and [btoa] exist, the hash tells apart any two
    records with plain text fields whose base64 tokens hold no '+' and no
    '/': equal hashes then mean equal text fields and equal renderings of
    the two hour figures. *)
Theorem generateRowHash_injective r1 r2 :
  plain_fields r1 → plain_fields r2 →
  plain_token (btoa (TextEncoder_encode (row_key r1))) →
  plain_token (btoa (TextEncoder_encode (row_key r2))) →
  generateRowHash true r1 = generateRowHash true r2 →
  workDate r1 = workDate r2 ∧ contractorName r1 = contractorName r2
  ∧ projectCode r1 = projectCode r2 ∧ subworkCode r1 = subworkCode r2
  ∧ subareaCode r1 = subareaCode r2 ∧ reporter r1 = reporter r2
  ∧ Num.toString (inHours r1) = Num.toString (inHours r2)
  ∧ Num.toString (outHours r1) = Num.toString (outHours r2).
Proof.
  intros P1 P2 T1 T2. unfold generateRowHash. intros E.
  pose proof (row_key_well_formed r1 P1) as W1.
  pose proof (row_key_well_formed r2 P2) as W2.
  apply strip_btoa_inj in E; [|by apply TextEncoder_encode_bytes..|done|done].
  apply TextEncoder_encode_inj in E; [|done..].
  by apply row_key_injective.
Qed.

Lemma generateRowHash_injective_witness :
  id work_en_1 ≠ id (with_id work_en_1 (lit "work_9"))
  ∧ workDate work_en_1 = workDate (with_id work_en_1 (lit "work_9"))
  ∧ contractorName work_en_1 = contractorName (with_id work_en_1 (lit "work_9"))
  ∧ projectCode work_en_1 = projectCode (with_id work_en_1 (lit "work_9"))
  ∧ subworkCode work_en_1 = subworkCode (with_id work_en_1 (lit "work_9"))
  ∧ subareaCode work_en_1 = subareaCode (with_id work_en_1 (lit "work_9"))
  ∧ reporter work_en_1 = reporter (with_id work_en_1 (lit "work_9"))
  ∧ Num.toString (inHours work_en_1)
    = Num.toString (inHours (with_id work_en_1 (lit "work_9")))
  ∧ Num.toString (outHours work_en_1)
    = Num.toString (outHours (with_id work_en_1 (lit "work_9"))).
Proof.
  assert (forall s : jsstring, bool_decide (95 ∉ s) && well_formed s = true → plain_field s)
    as field.
  { intros s [H%bool_decide_eq_true ?]%andb_true_iff. by split. }
  assert (forall t : jsstring, bool_decide (43 ∉ t) && bool_decide (47 ∉ t) = true
                               → plain_token t) as token.
  { intros s [H%bool_decide_eq_true H'%bool_decide_eq_true]%andb_true_iff. by split. }
  split; [by vm_compute|].
  apply (generateRowHash_injective work_en_1 (with_id work_en_1 (lit "work_9"))).
  - unfold plain_fields; split_and!; apply field; by vm_compute.
  - unfold plain_fields; split_and!; apply field; by vm_compute.
  - apply token; by vm_compute.
  - apply token; by vm_compute.
  - by vm_compute.
Defined.

(** The records of the sample sheet are outside that case: after an ISO
    date, the underscore and the lead byte of a name that is not ASCII make
    the sextet 63, written '/'. *)
Lemma generateRowHash_token_of_sample_record :
  nth 14 (btoa (TextEncoder_encode (row_key work_1))) 0 = 47
  ∧ ¬ plain_token (btoa (TextEncoder_encode (row_key work_1))).
Proof.
  split; [by vm_compute|]. intros [_ H]. apply H.
  by apply (bool_decide_unpack _); vm_compute.
Qed.

End HashInjectivity.

(** ** The store of codes (contexts/DataContext.tsx) *)

Section CodeStore.
Import DataContext DataAggregation Spec Examples.

Lemma find_app {A} (p : A -> bool) (l1 l2 : list A) :
  List.find p (l1 ++ l2)
  = match List.find p l1 with Some x => Some x | None => List.find p l2 end.
Proof. induction l1 as [|x l1 IH]; simpl; [done|]. by destruct (p x). Qed.

Lemma find_none_code (c : jsstring) (l : list WorkCode) :
  List.find (fun code => bool_decide (wc_subworkCode code = c)) l = None
  ↔ c ∉ map wc_subworkCode l.
Proof.
  induction l as [|x l IH]; simpl.
  - split; [intros _ H; by apply elem_of_nil in H|done].
  - rewrite not_elem_of_cons. case_bool_decide as E.
    + split; [done|]. intros [H _]. by destruct H.
    + rewrite IH. split; [intros H; split; [congruence|done]|tauto].
Qed.

Lemma find_filter_code (c : jsstring) (P : WorkCode -> Prop) `{!∀ x, Decision (P x)}
    (l : list WorkCode) :
  (forall x, wc_subworkCode x = c → P x) →
  List.find (fun code => bool_decide (wc_subworkCode code = c)) (filter P l)
  = List.find (fun code => bool_decide (wc_subworkCode code = c)) l.
Proof.
  intros HP. induction l as [|x l IH]; [done|].
  rewrite filter_cons. simpl. case_bool_decide as E.
  - rewrite decide_True by auto. simpl. by rewrite bool_decide_eq_true_2.
  - case_decide; [simpl; by rewrite bool_decide_eq_false_2|done].
Qed.

(** Looking a code up in the store of codes after [addWorkCodes]: the entry
    the store held before, if it held one, and else the first that the new
    batch has for it. *)
Lemma find_addWorkCodes (c : jsstring) (codes prev : list WorkCode) :
  List.find (fun code => bool_decide (wc_subworkCode code = c)) (addWorkCodes codes prev)
  = match List.find (fun code => bool_decide (wc_subworkCode code = c)) prev with
    | Some entry => Some entry
    | None => List.find (fun code => bool_decide (wc_subworkCode code = c)) codes
    end.
Proof.
  unfold addWorkCodes. cbv zeta. rewrite find_app.
  destruct (List.find _ prev) eqn:Hprev; [done|].
  apply find_filter_code. intros x <-.
  rewrite elem_of_list_to_set. by apply find_none_code.
Qed.

(** [addWorkCodes] never replaces an entry: what the store held stays, in
    its place, and a code is looked up as before if the store had an entry
    for it, and otherwise finds the first entry that the batch has for it. *)
Theorem addWorkCodes_keeps_first_entry (c : jsstring) (codes prev : list WorkCode) :
  prev `prefix_of` addWorkCodes codes prev
  ∧ List.find (fun code => bool_decide (wc_subworkCode code = c)) (addWorkCodes codes prev)
    = match List.find (fun code => bool_decide (wc_subworkCode code = c)) prev with
      | Some entry => Some entry
      | None => List.find (fun code => bool_decide (wc_subworkCode code = c)) codes
      end.
Proof. split; [by eexists|apply find_addWorkCodes]. Qed.

Lemma workTypeName_ext (codes1 codes2 : list WorkCode) (g : Group) :
  List.find (fun code => bool_decide (wc_subworkCode code = group_subworkCode g)) codes1
  = List.find (fun code => bool_decide (wc_subworkCode code = group_subworkCode g)) codes2 →
  workTypeName codes1 g = workTypeName codes2 g.
Proof. unfold workTypeName. by intros ->. Qed.

Lemma fold_merge_step_ext (codes1 codes2 : list WorkCode) (groups : list Group) :
  Forall (fun g => workTypeName codes1 g = workTypeName codes2 g) groups →
  forall acc, fold_left (merge_step codes1) groups acc
              = fold_left (merge_step codes2) groups acc.
Proof.
  induction 1 as [|g groups Hg _ IH]; intros acc; simpl; [done|].
  unfold merge_step at 2 4. rewrite Hg. apply IH.
Qed.

Lemma update_entry_elem {K V} `{EqDecision K} (key : K) (init : V) (f : V -> V)
    (m : list (K * V)) (k : K) (v : V) :
  (k, v) ∈ update_entry key init f m →
  (k, v) ∈ m ∨ (k = key ∧ (v = f init ∨ ∃ v0, (key, v0) ∈ m ∧ v = f v0)).
Proof.
  induction m as [|[k0 v0] m IH]; simpl.
  - intros [= -> ->]%list_elem_of_singleton. right. split; [done|by left].
  - case_bool_decide as E.
    + intros [[= -> ->]|Hin]%elem_of_cons.
      * right. split; [done|]. right. exists v0. split; [subst; left|done].
      * left. by right.
    + intros [[= -> ->]|Hin]%elem_of_cons.
      * left. left.
      * destruct (IH Hin) as [?|(-> & [->|(v1 & Hv1 & ->)])].
        -- left. by right.
        -- right. split; [done|by left].
        -- right. split; [done|]. right. exists v1. split; [by right|done].
Qed.

(** Every group bears the sub-work code of a record. *)
Lemma grouped_subworkCode (workItems : list WorkItem) :
  Forall (fun g => group_subworkCode g ∈ map subworkCode workItems)
         (map snd (grouped workItems)).
Proof.
  unfold grouped.
  enough (forall acc (seen : list WorkItem),
            Forall (fun g => group_subworkCode g ∈ map subworkCode seen) (map snd acc) →
            Forall (fun g => group_subworkCode g ∈ map subworkCode (seen ++ workItems))
                   (map snd (fold_left group_step workItems acc))) as H
    by exact (H [] [] (Forall_nil_2 _)).
  induction workItems as [|item rest IH]; intros acc seen Hacc; simpl.
  - by rewrite app_nil_r.
  - replace (seen ++ item :: rest) with ((seen ++ [item]) ++ rest) by by rewrite <- app_assoc.
    apply IH. unfold group_step. case_bool_decide.
    + eapply Forall_impl; [exact Hacc|]. intros g Hg. simpl in Hg.
      rewrite map_app, elem_of_app. by left.
    + apply Forall_forall. intros g Hg.
      apply list_elem_of_fmap in Hg as ([k g'] & -> & Hin). simpl.
      rewrite map_app, elem_of_app.
      apply update_entry_elem in Hin as [Hin|(-> & [->|(g0 & Hin & ->)])].
      * left. rewrite Forall_forall in Hacc. apply (Hacc g').
        apply list_elem_of_fmap. by exists (k, g').
      * right. simpl. left.
      * left. rewrite Forall_forall in Hacc. simpl. apply (Hacc g0).
        apply list_elem_of_fmap. by exists (group_key item, g0).
Qed.

(** Adding codes to the store never renames what is charted: the store's
    own entry for a sub-work code stays the one that names it, so the chart
    after [addWorkCodes] is the chart over the old store followed by the
    whole batch, and where every record's sub-work code was defined already
    it is the chart as it was. *)
Theorem aggregateByWorkType_addWorkCodes (workItems : list WorkItem)
    (codes prev : list WorkCode) :
  aggregateByWorkType workItems (addWorkCodes codes prev)
  = aggregateByWorkType workItems (prev ++ codes)
  ∧ (Forall (fun item => subworkCode item ∈ map wc_subworkCode prev) workItems →
     aggregateByWorkType workItems (addWorkCodes codes prev)
     = aggregateByWorkType workItems prev).
Proof.
  unfold aggregateByWorkType. destruct workItems as [|item rest]; [done|].
  split.
  - f_equal. apply fold_merge_step_ext, Forall_forall. intros g _.
    apply workTypeName_ext. rewrite find_addWorkCodes, find_app. done.
  - intros Hdef. f_equal. apply fold_merge_step_ext.
    eapply Forall_impl; [apply grouped_subworkCode|]. intros g Hg. cbv beta in Hg.
    apply workTypeName_ext. rewrite find_addWorkCodes.
    destruct (List.find _ prev) eqn:Hfind; [done|]. exfalso.
    apply find_none_code in Hfind. apply Hfind.
    apply list_elem_of_fmap in Hg as (r & -> & Hr).
    rewrite Forall_forall in Hdef. by apply Hdef.
Qed.

Lemma aggregateByWorkType_addWorkCodes_witness :
  Forall (fun item => subworkCode item ∈ map wc_subworkCode [code_211; code_212])
         [work_1; work_2]
  ∧ aggregateByWorkType [work_1; work_2] (addWorkCodes [code_C; code_211] [code_211; code_212])
    = aggregateByWorkType [work_1; work_2] [code_211; code_212].
Proof.
  assert (Forall (fun item => subworkCode item ∈ map wc_subworkCode [code_211; code_212])
                 [work_1; work_2]) as H.
  { apply (bool_decide_unpack _). by vm_compute. }
  split; [exact H|].
  exact (proj2 (aggregateByWorkType_addWorkCodes [work_1; work_2] [code_C; code_211]
                  [code_211; code_212]) H).
Defined.

End CodeStore.

(** ** Importing again (contexts/DataContext.tsx) *)

Section Reimport.
Import DataContext Examples.

Lemma addWorkItems_hashes items prev h :
  h ∈ map srcHash (addWorkItems items prev) ↔ h ∈ map srcHash prev ∨ h ∈ map srcHash items.
Proof.
  rewrite addWorkItems_app, map_app, elem_of_app. split.
  - intros [?|(x & -> & [_ Hx]%list_elem_of_filter)%list_elem_of_fmap]; [by left|].
    right. apply list_elem_of_fmap. by exists x.
  - intros [?|(x & -> & Hx)%list_elem_of_fmap]; [by left|].
    destruct (decide (srcHash x ∈ map srcHash prev)) as [?|Hnew]; [by left|].
    right. apply list_elem_of_fmap. exists x. split; [done|].
    by apply list_elem_of_filter.
Qed.

Lemma addWorkItems_nothing_new items prev :
  Forall (fun item => srcHash item ∈ map srcHash prev) items →
  addWorkItems items prev = prev.
Proof.
  intros Hall. rewrite addWorkItems_app.
  replace (filter _ items) with (@nil WorkItem); [by rewrite app_nil_r|].
  symmetry. induction Hall as [|item items Hitem _ IH]; [done|].
  rewrite filter_cons, decide_False by tauto. exact IH.
Qed.

(** Records whose hashes the store or an earlier batch held already add
    nothing: a batch that is added again, under other ids and at another
    time, leaves the store as it is. *)
Theorem addWorkItems_again (items items' prev : list WorkItem) :
  Forall (fun item => srcHash item ∈ map srcHash items) items' →
  addWorkItems items' (addWorkItems items prev) = addWorkItems items prev.
Proof.
  intros Hall. apply addWorkItems_nothing_new.
  eapply Forall_impl; [exact Hall|]. simpl. intros item Hin.
  apply addWorkItems_hashes. by right.
Qed.

Lemma addWorkItems_again_witness :
  Forall (fun item => srcHash item ∈ map srcHash [work_1; work_2])
         [with_id work_2 (lit "work_9"); work_1]
  ∧ addWorkItems [with_id work_2 (lit "work_9"); work_1] (addWorkItems [work_1; work_2] [])
    = addWorkItems [work_1; work_2] [].
Proof.
  assert (Forall (fun item => srcHash item ∈ map srcHash [work_1; work_2])
                 [with_id work_2 (lit "work_9"); work_1]) as H.
  { apply (bool_decide_unpack _). by vm_compute. }
  split; [exact H|]. exact (addWorkItems_again _ _ [] H).
Defined.

End Reimport.

(** ** The rows of the chart (utils/dataAggregation.ts) *)

Section ChartRows.
Import DataAggregation Spec Examples.

Lemma update_entry_length {K V} `{EqDecision K} (key : K) (init : V) (f : V -> V)
    (m : list (K * V)) :
  (length (update_entry key init f m) <= S (length m))%nat
  ∧ (length m <= length (update_entry key init f m))%nat.
Proof.
  induction m as [|[k v] m IH]; simpl; [lia|].
  case_bool_decide; simpl; lia.
Qed.

Lemma update_entry_NoDup {K V} `{EqDecision K} (key : K) (init : V) (f : V -> V)
    (m : list (K * V)) :
  NoDup (map fst m) → NoDup (map fst (update_entry key init f m)).
Proof.
  induction m as [|[k v] m IH]; simpl.
  - intros _. apply NoDup_singleton.
  - intros [Hk Hm]%NoDup_cons. case_bool_decide as E; simpl.
    + by apply NoDup_cons.
    + apply NoDup_cons. split; [|by apply IH].
      intros [->|Hin]%update_entry_keys; [done|]. by apply Hk.
Qed.

Lemma update_entry_names (key : jsstring) (init : WorkTypeData)
    (f : WorkTypeData -> WorkTypeData) (m : list (jsstring * WorkTypeData)) :
  name init = key → (forall v, name (f v) = name v) →
  Forall (fun e => name (snd e) = fst e) m →
  Forall (fun e => name (snd e) = fst e) (update_entry key init f m).
Proof.
  intros Hinit Hf. induction m as [|[k v] m IH]; simpl.
  - intros _. constructor; [|constructor]. simpl. by rewrite Hf.
  - intros [Hk Hm]%Forall_cons. case_bool_decide as E.
    + constructor; [|done]. simpl in *. by rewrite Hf.
    + constructor; [done|by apply IH].
Qed.

Lemma fold_merge_step_invariant (workCodes : list WorkCode) (groups : list Group) :
  forall acc,
    NoDup (map fst acc) → Forall (fun e => name (snd e) = fst e) acc →
    let m := fold_left (merge_step workCodes) groups acc in
    NoDup (map fst m) ∧ Forall (fun e => name (snd e) = fst e) m
    ∧ (length m <= length acc + length groups)%nat
    ∧ (forall k, k ∈ map fst m →
         k ∈ map fst acc ∨ k ∈ map (workTypeName workCodes) groups).
Proof.
  induction groups as [|g groups IH]; intros acc Hnd Hnames; simpl.
  - split_and!; [done|done|lia|by left].
  - destruct (IH (merge_step workCodes acc g)) as (H1 & H2 & H3 & H4).
    + by apply update_entry_NoDup.
    + by apply update_entry_names.
    + split_and!; [done|done| |].
      * assert (length (merge_step workCodes acc g) <= S (length acc))%nat as Hl
          by (unfold merge_step; apply update_entry_length).
        cbn [length]. lia.
      * intros k Hk. destruct (H4 k Hk) as [Hin|Hin].
        -- apply update_entry_keys in Hin as [->|Hin]; [right; left|by left].
        -- right. by right.
Qed.

Lemma grouped_length (workItems : list WorkItem) :
  (length (grouped workItems) <= length workItems)%nat.
Proof.
  unfold grouped.
  enough (forall acc, (length (fold_left group_step workItems acc)
                       <= length acc + length workItems)%nat) as H
    by exact (H []).
  induction workItems as [|item rest IH]; intros acc; simpl; [lia|].
  etrans; [apply IH|]. unfold group_step. case_bool_decide; [lia|].
  match goal with |- context [update_entry ?k ?i ?f acc] =>
    pose proof (update_entry_length k i f acc) as [Hl _] end.
  lia.
Qed.

(** The chart has one row to a category name: the names of its rows are
    pairwise distinct, each is the name that some group resolves to, and
    there are no more rows than records; without records there is no row. *)
Theorem aggregateByWorkType_rows (workItems : list WorkItem) (workCodes : list WorkCode) :
  let rows := aggregateByWorkType workItems workCodes in
  NoDup (map name rows)
  ∧ (forall row, row ∈ rows →
       name row ∈ map (workTypeName workCodes) (map snd (grouped workItems)))
  ∧ (length rows <= length workItems)%nat
  ∧ aggregateByWorkType [] workCodes = [].
Proof.
  cbv zeta. unfold aggregateByWorkType.
  destruct workItems as [|item rest].
  { split_and!; [constructor| |done|done]. by intros row ?%elem_of_nil. }
  set (items := item :: rest).
  destruct (fold_merge_step_invariant workCodes (map snd (grouped items)) [])
    as (Hnd & Hnames & Hlen & Hkeys); [constructor|constructor|].
  cbv zeta in *.
  set (m := fold_left (merge_step workCodes) (map snd (grouped items)) []) in *.
  assert (map name (map snd m) = map fst m) as Hfst.
  { rewrite map_map. apply map_ext_Forall. exact Hnames. }
  split_and!.
  - by rewrite Hfst.
  - intros row Hrow. destruct (Hkeys (name row)) as [Hin|Hin]; [|by apply elem_of_nil in Hin|done].
    rewrite <- Hfst. apply list_elem_of_fmap. by exists row.
  - rewrite length_map. etrans; [exact Hlen|]. simpl. rewrite length_map.
    apply grouped_length.
  - done.
Qed.

(** The ratio chart and the totals agree: its two slices, named 規内 and
    規外 in that order, hold the regular and the overtime total of
    [calculateTotals], whose [totalHours] is the sum of the two slices. *)
Theorem generateRatioData_totals (workItems : list WorkItem) :
  exists regular overtime,
    generateRatioData workItems = [regular; overtime]
    ∧ ratio_name regular = lit "規内" ∧ ratio_name overtime = lit "規外"
    ∧ ratio_value regular = totalInHours (calculateTotals workItems)
    ∧ ratio_value overtime = totalOutHours (calculateTotals workItems)
    ∧ totals_totalHours (calculateTotals workItems)
      = add (ratio_value regular) (ratio_value overtime).
Proof. by eexists _, _. Qed.

End ChartRows.

(** ** The chart by category, on the records (utils/dataAggregation.ts) *)

Section CategoryRows.
Import DataAggregation Spec Examples Groups.

Lemma elem_of_distinct {A} `{EqDecision A} (l : list A) (x : A) :
  x ∈ distinct l ↔ x ∈ l.
Proof.
  induction l as [|y l IH]; simpl; [done|].
  rewrite !elem_of_cons, list_elem_of_filter, IH.
  destruct (decide (x = y)); intuition congruence.
Qed.

Lemma NoDup_distinct {A} `{EqDecision A} (l : list A) : NoDup (distinct l).
Proof.
  induction l as [|y l IH]; simpl; [constructor|].
  apply NoDup_cons. split.
  - rewrite list_elem_of_filter. intros [Hne _]. by apply Hne.
  - by apply NoDup_filter.
Qed.

Lemma distinct_snoc {A} `{EqDecision A} (l : list A) (a : A) :
  distinct (l ++ [a]) = distinct l ++ (if decide (a ∈ l) then [] else [a]).
Proof.
  induction l as [|x l IH].
  - reflexivity.
  - change (distinct ((x :: l) ++ [a]))
      with (x :: filter (fun y => y ≠ x) (distinct (l ++ [a]))).
    change (distinct (x :: l)) with (x :: filter (fun y => y ≠ x) (distinct l)).
    rewrite IH, filter_app. clear IH. simpl. f_equal. f_equal.
    destruct (decide (a ∈ l)) as [Hin|Hin].
    + destruct (decide (a ∈ x :: l)) as [_|Hn]; [done|].
      exfalso. apply Hn. by right.
    + destruct (decide (a = x)) as [->|Hne].
      * destruct (decide (x ∈ x :: l)) as [_|Hn]; [|exfalso; apply Hn; left].
        rewrite filter_cons. case_decide as Hx; [by destruct Hx|done].
      * destruct (decide (a ∈ x :: l)) as [[?|?]%elem_of_cons|_]; [done|done|].
        rewrite filter_cons. case_decide as Hx; [done|by destruct Hx].
Qed.

Lemma distinct_fmap {A B} `{EqDecision A} `{EqDecision B} (f : A -> B) (l : list A) :
  (forall x y, x ∈ l → y ∈ l → f x = f y → x = y) →
  distinct (map f l) = map f (distinct l).
Proof.
  induction l as [|a l IH] using rev_ind; intros Hinj; [done|].
  rewrite map_app. simpl map. rewrite !distinct_snoc, map_app, IH.
  2:{ intros x y Hx Hy. apply Hinj; rewrite elem_of_app; by left. }
  f_equal. destruct (decide (a ∈ l)) as [Hin|Hin].
  - case_decide as Hn; [done|]. exfalso. apply Hn, list_elem_of_fmap. by exists a.
  - case_decide as Hn; [|done]. exfalso.
    apply list_elem_of_fmap in Hn as (y & E & Hy). apply Hin.
    replace a with y; [done|]. symmetry. apply Hinj; [| |done]; rewrite elem_of_app.
    + right. left.
    + by left.
Qed.

(** [update_entry] on a map that is given key by key. *)
Lemma update_entry_tabulated {K V} `{EqDecision K} (key : K) (init : V) (f : V -> V)
    (h : K -> V) (ks : list K) :
  NoDup ks →
  update_entry key init f (map (fun k => (k, h k)) ks)
  = map (fun k => (k, if decide (k = key) then f (h k) else h k)) ks
    ++ (if decide (key ∈ ks) then [] else [(key, f init)]).
Proof.
  induction ks as [|k ks IH].
  - intros _. reflexivity.
  - intros [Hk Hks]%NoDup_cons. cbn [map update_entry]. case_bool_decide as E.
    + clear IH. subst k. destruct (decide (key = key)) as [_|Hn]; [|by destruct Hn].
      destruct (decide (key ∈ key :: ks)) as [_|Hn]; [|exfalso; apply Hn; left].
      rewrite app_nil_r. f_equal. apply map_ext_in. intros k' Hk'.
      case_decide as Hk2; [|done]. subst k'. exfalso. by apply Hk, list_elem_of_In.
    + destruct (decide (k = key)) as [?|_]; [done|].
      rewrite IH by done. simpl. f_equal. f_equal.
      destruct (decide (key ∈ ks)) as [Hin|Hin].
      * destruct (decide (key ∈ k :: ks)) as [_|Hn]; [done|]. exfalso. apply Hn. by right.
      * destruct (decide (key ∈ k :: ks)) as [[?|?]%elem_of_cons|_]; [by subst|done|done].
Qed.

Lemma filter_key_absent {A K} `{EqDecision K} (key : A -> K) (k : K) (l : list A) :
  k ∉ map key l → filter (fun a => key a = k) l = [].
Proof.
  induction l as [|x l IH]; [done|]. simpl. rewrite not_elem_of_cons. intros [Hx Hl].
  rewrite filter_cons. case_decide as E; [by destruct Hx|by apply IH].
Qed.

(** What a fold of [update_entry] builds: an entry to every key, in the
    order in which the keys come first, holding the fold over the elements
    of that key. *)
Lemma fold_update_entry {A K V} `{EqDecision K} (key : A -> K) (init : K -> V)
    (f : A -> V -> V) (l : list A) :
  fold_left (fun acc a => update_entry (key a) (init (key a)) (f a) acc) l []
  = map (fun k => (k, fold_left (fun v a => f a v) (filter (fun a => key a = k) l) (init k)))
        (distinct (map key l)).
Proof.
  induction l as [|a l IH] using rev_ind; [done|].
  rewrite fold_left_app. cbn [fold_left]. rewrite IH. clear IH.
  rewrite update_entry_tabulated by apply NoDup_distinct.
  rewrite map_app. cbn [map]. rewrite distinct_snoc, map_app. f_equal.
  - apply map_ext. intros k. f_equal.
    rewrite filter_app, fold_left_app, filter_cons, filter_nil.
    destruct (decide (k = key a)) as [->|Hne].
    + case_decide as E; [done|by destruct E].
    + case_decide as E; [by subst|done].
  - destruct (decide (key a ∈ map key l)) as [Hin|Hin].
    + case_decide as Hn; [done|]. exfalso. by apply Hn, elem_of_distinct.
    + case_decide as Hn; [exfalso; by apply Hin, elem_of_distinct|].
      cbn [map]. f_equal. f_equal.
      rewrite filter_app, fold_left_app, filter_cons, filter_nil.
      case_decide as E; [|by destruct E].
      by rewrite filter_key_absent.
Qed.

Lemma filter_map_commute {A B} (P : B -> Prop) `{!∀ y, Decision (P y)} (f : A -> B)
    (l : list A) :
  filter P (map f l) = map f (filter (fun x => P (f x)) l).
Proof.
  induction l as [|x l IH]; [done|]. cbn [map]. rewrite !filter_cons.
  case_decide; cbn [map]; by rewrite IH.
Qed.

Lemma find_head_filter {A} (P : A -> Prop) `{!∀ x, Decision (P x)} (l : list A) :
  List.find (fun x => bool_decide (P x)) l = head (filter P l).
Proof.
  induction l as [|x l IH]; [done|]. cbn [List.find]. rewrite filter_cons.
  case_bool_decide as E.
  - by rewrite decide_True.
  - by rewrite decide_False.
Qed.

(** The name that the code resolves for a group is the display name of its
    pair of codes. *)
Lemma workTypeName_category_name (workCodes : list WorkCode) (g : Group) :
  workTypeName workCodes g
  = category_name workCodes (group_projectCode g, group_subworkCode g).
Proof.
  unfold workTypeName, category_name. cbn [fst snd].
  rewrite (find_head_filter (fun code => wc_subworkCode code = group_subworkCode g)).
  destruct (filter _ workCodes) as [|entry rest]; [reflexivity|]. cbn [head].
  destruct (majorName entry) as [|c m].
  - destruct (subworkName entry) as [|c s]; reflexivity.
  - reflexivity.
Qed.

Lemma fold_add_item (items : list WorkItem) : forall g : Group,
  fold_left (fun g item => add_item item g) items g
  = {| group_projectCode := group_projectCode g;
       group_subworkCode := group_subworkCode g;
       group_規内 := fold_left add (map inHours items) (group_規内 g);
       group_規外 := fold_left add (map outHours items) (group_規外 g);
       group_計 := fold_left add (map totalHours items) (group_計 g) |}.
Proof.
  induction items as [|item items IH]; intros g; [by destruct g|].
  cbn [fold_left map]. rewrite IH. reflexivity.
Qed.

Lemma fold_add_group (groups : list Group) : forall row : WorkTypeData,
  fold_left (fun row g => add_group g row) groups row
  = {| name := name row;
       規内 := fold_left add (map group_規内 groups) (規内 row);
       規外 := fold_left add (map group_規外 groups) (規外 row);
       計 := fold_left add (map group_計 groups) (計 row) |}.
Proof.
  induction groups as [|g groups IH]; intros row; [by destruct row|].
  cbn [fold_left map]. rewrite IH. reflexivity.
Qed.

Lemma group_of_fields (records : list WorkItem) (p : jsstring * jsstring) :
  group_of records p
  = {| group_projectCode := fst p; group_subworkCode := snd p;
       group_規内 := pair_hours inHours records p;
       group_規外 := pair_hours outHours records p;
       group_計 := pair_hours totalHours records p |}.
Proof. unfold group_of. rewrite fold_add_item. reflexivity. Qed.

Lemma grouped_by_pair_groups (records : list WorkItem) :
  map snd (grouped_by_pair records) = map (group_of records) (code_pairs records).
Proof.
  unfold grouped_by_pair, code_pairs.
  transitivity (map snd (map (fun p => (p, group_of records p))
                             (distinct (map code_pair records)))).
  - f_equal. exact (fold_update_entry code_pair empty_group add_item records).
  - rewrite map_map. reflexivity.
Qed.

Lemma fold_merge_step_rows (workCodes : list WorkCode) (groups : list Group) :
  map snd (fold_left (merge_step workCodes) groups [])
  = map (fun n => fold_left (fun row g => add_group g row)
                            (filter (fun g => workTypeName workCodes g = n) groups)
                            (empty_row n))
        (distinct (map (workTypeName workCodes) groups)).
Proof.
  transitivity (map snd (map (fun n => (n, fold_left (fun row g => add_group g row)
                            (filter (fun g => workTypeName workCodes g = n) groups)
                            (empty_row n)))
        (distinct (map (workTypeName workCodes) groups)))).
  - f_equal. exact (fold_update_entry (workTypeName workCodes) empty_row add_group groups).
  - rewrite map_map. reflexivity.
Qed.

Lemma category_hours_groups (hours : WorkItem -> number) (field : Group -> number)
    (workCodes : list WorkCode) (records : list WorkItem) (n : jsstring) :
  (forall p, field (group_of records p) = pair_hours hours records p) →
  fold_left add
    (map field (filter (fun g => workTypeName workCodes g = n)
                       (map (group_of records) (code_pairs records)))) zero
  = category_hours hours workCodes records n.
Proof.
  intros Hfield. unfold category_hours, sum_numbers. f_equal.
  rewrite filter_map_commute, map_map.
  rewrite (list_filter_iff _ (fun p => category_name workCodes p = n)).
  - apply map_ext. exact Hfield.
  - intros p. rewrite workTypeName_category_name, group_of_fields. cbn [group_projectCode
      group_subworkCode]. by destruct p.
Qed.

(** Where every project code is non-empty and free of underscores, the
    chart by category is this: the pairs ([projectCode], [subworkCode]) are
    taken in the order in which the records bring them, each is named by the
    major name of the first taxonomy entry for its sub-work code, else by
    that entry's sub-work name, else by a name made of the two codes; there
    is one row to a name, in the order in which the pairs bring the names,
    and each of its three figures is the sum, over the pairs of that name in
    their order, of the sum of the hours of the pair's records in their
    order. *)
Theorem aggregateByWorkType_category_rows (workItems : list WorkItem)
    (workCodes : list WorkCode) :
  Forall plain_project_code workItems →
  aggregateByWorkType workItems workCodes = category_rows workItems workCodes.
Proof.
  intros Hall.
  transitivity (aggregate_by_category workItems workCodes).
  { unfold aggregateByWorkType, aggregate_by_category.
    destruct workItems as [|item items]; [done|].
    destruct (grouped_by_pair_spec _ Hall) as [-> _]. by rewrite map_map. }
  unfold aggregate_by_category, category_rows.
  rewrite fold_merge_step_rows, grouped_by_pair_groups.
  rewrite map_map.
  rewrite (map_ext (fun p => workTypeName workCodes (group_of workItems p))
                   (category_name workCodes)).
  2:{ intros p. rewrite workTypeName_category_name, group_of_fields. by destruct p. }
  apply map_ext. intros n. rewrite fold_add_group. unfold empty_row.
  cbn [name 規内 規外 計].
  rewrite (category_hours_groups inHours), (category_hours_groups outHours),
    (category_hours_groups totalHours);
    [reflexivity|intros p; by rewrite group_of_fields..].
Qed.

Lemma aggregateByWorkType_category_rows_witness :
  Forall plain_project_code [work_1; work_2; work_3; work_1]
  ∧ aggregateByWorkType [work_1; work_2; work_3; work_1] [code_211; code_212]
    = category_rows [work_1; work_2; work_3; work_1] [code_211; code_212]
  ∧ category_rows [work_1; work_2; work_3; work_1] [code_211; code_212]
    = [{| name := lit "組立"; 規内 := of_decimal false 235 (-1);
          規外 := of_decimal false 35 (-1); 計 := of_Z 27 |};
       {| name := lit "工事S7001_999"; 規内 := of_decimal false 75 (-1);
          規外 := of_decimal false 5 (-1); 計 := of_Z 8 |}].
Proof.
  assert (Forall plain_project_code [work_1; work_2; work_3; work_1]) as H.
  { repeat constructor; try (apply (bool_decide_unpack _); by vm_compute); done. }
  split; [exact H|]. split.
  - exact (aggregateByWorkType_category_rows _ _ H).
  - by vm_compute.
Defined.

End CategoryRows.

(** ** Validation (utils/errorHandler.ts) *)

Section Validation.
Import ErrorHandler Examples.

Lemma push_if_nil (c : bool) (msg : jsstring) (l : list jsstring) :
  push_if c msg l = [] ↔ c = false ∧ l = [].
Proof.
  unfold push_if. destruct c.
  - split; [|by intros [? _]]. by intros [_ ?]%app_eq_nil.
  - tauto.
Qed.

Lemma length_zero_nil {A} (l : list A) : bool_decide (length l = 0%nat) = true ↔ l = [].
Proof. rewrite bool_decide_eq_true. by destruct l. Qed.

(** A file passes [validateFileType] exactly when its MIME type is one of
    the three allowed and it is no larger than 10 MiB, whatever its name;
    it carries a warning exactly when it is larger than 5 MiB, so that every
    file refused for its size is warned about as well. *)
Theorem validateFileType_spec (file : File) :
  (isValid (validateFileType file) = true
   ↔ file_type file ∈ allowedTypes ∧ file_size file <= 10485760)
  ∧ (vr_warnings (validateFileType file) ≠ [] ↔ 5242880 < file_size file)
  ∧ (isValid (validateFileType file) = true ↔ vr_errors (validateFileType file) = [])
  ∧ (length (vr_errors (validateFileType file)) <= 2)%nat.
Proof.
  unfold validateFileType. cbv zeta. cbn [isValid vr_errors vr_warnings].
  rewrite length_zero_nil, !push_if_nil.
  change maxSize with 10485760. change (5 * 1024 * 1024) with 5242880.
  split_and!.
  - rewrite negb_false_iff, bool_decide_eq_true, Z.ltb_ge. tauto.
  - rewrite Z.ltb_ge. split; [|lia]. intros H.
    destruct (decide (5242880 < file_size file)); [done|].
    exfalso. apply H. split; [lia|done].
  - done.
  - unfold push_if.
    destruct (negb _), (_ <? _); simpl; lia.
Qed.

Lemma not_a_number_or_negative_false (v : value) :
  not_a_number_or_negative v = false ↔ exists x, v = VNumber x ∧ ltb x zero = false.
Proof.
  destruct v; simpl; split; try done; try (by intros (? & ? & _)).
  - intros H. by eexists.
  - by intros (? & [= <-] & ?).
Qed.

(** [validateWorkItem] accepts an item exactly when its date, contractor,
    project code and sub-work code are truthy and its two hour figures are
    Numbers that are not below zero, of which NaN is one; for a typed record,
    when the four texts are non-empty and neither hour figure is below zero.
    The warnings play no part. *)
Theorem validateWorkItem_spec :
  (forall item : item_fields,
     isValid (validateWorkItem item) = true
     ↔ ToBoolean (item_workDate item) = true ∧ ToBoolean (item_contractorName item) = true
       ∧ ToBoolean (item_projectCode item) = true ∧ ToBoolean (item_subworkCode item) = true
       ∧ (exists x, item_inHours item = VNumber x ∧ ltb x zero = false)
       ∧ (exists y, item_outHours item = VNumber y ∧ ltb y zero = false))
  ∧ (forall item : WorkItem,
       isValid (validateWorkItem (fields_of item)) = true
       ↔ workDate item ≠ [] ∧ contractorName item ≠ [] ∧ projectCode item ≠ []
         ∧ subworkCode item ≠ [] ∧ ltb (inHours item) zero = false
         ∧ ltb (outHours item) zero = false)
  ∧ isValid (validateWorkItem
               (fields_of (with_hours work_1 NaN NaN NaN))) = true.
Proof.
  assert (forall item : item_fields,
     isValid (validateWorkItem item) = true
     ↔ ToBoolean (item_workDate item) = true ∧ ToBoolean (item_contractorName item) = true
       ∧ ToBoolean (item_projectCode item) = true ∧ ToBoolean (item_subworkCode item) = true
       ∧ (exists x, item_inHours item = VNumber x ∧ ltb x zero = false)
       ∧ (exists y, item_outHours item = VNumber y ∧ ltb y zero = false)) as Hspec.
  { intros item. unfold validateWorkItem. cbv zeta. cbn [isValid vr_errors vr_warnings].
    rewrite length_zero_nil, !push_if_nil, !negb_false_iff.
    rewrite !not_a_number_or_negative_false. tauto. }
  split_and!; [exact Hspec| |by vm_compute].
  intros item. rewrite Hspec. unfold fields_of.
  cbn [item_workDate item_contractorName item_projectCode item_subworkCode
       item_inHours item_outHours].
  assert (forall s : jsstring, ToBoolean (VString s) = true ↔ s ≠ []) as Hs
    by (intros []; simpl; split; done).
  rewrite !Hs. split.
  - intros (? & ? & ? & ? & (x & [= <-] & ?) & (y & [= <-] & ?)). tauto.
  - intros (? & ? & ? & ? & ? & ?). split_and!; eauto.
Qed.

End Validation.

(** ** What [detectColumns] maps to (utils/excelParser.ts) *)

Section ColumnsMore.
Import ExcelParser Examples.

Variable toLowerCase : jsstring -> jsstring.

Lemma validHeaders_elem (headers : list value) (h : jsstring) :
  h ∈ validHeaders headers ↔ h ≠ [] ∧ VString h ∈ headers.
Proof.
  unfold validHeaders. rewrite list_elem_of_In, in_flat_map. split.
  - intros (v & Hv & Hin). destruct v as [| | | |[|c r]]; simpl in Hin; try done.
    destruct Hin as [<-|[]]. split; [done|by apply list_elem_of_In].
  - intros [Hne Hin]. exists (VString h). split; [by apply list_elem_of_In|].
    destruct h; [done|]. by left.
Qed.

Lemma first_found_Some (candidates valid : list jsstring) (found : jsstring) :
  first_found toLowerCase candidates valid = Some found →
  found ∈ valid
  ∧ exists candidate, candidate ∈ candidates
                      ∧ header_matches toLowerCase candidate found = true.
Proof.
  induction candidates as [|c cs IH]; simpl; [done|].
  destruct (List.find _ valid) as [x|] eqn:Hfind.
  - intros [= ->]. apply find_some in Hfind as [Hin Hm].
    split; [by apply list_elem_of_In|]. exists c. split; [left|done].
  - intros (? & c' & ? & ?)%IH. split; [done|]. exists c'. split; [by right|done].
Qed.

Lemma detectColumns_lookup (headers : list value) (key : jsstring) :
  detectColumns toLowerCase headers !! key
  = match List.find (fun entry => bool_decide (fst entry = key)) COLUMN_CANDIDATES with
    | Some (_, candidates) => first_found toLowerCase candidates (validHeaders headers)
    | None => None
    end.
Proof.
  unfold detectColumns.
  rewrite fold_detect_lookup by apply COLUMN_CANDIDATES_NoDup.
  rewrite lookup_empty. destruct (List.find _ _) as [[k cs]|]; [|done].
  by destruct (first_found _ _ _).
Qed.

(** Whatever [detectColumns] maps a field to is one of the headers it was
    given, a non-empty string, which one of the field's own candidates
    matches; and only the eleven canonical fields are ever mapped. *)
Theorem detectColumns_sound (headers : list value) (key found : jsstring) :
  detectColumns toLowerCase headers !! key = Some found →
  VString found ∈ headers ∧ found ≠ []
  ∧ exists candidates candidate,
      (key, candidates) ∈ COLUMN_CANDIDATES ∧ candidate ∈ candidates
      ∧ header_matches toLowerCase candidate found = true.
Proof.
  rewrite detectColumns_lookup.
  destruct (List.find _ COLUMN_CANDIDATES) as [[k cs]|] eqn:Hfind; [|done].
  apply find_some in Hfind as [Hin Hk]. apply bool_decide_eq_true in Hk.
  simpl in Hk. subst k.
  intros (Hvalid & c & Hc & Hm)%first_found_Some.
  apply validHeaders_elem in Hvalid as [Hne Hh].
  split_and!; [done|done|]. exists cs, c. split_and!; [|done|done].
  by apply list_elem_of_In.
Qed.

Lemma includes_nil (s : jsstring) : includes s [] = true.
Proof. by destruct s. Qed.

(** A header that is blank once lower-cased and trimmed, a cell holding a
    space for one, is contained in every candidate: when it is the first of
    the valid headers, every one of the eleven fields is mapped to it. *)
Theorem detectColumns_blank_header (headers : list value) (h : jsstring)
    (rest : list jsstring) (key : jsstring) :
  validHeaders headers = h :: rest → trim (toLowerCase h) = [] →
  key ∈ map fst COLUMN_CANDIDATES →
  detectColumns toLowerCase headers !! key = Some h.
Proof.
  intros Hvalid Hblank Hkey. rewrite detectColumns_lookup, Hvalid.
  assert (forall c cs, first_found toLowerCase (c :: cs) (h :: rest) = Some h) as Hfirst.
  { intros c cs.
    assert (header_matches toLowerCase c h = true) as Hm.
    { unfold header_matches. cbv zeta. rewrite Hblank, includes_nil.
      by rewrite !orb_true_r. }
    simpl. by rewrite Hm. }
  revert Hkey. unfold COLUMN_CANDIDATES. cbn [map fst].
  rewrite !elem_of_cons, elem_of_nil.
  intros H; repeat destruct H as [H|H]; try done; subst key;
    match goal with |- context [List.find ?f ?l] =>
      let r := eval vm_compute in (List.find f l) in
      change (List.find f l) with r end;
    apply Hfirst.
Qed.

End ColumnsMore.

Section ColumnsExamples.
Import ExcelParser Examples.

Lemma detectColumns_sound_witness :
  detectColumns toLowerCase_basic [VString (lit "Work Date"); VNull] !! lit "workDate"
  = Some (lit "Work Date")
  ∧ VString (lit "Work Date") ∈ [VString (lit "Work Date"); VNull]
  ∧ lit "Work Date" ≠ [].
Proof.
  assert (detectColumns toLowerCase_basic [VString (lit "Work Date"); VNull] !! lit "workDate"
          = Some (lit "Work Date")) as H by by vm_compute.
  split; [exact H|].
  destruct (detectColumns_sound toLowerCase_basic _ _ _ H) as (H1 & H2 & _).
  by split.
Defined.

Lemma detectColumns_blank_header_witness :
  validHeaders [VNull; VString (lit " "); VString (lit "日付")] = [lit " "; lit "日付"]
  ∧ trim (toLowerCase_basic (lit " ")) = []
  ∧ lit "outHours" ∈ map fst COLUMN_CANDIDATES
  ∧ detectColumns toLowerCase_basic [VNull; VString (lit " "); VString (lit "日付")]
      !! lit "outHours" = Some (lit " ").
Proof.
  assert (lit "outHours" ∈ map fst COLUMN_CANDIDATES) as Hkey
    by (apply (bool_decide_unpack _); by vm_compute).
  split_and!; [by vm_compute|by vm_compute|exact Hkey|].
  apply (detectColumns_blank_header toLowerCase_basic _ (lit " ") [lit "日付"]);
    [by vm_compute|by vm_compute|exact Hkey].
Defined.

End ColumnsExamples.

(** ** The characters of the row hash (utils/excelParser.ts) *)

Section HashCharacters.
Import ExcelParser Examples.

Lemma radix36_char_alnum (d : Z) : (0 <= d < 36) → isAlphaNumeric (radix36_char d) = true.
Proof.
  intros Hd. unfold radix36_char, isAlphaNumeric, isDigit.
  destruct (Z.ltb_spec d 10).
  - replace (48 <=? 48 + d) with true by (symmetry; apply Z.leb_le; lia).
    replace (48 + d <=? 57) with true by (symmetry; apply Z.leb_le; lia).
    by rewrite orb_true_r.
  - replace (97 <=? 87 + d) with true by (symmetry; apply Z.leb_le; lia).
    replace (87 + d <=? 122) with true by (symmetry; apply Z.leb_le; lia).
    done.
Qed.

Lemma radix36_aux_alnum (fuel : nat) : forall n acc,
  Forall (fun c => isAlphaNumeric c = true) acc →
  Forall (fun c => isAlphaNumeric c = true) (radix36_aux fuel n acc).
Proof.
  induction fuel as [|fuel IH]; intros n acc Hacc; simpl; [done|].
  assert (Forall (fun c => isAlphaNumeric c = true) (radix36_char (n mod 36) :: acc)) as H.
  { constructor; [|done]. apply radix36_char_alnum. apply Z.mod_pos_bound. lia. }
  destruct (n <? 36); [done|by apply IH].
Qed.

Lemma radix36_aux_length (fuel : nat) : forall (k : nat) n acc,
  (0 <= n < 36 ^ Z.of_nat (S k)) →
  (length acc <= length (radix36_aux fuel n acc) <= S k + length acc)%nat.
Proof.
  induction fuel as [|fuel IH]; intros k n acc Hn; simpl; [lia|].
  destruct (Z.ltb_spec n 36); [simpl; lia|].
  destruct k as [|k]; [simpl in Hn; lia|].
  specialize (IH k (n / 36) (radix36_char (n mod 36) :: acc)).
  simpl length in IH.
  assert (0 <= n / 36 < 36 ^ Z.of_nat (S k)) as Hq.
  { rewrite Nat2Z.inj_succ, Z.pow_succ_r in Hn by lia.
    split; [apply Z.div_pos; lia|apply Z.div_lt_upper_bound; lia]. }
  specialize (IH Hq). lia.
Qed.

Lemma radix36_aux_keeps (fuel : nat) : forall n acc,
  acc ≠ [] → radix36_aux fuel n acc ≠ [].
Proof.
  induction fuel as [|fuel IH]; intros n acc Hacc; simpl; [done|].
  destruct (n <? 36); [done|]. by apply IH.
Qed.

Lemma radix36_aux_nonempty (fuel : nat) n acc : radix36_aux (S fuel) n acc ≠ [].
Proof. simpl. destruct (n <? 36); [done|]. by apply radix36_aux_keeps. Qed.

Lemma ToInt32_range (z : Z) : - 2 ^ 31 <= ToInt32 z < 2 ^ 31.
Proof.
  unfold ToInt32. cbv zeta.
  pose proof (Z.mod_pos_bound z (2 ^ 32) ltac:(lia)).
  destruct (Z.ltb_spec (z mod 2 ^ 32) (2 ^ 31)); lia.
Qed.

Lemma fallback_fold_range (key : jsstring) : forall h0,
  (- 2 ^ 31 <= h0 < 2 ^ 31) →
  - 2 ^ 31 <= fold_left (fun hash char => ToInt32 (ToInt32 (hash * 32) - hash + char)) key h0
    < 2 ^ 31.
Proof.
  induction key as [|c key IH]; intros h0 Hh0; simpl; [done|].
  apply IH, ToInt32_range.
Qed.

(** The row hash is made of ASCII letters and digits only, with either
    encoder; the one of the [catch] block has from one to six of them. *)
Theorem generateRowHash_characters (encoder_available : bool) (item : WorkItem) :
  Forall (fun c => isAlphaNumeric c = true) (generateRowHash encoder_available item)
  ∧ (1 <= length (generateRowHash false item) <= 6)%nat.
Proof.
  split.
  - unfold generateRowHash. cbv zeta. destruct encoder_available.
    + unfold strip_non_alphanumeric. apply Forall_forall. intros c Hc.
      apply list_elem_of_In, filter_In in Hc. tauto.
    + unfold fallback_hash, toString36. cbv zeta. by apply radix36_aux_alnum.
  - unfold generateRowHash, fallback_hash, toString36. cbv zeta.
    set (hash := fold_left _ (row_key item) 0).
    assert (- 2 ^ 31 <= hash < 2 ^ 31) as Hh by (apply fallback_fold_range; lia).
    split.
    + pose proof (radix36_aux_nonempty (Z.to_nat (Z.log2 (Z.abs hash))) (Z.abs hash) []) as Hne.
      destruct (radix36_aux _ _ _); [done|simpl; lia].
    + pose proof (radix36_aux_length (S (Z.to_nat (Z.log2 (Z.abs hash)))) 5 (Z.abs hash) [])
        as Hl.
      simpl length in Hl. apply Hl. change (36 ^ Z.of_nat 6) with 2176782336. lia.
Qed.

End HashCharacters.

(** ** Trimmed strings (utils/excelParser.ts) *)

Section Trimmed.
Import ExcelParser.

Lemma trimStart_shape (s : jsstring) :
  trimStart s = [] ∨ exists c r, trimStart s = c :: r ∧ isWhiteSpace c = false.
Proof.
  induction s as [|c s IH]; simpl; [by left|].
  destruct (isWhiteSpace c) eqn:Hc; [done|]. right. by exists c, s.
Qed.

Lemma trimStart_idempotent (s : jsstring) : trimStart (trimStart s) = trimStart s.
Proof.
  destruct (trimStart_shape s) as [->|(c & r & -> & Hc)]; [done|].
  by apply trimStart_head.
Qed.

Lemma trimStart_suffix (s : jsstring) : exists p, s = p ++ trimStart s.
Proof.
  induction s as [|c s [p IH]]; simpl; [by exists []|].
  destruct (isWhiteSpace c); [|by exists []]. exists (c :: p). simpl. by f_equal.
Qed.

Lemma trimEnd_prefix (s : jsstring) : exists q, s = trimEnd s ++ q.
Proof.
  unfold trimEnd. destruct (trimStart_suffix (rev s)) as [p Hp].
  exists (rev p). rewrite <- rev_app_distr, <- Hp. by rewrite rev_involutive.
Qed.

Lemma trimEnd_idempotent (s : jsstring) : trimEnd (trimEnd s) = trimEnd s.
Proof. unfold trimEnd. by rewrite rev_involutive, trimStart_idempotent. Qed.

Lemma trimStart_fixed_head (c : Z) (r : jsstring) :
  trimStart (c :: r) = c :: r → isWhiteSpace c = false.
Proof.
  simpl. destruct (isWhiteSpace c); [|done]. intros E.
  destruct (trimStart_suffix r) as [p Hp]. rewrite E in Hp.
  apply (f_equal length) in Hp. rewrite length_app in Hp. simpl in Hp. lia.
Qed.

Lemma trimStart_trimEnd (s : jsstring) :
  trimStart s = s → trimStart (trimEnd s) = trimEnd s.
Proof.
  intros Hs. destruct (trimEnd_prefix s) as [q Hq].
  destruct (trimEnd s) as [|c r] eqn:E; [done|].
  apply trimStart_head.
  destruct (trimStart_shape s) as [H|(c' & r' & H & Hc)]; rewrite Hs in H.
  - by rewrite H in Hq.
  - rewrite H in Hq. simpl in Hq. by injection Hq as ->.
Qed.

Lemma trim_idempotent (s : jsstring) : trim (trim s) = trim s.
Proof.
  unfold trim.
  rewrite (trimStart_trimEnd (trimStart s)) by apply trimStart_idempotent.
  apply trimEnd_idempotent.
Qed.

Lemma trimEnd_shape (s : jsstring) :
  trimEnd s = [] ∨ exists r d, trimEnd s = r ++ [d] ∧ isWhiteSpace d = false.
Proof.
  unfold trimEnd. destruct (trimStart_shape (rev s)) as [->|(c & r & -> & Hc)]; [by left|].
  right. exists (rev r), c. by split.
Qed.

Lemma trim_ends (s : jsstring) :
  (forall c, head (trim s) = Some c → isWhiteSpace c = false)
  ∧ (forall d, last (trim s) = Some d → isWhiteSpace d = false).
Proof.
  unfold trim.
  pose proof (trimStart_trimEnd (trimStart s) (trimStart_idempotent s)) as Hfix.
  destruct (trimEnd_shape (trimStart s)) as [E|(r & d & E & Hd)]; rewrite E in *.
  - by split.
  - split.
    + intros c Hc. destruct r as [|c' r]; simpl in Hc; injection Hc as <-; [done|].
      by apply (trimStart_fixed_head c' (r ++ [d])).
    + intros d'. rewrite last_snoc. by intros [= <-].
Qed.

(** What [parseString] gives is trimmed: it neither begins nor ends with
    white space, and [parseString] leaves it as it is. *)
Theorem parseString_trimmed (value : value) :
  parseString (VString (parseString value)) = parseString value
  ∧ (forall c, head (parseString value) = Some c → isWhiteSpace c = false)
  ∧ (forall d, last (parseString value) = Some d → isWhiteSpace d = false).
Proof.
  assert (forall s, parseString (VString s) = trim s) as Hstr.
  { intros [|c r]; [done|]. reflexivity. }
  split.
  - rewrite Hstr. unfold parseString. destruct (ToBoolean value); [|done].
    apply trim_idempotent.
  - unfold parseString. destruct (ToBoolean value); [apply trim_ends|by split].
Qed.

End Trimmed.

(** ** Reading a workbook (utils/excelParser.ts) *)

Section Workbook.
Import Effects ErrorHandler ExcelParser Rows Examples.

Variable hostDateParse : jsstring -> time_value.
Variable clock : nat -> Z.
Variable builtin_message : error -> jsstring.

Lemma bind_Returned {A B} (m : M A) (f : A -> M B) (k k' : nat) (b : B) :
  (m ≫= f) k = (Returned b, k') →
  exists a k1, m k = (Returned a, k1) ∧ f a k1 = (Returned b, k').
Proof.
  unfold mbind, M_bind. destruct (m k) as [[a|t] k1]; [|done]. intros H. by exists a, k1.
Qed.

Lemma ret_Returned {A} (a b : A) (k k' : nat) :
  (mret a : M A) k = (Returned b, k') → a = b ∧ k = k'.
Proof. by intros [= <- <-]. Qed.

Lemma fmap_Returned {A B} (f : A -> B) (m : M A) (k k' : nat) (b : B) :
  (f <$> m) k = (Returned b, k') → exists a, m k = (Returned a, k') ∧ b = f a.
Proof.
  unfold fmap, M_fmap. destruct (m k) as [[a|t] k1]; [|done]. intros [= <- <-]. by exists a.
Qed.

Lemma of_completion_Returned {A} (c : completion A) (k k' : nat) (a : A) :
  of_completion c k = (Returned a, k') → c = Normal a ∧ k' = k.
Proof. destruct c; [|done]. by intros [= <- <-]. Qed.

Lemma Date_now_Returned (k k' : nat) (now : Z) :
  Date_now clock k = (Returned now, k') → now = clock k ∧ k' = S k.
Proof. by intros [= <- <-]. Qed.

Lemma new_Date_toISOString_Returned (k k' : nat) (iso : jsstring) :
  new_Date_toISOString clock k = (Returned iso, k') →
  toISOString (TimeClipZ (clock k)) = Normal iso ∧ k' = S k.
Proof.
  unfold new_Date_toISOString. destruct (toISOString _); [|done]. by intros [= <- <-].
Qed.

Lemma workItem_of_row_Returned (headers : list jsstring) (row : list value)
    (index k k' : nat) (item : WorkItem) :
  workItem_of_row hostDateParse clock headers (positionalMapping headers) row index k
  = (Returned item, k') →
  read_from_row hostDateParse headers row item
  ∧ id item = lit "work_" ++ dec_digits (clock k) ++ [95] ++ dec_digits (Z.of_nat index)
  ∧ toISOString (TimeClipZ (clock (S k))) = Normal (createdAt item)
  ∧ k' = S (S k).
Proof.
  unfold workItem_of_row. cbv zeta.
  intros (date & k1 & Hdate & H)%bind_Returned.
  apply bind_Returned in H as (now & k2 & Hnow & H).
  apply bind_Returned in H as (iso & k3 & Hiso & H).
  apply of_completion_Returned in Hdate as [Hparse ->].
  apply Date_now_Returned in Hnow as [-> ->].
  apply new_Date_toISOString_Returned in Hiso as [Hiso ->].
  apply ret_Returned in H as [<- <-].
  unfold read_from_row. cbv zeta.
  cbn [id workDate contractorId contractorName reporter headcount employmentCode
       projectId projectCode subareaCode subworkCode inHours outHours totalHours
       srcHash createdAt].
  split_and!; try reflexivity; [|exact Hiso].
  exists date. split; [exact Hparse|reflexivity].
Qed.

Lemma workItem_of_row_Raised (headers : list jsstring) (row : list value)
    (index k : nat) (e : error) :
  parseDate hostDateParse
    (item_cell headers (positionalMapping headers) row (lit "workDate")) = Throw e →
  workItem_of_row hostDateParse clock headers (positionalMapping headers) row index k
  = (Raised (Builtin e), k).
Proof. intros H. unfold workItem_of_row. cbv zeta. by rewrite H. Qed.

Lemma map_rows_Returned {B} (f : list value -> nat -> M B) (rows : sheet) :
  forall (index k k' : nat) (xs : list B),
    map_rows f rows index k = (Returned xs, k') →
    length xs = length rows
    ∧ forall j row, rows !! j = Some row →
        exists x kj kj', xs !! j = Some x
                         ∧ f row (index + j)%nat kj = (Returned x, kj').
Proof.
  induction rows as [|row rows IH]; intros index k k' xs; simpl.
  - intros [= <- <-]. split; [done|]. intros j r Hj. done.
  - intros (x & k1 & Hx & H)%bind_Returned.
    apply bind_Returned in H as (xs' & k2 & Hxs & H). injection H as <- <-.
    apply IH in Hxs as [Hlen Hrows]. split; [simpl; by rewrite Hlen|].
    intros [|j] r Hj; simpl in Hj.
    + injection Hj as <-. exists x, k, k1. rewrite Nat.add_0_r. by split.
    + destruct (Hrows j r Hj) as (y & kj & kj' & Hy & Hf).
      exists y, kj, kj'. split; [done|].
      by replace (index + S j)%nat with (S index + j)%nat by lia.
Qed.

Lemma map_rows_length {B} (f : list value -> nat -> M B) (rows : sheet)
    (index k k' : nat) (xs : list B) :
  map_rows f rows index k = (Returned xs, k') → length xs = length rows.
Proof. by intros [? _]%map_rows_Returned. Qed.

Lemma parse_workbook_Returned (wb : workbook) (k k' : nat) (parsed : ParsedFile) :
  parse_workbook hostDateParse clock wb k = (Returned parsed, k') →
  exists dailyData k1,
    dailyDataSheet wb = Some dailyData
    ∧ map_rows (workItem_of_row hostDateParse clock (header_row dailyData 4)
                  (positionalMapping (header_row dailyData 4)))
               (List.filter has_content (drop 5 dailyData)) 0 k
      = (Returned (parsed_workItems parsed), k1)
    ∧ parsed_columnMapping parsed = positionalMapping (header_row dailyData 4)
    ∧ length (parsed_workCodes parsed)
      = match find_sheet wb (lit "コード") with
        | Some codesData => length (List.filter has_content (drop 3 codesData))
        | None => 0%nat
        end.
Proof.
  unfold parse_workbook. destruct (dailyDataSheet wb) as [dailyData|]; [|done].
  cbv zeta. intros (items & k1 & Hitems & H)%bind_Returned.
  apply bind_Returned in H as (codes & k2 & Hcodes & H).
  apply ret_Returned in H as [<- <-]. exists dailyData, k1.
  split_and!; [done|done|done|]. cbn [parsed_workCodes].
  destruct (find_sheet wb _) as [codesData|].
  - by apply map_rows_length in Hcodes.
  - by apply ret_Returned in Hcodes as [<- _].
Qed.

Lemma rejection_Returned (code : error_code) (message : jsstring) (details : option thrown)
    (k k' : nat) (x : ParsedFile + AppError) :
  rejection clock code message details k = (Returned x, k') →
  exists appError, x = inr appError ∧ err_code appError = ERROR_CODES code
                   ∧ err_message appError
                     = match message with [] => ERROR_MESSAGES code | _ => message end
                   ∧ err_details appError = details
                   ∧ toISOString (TimeClipZ (clock k)) = Normal (err_timestamp appError)
                   ∧ TimeClipZ (clock (S k)) ≠ None
                   ∧ k' = S (S k).
Proof.
  unfold rejection.
  intros (appError & k1 & Hcreate & H)%bind_Returned.
  apply bind_Returned in H as ([] & k2 & Hlog & H).
  apply ret_Returned in H as [<- <-].
  unfold createError in Hcreate.
  apply bind_Returned in Hcreate as (timestamp & k3 & Hts & H).
  apply new_Date_toISOString_Returned in Hts as [Hts ->].
  apply ret_Returned in H as [<- <-].
  unfold logError in Hlog.
  apply bind_Returned in Hlog as (ts2 & k4 & Hts2 & H).
  apply new_Date_toISOString_Returned in Hts2 as [Hts2 ->].
  apply ret_Returned in H as [_ <-].
  eexists. split_and!; try reflexivity; [by destruct message|exact Hts|].
  intros E. by rewrite E in Hts2.
Qed.

Lemma parseExcelFile_Resolved (wb : workbook) (k k' : nat) (parsed : ParsedFile) :
  parseExcelFile hostDateParse clock builtin_message (Workbook wb) k = (Resolved parsed, k') →
  parse_workbook hostDateParse clock wb k = (Returned parsed, k').
Proof.
  unfold parseExcelFile, onload, try_catch. cbv zeta.
  unfold fmap at 1, M_fmap at 1.
  destruct (parse_workbook _ _ wb k) as [[r|t] k1].
  - by intros [= <- <-].
  - destruct (rejection _ _ _ _ _) as [[[r|e]|t'] k2] eqn:Hrej; try done.
    by apply rejection_Returned in Hrej as (? & ? & _).
Qed.

(** The items of a resolved parse, row by row, with the clock readings that
    went into each. *)
Lemma resolved_items (wb : workbook) (k k' : nat) (parsed : ParsedFile) :
  parseExcelFile hostDateParse clock builtin_message (Workbook wb) k = (Resolved parsed, k') →
  exists dailyData,
    dailyDataSheet wb = Some dailyData
    ∧ length (parsed_workItems parsed) = length (List.filter has_content (drop 5 dailyData))
    ∧ (forall j row, List.filter has_content (drop 5 dailyData) !! j = Some row →
         exists item kj,
           parsed_workItems parsed !! j = Some item
           ∧ read_from_row hostDateParse (header_row dailyData 4) row item
           ∧ id item = lit "work_" ++ dec_digits (clock kj) ++ [95]
                         ++ dec_digits (Z.of_nat j))
    ∧ parsed_columnMapping parsed = positionalMapping (header_row dailyData 4)
    ∧ length (parsed_workCodes parsed)
      = match find_sheet wb (lit "コード") with
        | Some codesData => length (List.filter has_content (drop 3 codesData))
        | None => 0%nat
        end.
Proof.
  intros (dailyData & k1 & Hsheet & Hitems & Hmapping & Hcodes)%parseExcelFile_Resolved
                                                              %parse_workbook_Returned.
  exists dailyData. apply map_rows_Returned in Hitems as [Hlen Hrows].
  split_and!; [done|done| |done|done].
  intros j row Hrow. destruct (Hrows j row Hrow) as (item & kj & kj' & Hitem & Hf).
  apply workItem_of_row_Returned in Hf as (Hread & Hid & _).
  exists item, kj. by split_and!.
Qed.

(** When [parseExcelFile] resolves, its work items are the non-blank rows
    below the fifth row of the daily sheet, one record to a row and in the
    order of the sheet, each read from its row through the headers of the
    fifth row; its codes are as many as the non-blank rows below the third
    row of the code sheet, none without that sheet. *)
Theorem parseExcelFile_rows (wb : workbook) (k k' : nat) (parsed : ParsedFile) :
  parseExcelFile hostDateParse clock builtin_message (Workbook wb) k = (Resolved parsed, k') →
  exists dailyData,
    dailyDataSheet wb = Some dailyData
    ∧ Forall2 (read_from_row hostDateParse (header_row dailyData 4))
              (List.filter has_content (drop 5 dailyData)) (parsed_workItems parsed)
    ∧ parsed_columnMapping parsed = positionalMapping (header_row dailyData 4)
    ∧ length (parsed_workCodes parsed)
      = match find_sheet wb (lit "コード") with
        | Some codesData => length (List.filter has_content (drop 3 codesData))
        | None => 0%nat
        end.
Proof.
  intros (dailyData & Hsheet & Hlen & Hrows & Hmapping & Hcodes)%resolved_items.
  exists dailyData. split_and!; [done| |done|done].
  apply Forall2_same_length_lookup_2; [done|].
  intros j row item Hrow Hitem.
  destruct (Hrows j row Hrow) as (x & kj & Hx & Hread & _).
  rewrite Hitem in Hx. by injection Hx as <-.
Qed.

Lemma ltb_zero_antisym (x : number) : ltb zero x = true → ltb x zero = false.
Proof. by destruct x as [[]|[]| |[] m e]. Qed.

Lemma Math_max_zero (x : number) : ltb (Math_max zero x) zero = false.
Proof.
  unfold Math_max. cbn [isNaN zero orb].
  destruct (isNaN x) eqn:Hnan; [done|].
  destruct (ltb zero x) eqn:H1; [by apply ltb_zero_antisym|].
  by destruct (ltb x zero).
Qed.

(** The hours of a parsed record: regular and overtime hours and head count
    are never NaN, and the total is the larger of zero and their sum,
    whatever the sheet's own total column holds: it is never below zero. *)
Theorem parseExcelFile_hours (wb : workbook) (k k' : nat) (parsed : ParsedFile)
    (item : WorkItem) :
  parseExcelFile hostDateParse clock builtin_message (Workbook wb) k = (Resolved parsed, k') →
  item ∈ parsed_workItems parsed →
  isNaN (inHours item) = false ∧ isNaN (outHours item) = false
  ∧ isNaN (headcount item) = false
  ∧ totalHours item = Math_max zero (add (inHours item) (outHours item))
  ∧ ltb (totalHours item) zero = false.
Proof.
  intros (dailyData & Hsheet & Hlen & Hrows & _)%resolved_items Hin.
  apply list_elem_of_lookup in Hin as [j Hj].
  destruct (lookup_lt_is_Some_2 (List.filter has_content (drop 5 dailyData)) j) as [row Hrow].
  { rewrite <- Hlen. by apply lookup_lt_Some in Hj. }
  destruct (Hrows j row Hrow) as (x & kj & Hx & Hread & _).
  rewrite Hj in Hx. injection Hx as <-.
  destruct Hread as (_ & _ & _ & _ & Hh & _ & _ & _ & _ & _ & Hi & Ho & Ht & _).
  rewrite Ht at 2. rewrite Hi at 1. rewrite Ho at 1. rewrite Hh.
  split_and!; [apply parseNumber_not_NaN..|done|apply Math_max_zero].
Qed.

Lemma id_injective (t1 t2 : Z) (j1 j2 : nat) :
  lit "work_" ++ dec_digits t1 ++ [95] ++ dec_digits (Z.of_nat j1)
  = lit "work_" ++ dec_digits t2 ++ [95] ++ dec_digits (Z.of_nat j2) →
  j1 = j2.
Proof.
  intros E%app_inv_head.
  assert (forall n, 95 ∉ dec_digits n) as Hd.
  { intros n Hin. pose proof (dec_digits_all_digits n) as H.
    rewrite forallb_forall in H. apply list_elem_of_In, H in Hin. done. }
  apply group_key_injective in E as [_ E]; [|apply Hd..].
  apply (f_equal digits_value) in E. rewrite !digits_value_dec_digits in E by lia. lia.
Qed.

(** The ids of the records of one file are pairwise distinct. *)
Theorem parseExcelFile_ids (wb : workbook) (k k' : nat) (parsed : ParsedFile) :
  parseExcelFile hostDateParse clock builtin_message (Workbook wb) k = (Resolved parsed, k') →
  NoDup (map id (parsed_workItems parsed)).
Proof.
  intros (dailyData & Hsheet & Hlen & Hrows & _)%resolved_items.
  apply NoDup_alt. intros j1 j2 x H1 H2.
  apply list_lookup_fmap_Some in H1 as (item1 & -> & H1).
  apply list_lookup_fmap_Some in H2 as (item2 & Hid & H2).
  destruct (lookup_lt_is_Some_2 (List.filter has_content (drop 5 dailyData)) j1) as [r1 Hr1].
  { rewrite <- Hlen. by apply lookup_lt_Some in H1. }
  destruct (lookup_lt_is_Some_2 (List.filter has_content (drop 5 dailyData)) j2) as [r2 Hr2].
  { rewrite <- Hlen. by apply lookup_lt_Some in H2. }
  destruct (Hrows j1 r1 Hr1) as (x1 & t1 & Hx1 & _ & Hid1).
  destruct (Hrows j2 r2 Hr2) as (x2 & t2 & Hx2 & _ & Hid2).
  rewrite H1 in Hx1. injection Hx1 as <-. rewrite H2 in Hx2. injection Hx2 as <-.
  rewrite Hid1, Hid2 in Hid. by apply id_injective in Hid.
Qed.

Lemma parseExcelFile_Returned (wb : workbook) (k k' : nat) (parsed : ParsedFile) :
  parse_workbook hostDateParse clock wb k = (Returned parsed, k') →
  parseExcelFile hostDateParse clock builtin_message (Workbook wb) k = (Resolved parsed, k').
Proof.
  intros H. unfold parseExcelFile, onload, try_catch. cbv zeta.
  unfold fmap at 1, M_fmap at 1. by rewrite H.
Qed.

(** A daily sheet of five rows or fewer, such as one with its headers on the
    first row, gives no work item; without a code sheet the promise resolves
    at once, with nothing but the column mapping of the fifth row. *)
Theorem parseExcelFile_short_sheet (wb : workbook) (dailyData : sheet) (k : nat) :
  dailyDataSheet wb = Some dailyData → (length dailyData <= 5)%nat →
  (forall parsed k',
     parseExcelFile hostDateParse clock builtin_message (Workbook wb) k
     = (Resolved parsed, k') →
     parsed_workItems parsed = [])
  ∧ (find_sheet wb (lit "コード") = None →
     parseExcelFile hostDateParse clock builtin_message (Workbook wb) k
     = (Resolved {| parsed_workItems := []; parsed_workCodes := [];
                    parsed_columnMapping := positionalMapping (header_row dailyData 4) |},
        k)).
Proof.
  intros Hsheet Hshort. split.
  - intros parsed k' (d & Hd & Hlen & _)%resolved_items.
    rewrite Hsheet in Hd. injection Hd as <-.
    rewrite drop_ge in Hlen by done. by destruct (parsed_workItems parsed).
  - intros Hcodes. apply parseExcelFile_Returned.
    unfold parse_workbook. rewrite Hsheet. cbv zeta.
    rewrite drop_ge by done. by rewrite Hcodes.
Qed.

Lemma toISOString_valid (t : Z) :
  valid_time t → exists iso, toISOString (TimeClipZ t) = Normal iso.
Proof.
  unfold valid_time, TimeClipZ. intros Ht.
  rewrite (proj2 (Z.leb_le _ _) Ht). unfold toISOString. by eexists.
Qed.

Lemma rejection_valid (code : error_code) (message : jsstring) (details : option thrown)
    (k : nat) :
  message ≠ [] → valid_time (clock k) → valid_time (clock (S k)) →
  exists timestamp,
    toISOString (TimeClipZ (clock k)) = Normal timestamp
    ∧ rejection clock code message details k
      = (Returned (inr {| err_code := ERROR_CODES code; err_message := message;
                          err_details := details; err_timestamp := timestamp |}),
         S (S k)).
Proof.
  intros Hm (ts & Hts)%toISOString_valid (ts2 & Hts2)%toISOString_valid.
  exists ts. split; [done|].
  unfold rejection, createError, logError, mbind, M_bind, new_Date_toISOString.
  rewrite Hts. unfold mret at 1, M_ret at 1. rewrite Hts2.
  by destruct message.
Qed.

Lemma onload_throw (t : thrown) (k : nat) (timestamp : jsstring) :
  valid_time (clock k) → valid_time (clock (S k)) →
  toISOString (TimeClipZ (clock k)) = Normal timestamp →
  onload clock builtin_message (throw t) k
  = (Returned (inr {| err_code := lit "EXCEL_PARSE_ERROR";
                      err_message := lit "Excelファイルの解析に失敗しました: "
                                       ++ message_of builtin_message t;
                      err_details := Some t; err_timestamp := timestamp |}),
     S (S k)).
Proof.
  intros Hk Hk' Hts.
  destruct (rejection_valid EXCEL_PARSE_ERROR
              (lit "Excelファイルの解析に失敗しました: " ++ message_of builtin_message t)
              (Some t) k) as (ts' & Hts' & H2); [by vm_compute|done|done|].
  rewrite Hts in Hts'. injection Hts' as <-.
  unfold onload, try_catch. unfold fmap at 1, M_fmap at 1, throw. exact H2.
Qed.

Lemma parse_workbook_nil :
  parse_workbook hostDateParse clock []
  = throw (ErrorObject (lit "日報データシートが見つかりません")).
Proof. reflexivity. Qed.

(** How [parseExcelFile] fails, the clock being in order: a file that cannot
    be read is rejected with the code FILE_READ_ERROR and that code's own
    message; a file that cannot be decoded, and a workbook without any sheet,
    with the code EXCEL_PARSE_ERROR and the message of what was thrown
    behind a fixed prefix, the thrown error kept as the details. Each
    rejection reads the clock twice. *)
Theorem parseExcelFile_rejections (k : nat) :
  valid_time (clock k) → valid_time (clock (S k)) →
  exists timestamp,
    toISOString (TimeClipZ (clock k)) = Normal timestamp
    ∧ parseExcelFile hostDateParse clock builtin_message Unreadable k
      = (Rejected {| err_code := lit "FILE_READ_ERROR";
                     err_message := lit "ファイルの読み込みに失敗しました";
                     err_details := None; err_timestamp := timestamp |}, S (S k))
    ∧ parseExcelFile hostDateParse clock builtin_message (Workbook []) k
      = (Rejected {| err_code := lit "EXCEL_PARSE_ERROR";
                     err_message := lit "Excelファイルの解析に失敗しました: "
                                      ++ lit "日報データシートが見つかりません";
                     err_details := Some (ErrorObject (lit "日報データシートが見つかりません"));
                     err_timestamp := timestamp |}, S (S k))
    ∧ (forall t,
         parseExcelFile hostDateParse clock builtin_message (Corrupt t) k
         = (Rejected {| err_code := lit "EXCEL_PARSE_ERROR";
                        err_message := lit "Excelファイルの解析に失敗しました: "
                                         ++ message_of builtin_message t;
                        err_details := Some t; err_timestamp := timestamp |}, S (S k))).
Proof.
  intros Hk Hk'.
  destruct (rejection_valid FILE_READ_ERROR (lit "ファイルの読み込みに失敗しました") None k)
    as (ts & Hts & H1); [by vm_compute|done|done|].
  exists ts. split; [done|]. split_and!.
  - unfold parseExcelFile, onerror. cbv zeta. by rewrite H1.
  - unfold parseExcelFile. cbv zeta.
    by rewrite parse_workbook_nil, (onload_throw _ k ts).
  - intros t. unfold parseExcelFile. cbv zeta.
    by rewrite (onload_throw _ k ts).
Qed.

Lemma bad_date_unresolved (wb : workbook) (dailyData : sheet) (row : list value)
    (e : error) (k : nat) :
  dailyDataSheet wb = Some dailyData →
  row ∈ List.filter has_content (drop 5 dailyData) →
  parseDate hostDateParse
    (item_cell (header_row dailyData 4) (positionalMapping (header_row dailyData 4))
       row (lit "workDate")) = Throw e →
  is_resolved (fst (parseExcelFile hostDateParse clock builtin_message (Workbook wb) k))
  = false.
Proof.
  intros Hsheet Hrow Hthrow.
  destruct (parseExcelFile _ _ _ _ k) as [[parsed|appError|] k'] eqn:H; [|done..].
  exfalso. apply resolved_items in H as (d & Hd & _ & Hrows & _).
  rewrite Hsheet in Hd. injection Hd as <-.
  apply list_elem_of_lookup in Hrow as [j Hj].
  destruct (Hrows j row Hj) as (item & kj & _ & ((date & Hdate & _) & _) & _).
  by rewrite Hthrow in Hdate.
Qed.

Lemma workbook_rejection_code (wb : workbook) (k : nat) (appError : AppError) :
  is_rejected (fst (parseExcelFile hostDateParse clock builtin_message (Workbook wb) k))
  = Some appError →
  err_code appError = lit "EXCEL_PARSE_ERROR".
Proof.
  unfold parseExcelFile, onload, try_catch. cbv zeta.
  unfold fmap at 1, M_fmap at 1.
  destruct (parse_workbook _ _ wb k) as [[r|t] k1]; [done|].
  destruct (rejection _ _ _ _ _) as [[[r|e']|t'] k2] eqn:Hrej; try done.
  apply rejection_Returned in Hrej as (x & [= ->] & Hcode & _).
  by intros [= <-].
Qed.

(** With a clock in order the promise of [parseExcelFile] is settled. *)
Lemma parseExcelFile_settled (content : file_content) (k : nat) :
  (forall n, valid_time (clock n)) →
  fst (parseExcelFile hostDateParse clock builtin_message content k) ≠ Pending.
Proof.
  intros Hclock.
  assert (forall t k1, exists x, onload clock builtin_message (throw t) k1
                                 = (Returned (inr x), S (S k1))) as Hthrow.
  { intros t k1. destruct (toISOString_valid _ (Hclock k1)) as [ts Hts].
    eexists. by apply (onload_throw t k1 ts). }
  destruct content as [|t|wb]; unfold parseExcelFile; cbv zeta.
  - destruct (rejection_valid FILE_READ_ERROR (lit "ファイルの読み込みに失敗しました") None k)
      as (ts & _ & H); [by vm_compute|done|done|].
    unfold onerror. by rewrite H.
  - destruct (Hthrow t k) as [x ->]. done.
  - unfold onload, try_catch. unfold fmap at 1, M_fmap at 1.
    destruct (parse_workbook _ _ wb k) as [[r|t] k1]; [done|].
    destruct (Hthrow t k1) as [x Hx]. revert Hx.
    unfold onload, try_catch. unfold fmap at 1, M_fmap at 1, throw. by intros ->.
Qed.

(** One date that [parseDate] throws on, in any non-blank row, and the
    whole file is refused: the promise does not resolve, and if it is
    rejected, it is with the code EXCEL_PARSE_ERROR. *)
Theorem parseExcelFile_bad_date (wb : workbook) (dailyData : sheet) (row : list value)
    (e : error) (k : nat) :
  dailyDataSheet wb = Some dailyData →
  row ∈ List.filter has_content (drop 5 dailyData) →
  parseDate hostDateParse
    (item_cell (header_row dailyData 4) (positionalMapping (header_row dailyData 4))
       row (lit "workDate")) = Throw e →
  is_resolved (fst (parseExcelFile hostDateParse clock builtin_message (Workbook wb) k))
  = false
  ∧ (forall appError,
       is_rejected (fst (parseExcelFile hostDateParse clock builtin_message (Workbook wb) k))
       = Some appError →
       err_code appError = lit "EXCEL_PARSE_ERROR").
Proof.
  intros Hsheet Hrow Hthrow. split.
  - by apply (bad_date_unresolved wb dailyData row e).
  - intros appError. apply workbook_rejection_code.
Qed.

End Workbook.

Section WorkbookExamples.
Import Effects ErrorHandler ExcelParser Rows Examples.

Lemma sample_workbook_resolves :
  parseExcelFile strict_host sample_clock sample_message (Workbook sample_workbook) 0
  = (Resolved sample_parsed, 6%nat).
Proof. by vm_compute. Defined.

Lemma parseExcelFile_rows_witness :
  parseExcelFile strict_host sample_clock sample_message (Workbook sample_workbook) 0
  = (Resolved sample_parsed, 6%nat)
  ∧ Forall2 (read_from_row strict_host (header_row sample_daily 4))
            [sample_row_1; sample_row_2] (parsed_workItems sample_parsed)
  ∧ length (parsed_workCodes sample_parsed) = 2%nat.
Proof.
  split; [exact sample_workbook_resolves|].
  destruct (parseExcelFile_rows strict_host sample_clock sample_message sample_workbook
              0 6 sample_parsed sample_workbook_resolves)
    as (dailyData & Hsheet & Hrows & _ & Hcodes).
  assert (dailyData = sample_daily) as -> by (by injection Hsheet).
  split; [exact Hrows|exact Hcodes].
Defined.

Lemma parseExcelFile_hours_witness :
  parseExcelFile strict_host sample_clock sample_message (Workbook sample_workbook) 0
  = (Resolved sample_parsed, 6%nat)
  ∧ exists item,
      parsed_workItems sample_parsed !! 1%nat = Some item
      ∧ inHours item = of_decimal false 75 (-1) ∧ outHours item = of_Z (-9)
      ∧ totalHours item = zero
      ∧ ltb (totalHours item) zero = false.
Proof.
  split; [exact sample_workbook_resolves|].
  destruct (parsed_workItems sample_parsed !! 1%nat) as [item|] eqn:Hitem; [|done].
  exists item. split; [reflexivity|].
  assert (item ∈ parsed_workItems sample_parsed) as Hin
    by by apply list_elem_of_lookup_2 in Hitem.
  destruct (parseExcelFile_hours strict_host sample_clock sample_message sample_workbook
              0 6 sample_parsed item sample_workbook_resolves Hin) as (_ & _ & _ & _ & Hlt).
  injection Hitem as <-. by split_and!.
Defined.

Lemma parseExcelFile_ids_witness :
  parseExcelFile strict_host sample_clock sample_message (Workbook sample_workbook) 0
  = (Resolved sample_parsed, 6%nat)
  ∧ NoDup (map id (parsed_workItems sample_parsed)).
Proof.
  split; [exact sample_workbook_resolves|].
  exact (parseExcelFile_ids strict_host sample_clock sample_message sample_workbook
           0 6 sample_parsed sample_workbook_resolves).
Defined.

Lemma parseExcelFile_short_sheet_witness :
  dailyDataSheet [(lit "Sheet1", [sample_headers; sample_row_1; sample_row_2])]
  = Some [sample_headers; sample_row_1; sample_row_2]
  ∧ parseExcelFile strict_host sample_clock sample_message
      (Workbook [(lit "Sheet1", [sample_headers; sample_row_1; sample_row_2])]) 0
    = (Resolved {| parsed_workItems := []; parsed_workCodes := [];
                   parsed_columnMapping := ∅ |}, 0%nat).
Proof.
  assert (dailyDataSheet [(lit "Sheet1", [sample_headers; sample_row_1; sample_row_2])]
          = Some [sample_headers; sample_row_1; sample_row_2]) as Hsheet by by vm_compute.
  split; [exact Hsheet|].
  apply (proj2 (parseExcelFile_short_sheet strict_host sample_clock sample_message
                  _ _ 0 Hsheet ltac:(simpl; lia))).
  by vm_compute.
Defined.

Lemma parseExcelFile_rejections_witness :
  valid_time (sample_clock 0) ∧ valid_time (sample_clock 1)
  ∧ exists timestamp,
      timestamp = lit "2025-01-15T00:00:00.000Z"
      ∧ err_message <$> is_rejected (fst (parseExcelFile strict_host sample_clock sample_message
                                            (Workbook []) 0))
        = Some (lit "Excelファイルの解析に失敗しました: 日報データシートが見つかりません").
Proof.
  assert (valid_time (sample_clock 0)) as H0 by (unfold valid_time; by vm_compute).
  assert (valid_time (sample_clock 1)) as H1 by (unfold valid_time; by vm_compute).
  split_and!; [exact H0|exact H1|].
  destruct (parseExcelFile_rejections strict_host sample_clock sample_message 0 H0 H1)
    as (ts & Hts & _ & -> & _).
  exists ts. split; [|by vm_compute].
  vm_compute in Hts. by injection Hts as <-.
Defined.

Lemma parseExcelFile_bad_date_witness :
  dailyDataSheet bad_workbook = Some (sample_daily ++ [[VString (lit "100025570")]])
  ∧ [VString (lit "100025570")]
    ∈ List.filter has_content (drop 5 (sample_daily ++ [[VString (lit "100025570")]]))
  ∧ is_resolved (fst (parseExcelFile strict_host sample_clock sample_message
                        (Workbook bad_workbook) 0)) = false.
Proof.
  assert (dailyDataSheet bad_workbook = Some (sample_daily ++ [[VString (lit "100025570")]]))
    as Hsheet by by vm_compute.
  assert ([VString (lit "100025570")]
          ∈ List.filter has_content (drop 5 (sample_daily ++ [[VString (lit "100025570")]])))
    as Hrow.
  { apply list_elem_of_In, filter_In. split; [|by vm_compute].
    simpl. right. right. right. by left. }
  split_and!; [exact Hsheet|exact Hrow|].
  apply (proj1 (parseExcelFile_bad_date strict_host sample_clock sample_message bad_workbook
                  _ _ RangeError 0 Hsheet Hrow ltac:(by vm_compute))).
Defined.

End WorkbookExamples.

(** ** The columns that are read (utils/excelParser.ts) *)

Section Positions.
Import Effects ErrorHandler ExcelParser Rows Examples.

Lemma COLUMN_POSITIONS_NoDup : NoDup (map fst COLUMN_POSITIONS).
Proof. apply (bool_decide_unpack _). by vm_compute. Qed.

Lemma fold_positions_lookup (headers : list jsstring) (table : list (jsstring * nat)) :
  forall (mapping : gmap jsstring jsstring) (key : jsstring) (p : nat),
    NoDup (map fst table) → (key, p) ∈ table →
    fold_left
      (fun mapping '(key, i) =>
         match headers !! i with
         | Some (c :: r) => <[key := c :: r]> mapping
         | _ => mapping
         end) table mapping !! key
    = match headers !! p with
      | Some (c :: r) => Some (c :: r)
      | _ => mapping !! key
      end.
Proof.
  induction table as [|[k i] table IH]; intros mapping key p Hnd Hin; simpl.
  { by apply elem_of_nil in Hin. }
  apply NoDup_cons in Hnd as [Hk Hnd].
  apply elem_of_cons in Hin as [[= <- <-]|Hin].
  - assert (forall m : gmap jsstring jsstring,
              fold_left (fun mapping '(key, i) =>
                           match headers !! i with
                           | Some (c :: r) => <[key := c :: r]> mapping
                           | _ => mapping
                           end) table m !! key = m !! key) as Hskip.
    { clear -Hk. induction table as [|[k' i'] table IH]; intros m; simpl; [done|].
      rewrite IH by (intros ?; apply Hk; simpl; by right).
      destruct (headers !! i') as [[|c r]|]; try done.
      apply lookup_insert_ne. intros ->. apply Hk. simpl. left. }
    rewrite Hskip. destruct (headers !! p) as [[|c r]|]; try done.
    by rewrite lookup_insert_eq.
  - rewrite (IH _ key p) by done.
    destruct (headers !! p) as [[|c r]|]; try done;
      destruct (headers !! i) as [[|c' r']|]; try done;
      apply lookup_insert_ne; intros ->; apply Hk;
      apply list_elem_of_fmap; by exists (key, p).
Qed.

Lemma positionalMapping_lookup (headers : list jsstring) (key : jsstring) (p : nat) :
  (key, p) ∈ COLUMN_POSITIONS →
  positionalMapping headers !! key
  = match headers !! p with
    | Some (c :: r) => Some (c :: r)
    | _ => None
    end.
Proof.
  intros Hin. unfold positionalMapping.
  rewrite (fold_positions_lookup headers COLUMN_POSITIONS ∅ key p)
    by (done || apply COLUMN_POSITIONS_NoDup).
  rewrite lookup_empty. by destruct (headers !! p) as [[|c r]|].
Qed.

Lemma findIndex_first {A} (f : A -> bool) (l : list A) (j : nat) (x : A) :
  l !! j = Some x → f x = true →
  (forall i y, (i < j)%nat → l !! i = Some y → f y = false) →
  findIndex f l = Some j.
Proof.
  revert j. induction l as [|a l IH]; intros [|j] Hj Hx Hbefore; simpl in *; try done.
  - injection Hj as ->. by rewrite Hx.
  - rewrite (Hbefore 0%nat a) by (done || lia).
    rewrite (IH j); [done|done|done|].
    intros i y Hi Hy. apply (Hbefore (S i) y); [lia|done].
Qed.

(** Which cell a field is read from: where the fifth row has no header at
    the field's position the field reads as [undefined], whatever the row
    holds; where it has one that no column to its left bears, the field is
    the cell of its own column. *)
Theorem item_cell_own_column (headers : list jsstring) (row : list value)
    (key : jsstring) (p : nat) :
  (key, p) ∈ COLUMN_POSITIONS →
  ((headers !! p = None ∨ headers !! p = Some []) →
   item_cell headers (positionalMapping headers) row key = VUndefined)
  ∧ (forall h, headers !! p = Some h → h ≠ [] →
       (forall i, (i < p)%nat → headers !! i ≠ Some h) →
       item_cell headers (positionalMapping headers) row key
       = default VUndefined (row !! p)).
Proof.
  intros Hin. unfold item_cell. rewrite (positionalMapping_lookup headers key p Hin).
  split.
  - by intros [->| ->].
  - intros h Hh Hne Hfirst. rewrite Hh. destruct h as [|c r]; [done|].
    unfold indexOf. rewrite (findIndex_first _ headers p (c :: r)); [done|done| |].
    + by apply bool_decide_eq_true.
    + intros i y Hi Hy. apply bool_decide_eq_false. intros ->. by apply (Hfirst i).
Qed.

Lemma item_cell_own_column_witness :
  (lit "inHours", 14%nat) ∈ COLUMN_POSITIONS
  ∧ item_cell (header_row sample_daily 4) (positionalMapping (header_row sample_daily 4))
      sample_row_1 (lit "inHours") = VNumber (of_Z 8)
  ∧ item_cell (header_row sample_daily 0) (positionalMapping (header_row sample_daily 0))
      sample_row_1 (lit "inHours") = VUndefined.
Proof.
  assert ((lit "inHours", 14%nat) ∈ COLUMN_POSITIONS) as Hin
    by (apply (bool_decide_unpack _); by vm_compute).
  split_and!; [exact Hin| |].
  - apply (proj2 (item_cell_own_column (header_row sample_daily 4) sample_row_1
                    (lit "inHours") 14 Hin) (lit "規内")); [by vm_compute|by vm_compute|].
    intros i Hi. assert (i ∈ seq 0 14) as Hseq by (apply elem_of_seq; lia).
    clear Hi. revert i Hseq. apply Forall_forall.
    repeat (constructor; [by vm_compute|]). constructor.
  - apply (proj1 (item_cell_own_column (header_row sample_daily 0) sample_row_1
                    (lit "inHours") 14 Hin)). left. by vm_compute.
Defined.

End Positions.

(** ** Uploading a file (pages/Import.tsx) *)

Section Uploads.
Import Effects ErrorHandler ExcelParser DataContext ImportFlow Rows Examples.

Variable hostDateParse : jsstring -> time_value.
Variable clock : nat -> Z.
Variable builtin_message : error -> jsstring.
Variable encoder_available : bool.

Local Abbreviation upload_with := (handleFileUpload hostDateParse clock builtin_message encoder_available).
Local Abbreviation parse := (parseExcelFile hostDateParse clock builtin_message).

(** The page as [handleFileUpload] leaves it when the file is refused. *)
Lemma handleFileUpload_unfold (upload : Upload) (page : Page) (store : Store) (k : nat) :
  upload_with upload (page, store) k
  = let validation := validateFileType (upload_file upload) in
    let started := setImportResult None (setAppError None (setErrors (fun _ => [])
                     (setIsProcessing true page))) in
    if negb (isValid validation)
    then ((setIsProcessing false (setErrors (fun _ => vr_errors validation) started), store), k)
    else
      let warned :=
        if (0 <? length (vr_warnings validation))%nat
        then setErrors (fun prev => prev ++ vr_warnings validation) started
        else started in
      match parse (upload_content upload) k with
      | (Resolved parsed, k') =>
        let result := fst (ImportPage.handleFileUpload encoder_available (clock k')
                             (parsed_workItems parsed) (parsed_workCodes parsed)) in
        let uniqueItems := snd (ImportPage.handleFileUpload encoder_available (clock k')
                                  (parsed_workItems parsed) (parsed_workCodes parsed)) in
        let shown := setImportResult (Some result)
                       (setParsed uniqueItems (parsed_workCodes parsed)
                                  (parsed_columnMapping parsed) warned) in
        ((setIsProcessing false
            (if (0 <? undefinedCodes result)%nat
             then setErrors (fun _ => [lit "未定義の小区分コードが "
                                         ++ dec_digits (Z.of_nat (undefinedCodes result))
                                         ++ lit " 件見つかりました"]) shown
             else shown),
          {| store_workItems := addWorkItems uniqueItems (store_workItems store);
             store_workCodes := addWorkCodes (parsed_workCodes parsed)
                                             (store_workCodes store) |}),
         S k')
      | (Rejected error, k') =>
        ((setIsProcessing false
            (setErrors (fun _ => [getUserFriendlyMessage error])
               (setAppError (Some error) warned)), store), k')
      | (Pending, k') => ((warned, store), k')
      end.
Proof.
  unfold handleFileUpload. cbv zeta.
  destruct (negb _); [done|].
  destruct (parse _ k) as [[parsed|error|] k']; [|done..].
  by destruct (ImportPage.handleFileUpload _ _ _ _).
Qed.

Ltac page_fields :=
  cbn [setIsDragOver setIsProcessing setImportResult setParsed setErrors setAppError
       isDragOver isProcessing importResult page_workItems page_workCodes
       page_columnMapping page_errors appError].

Lemma validateFileType_errors (file : File) :
  isValid (validateFileType file) = false → vr_errors (validateFileType file) ≠ [].
Proof.
  unfold validateFileType. cbv zeta. cbn [isValid vr_errors].
  intros H%bool_decide_eq_false E. apply H. by rewrite E.
Qed.

(** A file that [validateFileType] refuses is neither read nor stored: the
    store is as it was, the clock is not read, the page shows the
    validation's errors and no import result, and is no longer processing;
    what it listed of an earlier import stays listed. *)
Theorem handleFileUpload_refused_file (upload : Upload) (page : Page) (store : Store)
    (k : nat) :
  isValid (validateFileType (upload_file upload)) = false →
  let '(page', store', k') := upload_with upload (page, store) k in
  store' = store ∧ k' = k
  ∧ page_errors page' = vr_errors (validateFileType (upload_file upload))
  ∧ page_errors page' ≠ []
  ∧ importResult page' = None ∧ appError page' = None ∧ isProcessing page' = false
  ∧ page_workItems page' = page_workItems page
  ∧ page_workCodes page' = page_workCodes page.
Proof.
  intros Hinvalid. rewrite handleFileUpload_unfold. cbv zeta. rewrite Hinvalid.
  cbn [negb]. page_fields.
  split_and!; try reflexivity. by apply validateFileType_errors.
Qed.

(** A file whose reading or parsing is rejected leaves the store as it
    was: the page shows the one message that [getUserFriendlyMessage] has
    for the error's code, in place of any size warning, keeps the error,
    shows no import result and is no longer processing. *)
Theorem handleFileUpload_rejected_file (upload : Upload) (page : Page) (store : Store)
    (k k1 : nat) (error : AppError) :
  isValid (validateFileType (upload_file upload)) = true →
  parse (upload_content upload) k = (Rejected error, k1) →
  let '(page', store', k') := upload_with upload (page, store) k in
  store' = store ∧ k' = k1
  ∧ page_errors page' = [getUserFriendlyMessage error]
  ∧ appError page' = Some error
  ∧ importResult page' = None ∧ isProcessing page' = false.
Proof.
  intros Hvalid Hparse. rewrite handleFileUpload_unfold. cbv zeta.
  rewrite Hvalid, Hparse. cbn [negb].
  destruct (0 <? _)%nat; page_fields; by split_and!.
Qed.

Lemma unique_items (now : Z) (items : list WorkItem) (codes : list WorkCode) :
  snd (ImportPage.handleFileUpload encoder_available now items codes)
  = Spec.first_occurrences []
      (map (fun item => with_srcHash item (generateRowHash encoder_available item)) items).
Proof.
  unfold ImportPage.handleFileUpload. cbv zeta. cbn [snd].
  by destruct (checkDuplicates_occurrences
                 (map (fun item => with_srcHash item (generateRowHash encoder_available item))
                      items)) as [-> _].
Qed.

Lemma import_counts (now : Z) (items : list WorkItem) (codes : list WorkCode) :
  let result := fst (ImportPage.handleFileUpload encoder_available now items codes) in
  inserted result
  = length (snd (ImportPage.handleFileUpload encoder_available now items codes))
  ∧ (inserted result + ir_duplicates result = length items)%nat.
Proof.
  cbv zeta. unfold ImportPage.handleFileUpload. cbv zeta. cbn [fst snd inserted ir_duplicates].
  split; [done|].
  destruct (checkDuplicates_occurrences
              (map (fun item => with_srcHash item (generateRowHash encoder_available item))
                   items)) as [-> ->].
  by rewrite length_occurrences, length_map.
Qed.

(** A file that is read and parsed: the store takes, behind what it held,
    those of the batch's unique records whose hashes it did not hold, and
    the codes by [addWorkCodes]; the result counts the batch alone, its
    [inserted] and [duplicates] adding up to the parsed records, so that the
    store grows by [inserted] at most; the page lists all the unique records
    and shows the count of undefined codes if there is one, the size warning
    of the validation otherwise. *)
Theorem handleFileUpload_imported (upload : Upload) (page : Page) (store : Store)
    (k k1 : nat) (parsed : ParsedFile) :
  isValid (validateFileType (upload_file upload)) = true →
  parse (upload_content upload) k = (Resolved parsed, k1) →
  let '(page', store', k') := upload_with upload (page, store) k in
  let outcome := ImportPage.handleFileUpload encoder_available (clock k1)
                   (parsed_workItems parsed) (parsed_workCodes parsed) in
  importResult page' = Some (fst outcome)
  ∧ page_workItems page' = snd outcome
  ∧ store_workItems store'
    = store_workItems store
      ++ filter (fun item => srcHash item ∉ map srcHash (store_workItems store)) (snd outcome)
  ∧ store_workCodes store' = addWorkCodes (parsed_workCodes parsed) (store_workCodes store)
  ∧ (inserted (fst outcome) + ir_duplicates (fst outcome)
     = length (parsed_workItems parsed))%nat
  ∧ (length (store_workItems store')
     <= length (store_workItems store) + inserted (fst outcome))%nat
  ∧ page_errors page'
    = (if (0 <? undefinedCodes (fst outcome))%nat
       then [lit "未定義の小区分コードが "
               ++ dec_digits (Z.of_nat (undefinedCodes (fst outcome)))
               ++ lit " 件見つかりました"]
       else vr_warnings (validateFileType (upload_file upload)))
  ∧ isProcessing page' = false ∧ k' = S k1.
Proof.
  intros Hvalid Hparse. rewrite handleFileUpload_unfold. cbv zeta.
  rewrite Hvalid, Hparse. cbn [negb].
  set (outcome := ImportPage.handleFileUpload encoder_available (clock k1)
                    (parsed_workItems parsed) (parsed_workCodes parsed)).
  destruct (import_counts (clock k1) (parsed_workItems parsed) (parsed_workCodes parsed))
    as [Hins Hsum]. fold outcome in Hins, Hsum.
  cbn [store_workItems store_workCodes].
  rewrite addWorkItems_app.
  split_and!.
  - by destruct (0 <? undefinedCodes _)%nat.
  - by destruct (0 <? undefinedCodes _)%nat.
  - done.
  - done.
  - done.
  - rewrite length_app, Hins. pose proof (length_filter
      (fun item => srcHash item ∉ map srcHash (store_workItems store)) (snd outcome)). lia.
  - destruct (0 <? undefinedCodes _)%nat; page_fields; [done|].
    destruct (vr_warnings _) as [|w ws]; by page_fields.
  - by destruct (0 <? undefinedCodes _)%nat.
  - done.
Qed.

Lemma handleFileUpload_store (upload : Upload) (state : Page * Store) (k : nat) :
  snd (fst (upload_with upload state k)) = snd state
  ∨ exists now items codes,
      store_workItems (snd (fst (upload_with upload state k)))
      = addWorkItems (snd (ImportPage.handleFileUpload encoder_available now items codes))
                     (store_workItems (snd state)).
Proof.
  destruct state as [page store]. rewrite handleFileUpload_unfold. cbv zeta.
  destruct (negb _); [by left|].
  destruct (parse _ k) as [[parsed|error|] k']; [|by left..].
  right. by eexists _, _, _.
Qed.

(** Every handler keeps the hashes of the store pairwise distinct. *)
Theorem uploads_keep_hashes_distinct (upload : Upload) (files : list Upload)
    (state : Page * Store) (k : nat) :
  NoDup (map srcHash (store_workItems (snd state))) →
  NoDup (map srcHash (store_workItems (snd (fst (upload_with upload state k)))))
  ∧ NoDup (map srcHash (store_workItems (snd (fst
             (handleDrop hostDateParse clock builtin_message encoder_available
                files state k)))))
  ∧ NoDup (map srcHash (store_workItems (snd (fst
             (handleFileInput hostDateParse clock builtin_message encoder_available
                files state k))))).
Proof.
  intros Hstore.
  assert (forall u st, NoDup (map srcHash (store_workItems (snd st))) →
            NoDup (map srcHash (store_workItems (snd (fst (upload_with u st k)))))) as Hup.
  { intros u st Hst. destruct (handleFileUpload_store u st k) as [->|(now & its & cs & ->)];
      [done|].
    apply addWorkItems_NoDup; [done|]. rewrite unique_items.
    apply first_occurrences_NoDup. }
  split_and!.
  - by apply Hup.
  - unfold handleDrop. destruct state as [page store].
    destruct (List.find _ files) as [file|]; [|done].
    by apply Hup.
  - unfold handleFileInput. destruct files as [|file files]; [done|]. by apply Hup.
Qed.

Lemma parse_resolved_workbook (content : file_content) (k k' : nat) (parsed : ParsedFile) :
  parse content k = (Resolved parsed, k') → exists wb, content = Workbook wb.
Proof.
  destruct content as [|t|wb]; [| |by exists wb].
  - unfold parseExcelFile, onerror. cbv zeta.
    destruct (rejection _ _ _ _ _) as [[[r|e]|t'] k2] eqn:Hrej; try done.
    by apply rejection_Returned in Hrej as (? & ? & _).
  - unfold parseExcelFile, onload, try_catch. cbv zeta.
    unfold fmap at 1, M_fmap at 1, throw.
    destruct (rejection _ _ _ _ _) as [[[r|e]|t'] k2] eqn:Hrej; try done.
    by apply rejection_Returned in Hrej as (? & ? & _).
Qed.

Lemma read_from_row_row_key (headers : list jsstring) (row : list value)
    (item1 item2 : WorkItem) :
  read_from_row hostDateParse headers row item1 →
  read_from_row hostDateParse headers row item2 →
  row_key item1 = row_key item2.
Proof.
  intros ((d1 & Hd1 & Hw1) & Hc1 & _ & Hr1 & _ & _ & Hp1 & _ & Ha1 & Hs1 & Hi1 & Ho1 & _)
         ((d2 & Hd2 & Hw2) & Hc2 & _ & Hr2 & _ & _ & Hp2 & _ & Ha2 & Hs2 & Hi2 & Ho2 & _).
  rewrite Hd1 in Hd2. injection Hd2 as <-.
  unfold row_key. by rewrite Hw1, Hw2, Hc1, Hc2, Hp1, Hp2, Hs1, Hs2, Ha1, Ha2, Hr1, Hr2,
    Hi1, Hi2, Ho1, Ho2.
Qed.

(** Parsing a workbook at two moments gives the same hashes, row by row. *)
Lemma parsed_hashes (wb : workbook) (k1 k1' k2 k2' : nat) (p1 p2 : ParsedFile) :
  parse (Workbook wb) k1 = (Resolved p1, k1') →
  parse (Workbook wb) k2 = (Resolved p2, k2') →
  map (generateRowHash encoder_available) (parsed_workItems p1)
  = map (generateRowHash encoder_available) (parsed_workItems p2).
Proof.
  intros (d1 & Hd1 & Hlen1 & Hrows1 & _)%resolved_items
         (d2 & Hd2 & Hlen2 & Hrows2 & _)%resolved_items.
  rewrite Hd1 in Hd2. injection Hd2 as <-.
  apply list_eq_same_length with (length (parsed_workItems p1));
    [by rewrite length_map, Hlen2, <- Hlen1|by rewrite length_map|].
  intros j h1 h2 Hj H1 H2.
  apply list_lookup_fmap_Some in H1 as (item1 & -> & H1).
  apply list_lookup_fmap_Some in H2 as (item2 & -> & H2).
  destruct (lookup_lt_is_Some_2 (List.filter has_content (drop 5 d1)) j) as [row Hrow].
  { by rewrite <- Hlen1. }
  destruct (Hrows1 j row Hrow) as (x1 & t1 & Hx1 & Hread1 & _).
  destruct (Hrows2 j row Hrow) as (x2 & t2 & Hx2 & Hread2 & _).
  rewrite H1 in Hx1. injection Hx1 as <-. rewrite H2 in Hx2. injection Hx2 as <-.
  unfold generateRowHash. cbv zeta.
  by rewrite (read_from_row_row_key _ _ _ _ Hread1 Hread2).
Qed.

Lemma first_occurrences_hashes (l1 l2 : list WorkItem) : forall e1 e2,
  map srcHash l1 = map srcHash l2 → map srcHash e1 = map srcHash e2 →
  map srcHash (Spec.first_occurrences e1 l1) = map srcHash (Spec.first_occurrences e2 l2).
Proof.
  revert l2. induction l1 as [|x l1 IH]; intros [|y l2] e1 e2 Hl He; try done.
  simpl in Hl. injection Hl as Hxy Hl. simpl. rewrite !map_app, He, Hxy.
  f_equal; [case_bool_decide; simpl; [done|by rewrite Hxy]|].
  apply IH; [done|]. rewrite !map_app, He. simpl. by rewrite Hxy.
Qed.

Lemma first_occurrences_covers (l : list WorkItem) : forall e h,
  h ∈ map srcHash l →
  h ∈ map srcHash e ∨ h ∈ map srcHash (Spec.first_occurrences e l).
Proof.
  induction l as [|x l IH]; intros e h; simpl; [by intros ?%elem_of_nil|].
  rewrite map_app, !elem_of_cons, elem_of_app. intros [->|Hin].
  - case_bool_decide; [by left|]. right. left. simpl. left.
  - destruct (IH (e ++ [x]) h Hin) as [He|Hf]; [|right; by right].
    rewrite map_app, elem_of_app in He. destruct He as [?|He]; [by left|].
    simpl in He. apply list_elem_of_singleton in He as ->.
    case_bool_decide; [by left|]. right. left. simpl. left.
Qed.

Lemma workCodes_codes (codesHeaders : list jsstring) (rows : sheet) :
  forall (index k k' : nat) (codes : list WorkCode),
    map_rows (fun row _ => workCode_of_row clock codesHeaders row) rows index k
    = (Returned codes, k') →
    map wc_subworkCode codes
    = map (fun row => parseString
                        (cell_at row (findIndex (is_code_header (lit "小区分") false)
                                                codesHeaders))) rows.
Proof.
  induction rows as [|row rows IH]; intros index k k' codes; simpl.
  - by intros [<- _]%ret_Returned.
  - intros (x & k1 & Hx & H)%bind_Returned.
    apply bind_Returned in H as (xs & k2 & Hxs & H).
    apply ret_Returned in H as [<- <-]. simpl.
    rewrite (IH _ _ _ _ Hxs). f_equal.
    unfold workCode_of_row in Hx. cbv zeta in Hx.
    apply bind_Returned in Hx as (ts & k3 & _ & Hx).
    by apply ret_Returned in Hx as [<- _].
Qed.

Lemma parsed_codes (wb : workbook) (k1 k1' k2 k2' : nat) (p1 p2 : ParsedFile) :
  parse (Workbook wb) k1 = (Resolved p1, k1') →
  parse (Workbook wb) k2 = (Resolved p2, k2') →
  map wc_subworkCode (parsed_workCodes p1) = map wc_subworkCode (parsed_workCodes p2).
Proof.
  intros H1%parseExcelFile_Resolved H2%parseExcelFile_Resolved.
  revert H1 H2. unfold parse_workbook.
  destruct (dailyDataSheet wb) as [dailyData|]; [|done]. cbv zeta.
  intros (items1 & j1 & _ & H1)%bind_Returned (items2 & j2 & _ & H2)%bind_Returned.
  apply bind_Returned in H1 as (codes1 & i1 & Hc1 & H1).
  apply bind_Returned in H2 as (codes2 & i2 & Hc2 & H2).
  apply ret_Returned in H1 as [<- _]. apply ret_Returned in H2 as [<- _].
  cbn [parsed_workCodes].
  destruct (find_sheet wb _) as [codesData|].
  - by rewrite (workCodes_codes _ _ _ _ _ _ Hc1), (workCodes_codes _ _ _ _ _ _ Hc2).
  - apply ret_Returned in Hc1 as [<- _]. by apply ret_Returned in Hc2 as [<- _].
Qed.

Lemma addWorkCodes_nothing_new (codes prev : list WorkCode) :
  Forall (fun code => wc_subworkCode code ∈ map wc_subworkCode prev) codes →
  addWorkCodes codes prev = prev.
Proof.
  intros Hall. unfold addWorkCodes. cbv zeta.
  replace (filter _ codes) with (@nil WorkCode); [by rewrite app_nil_r|].
  symmetry. induction Hall as [|code codes Hcode _ IH]; [done|].
  rewrite filter_cons, decide_False; [exact IH|].
  rewrite elem_of_list_to_set. tauto.
Qed.

Lemma addWorkCodes_codes (codes prev : list WorkCode) (c : jsstring) :
  c ∈ map wc_subworkCode codes → c ∈ map wc_subworkCode (addWorkCodes codes prev).
Proof.
  intros (code & -> & Hin)%list_elem_of_fmap. unfold addWorkCodes. cbv zeta.
  rewrite map_app, elem_of_app.
  destruct (decide (wc_subworkCode code ∈ map wc_subworkCode prev)) as [?|Hnew]; [by left|].
  right. apply list_elem_of_fmap. exists code. split; [done|].
  apply list_elem_of_filter. split; [|done]. by rewrite elem_of_list_to_set.
Qed.

(** Uploading a workbook a second time leaves the store as the first
    upload left it, although the records come with new ids and times and
    the result reports as many [inserted] as the first time. *)
Theorem handleFileUpload_again (upload : Upload) (page : Page) (store : Store)
    (k k2 k1' k2' : nat) (p1 p2 : ParsedFile) :
  isValid (validateFileType (upload_file upload)) = true →
  parse (upload_content upload) k = (Resolved p1, k1') →
  parse (upload_content upload) k2 = (Resolved p2, k2') →
  let first := fst (upload_with upload (page, store) k) in
  let second := fst (upload_with upload first k2) in
  snd second = snd first
  ∧ inserted <$> importResult (fst second) = inserted <$> importResult (fst first)
  ∧ is_Some (importResult (fst second)).
Proof.
  intros Hvalid H1 H2. cbv zeta.
  destruct (parse_resolved_workbook _ _ _ _ H1) as [wb Hwb].
  rewrite Hwb in H1, H2.
  pose proof (parsed_hashes wb _ _ _ _ _ _ H1 H2) as Hhashes.
  pose proof (parsed_codes wb _ _ _ _ _ _ H1 H2) as Hcodes.
  rewrite <- Hwb in H1, H2.
  rewrite (handleFileUpload_unfold upload page store k). cbv zeta.
  rewrite Hvalid, H1. cbn [negb fst snd].
  rewrite handleFileUpload_unfold. cbv zeta. rewrite Hvalid, H2. cbn [negb fst snd].
  rewrite !unique_items.
  set (l1 := map (fun item => with_srcHash item (generateRowHash encoder_available item))
                 (parsed_workItems p1)).
  set (l2 := map (fun item => with_srcHash item (generateRowHash encoder_available item))
                 (parsed_workItems p2)).
  assert (map srcHash l1 = map srcHash l2) as Hl.
  { unfold l1, l2. rewrite !map_map. exact Hhashes. }
  pose proof (first_occurrences_hashes l1 l2 [] [] Hl eq_refl) as Hfirst.
  split_and!.
  - f_equal.
    + cbn [store_workItems]. apply addWorkItems_nothing_new.
      apply Forall_forall. intros item Hitem.
      apply addWorkItems_hashes. right. rewrite Hfirst.
      apply list_elem_of_fmap. by exists item.
    + cbn [store_workCodes]. apply addWorkCodes_nothing_new.
      apply Forall_forall. intros code Hcode.
      apply addWorkCodes_codes. rewrite Hcodes.
      apply list_elem_of_fmap. by exists code.
  - assert (forall (p q : Page) (b : bool) f,
              importResult (setIsProcessing false (if b then setErrors f p else p))
              = importResult p) as Hres by (by intros ? ? []).
    rewrite !(Hres _ page). page_fields. cbn [fmap option_fmap option_map]. f_equal.
    destruct (import_counts (clock k1') (parsed_workItems p1) (parsed_workCodes p1))
      as [-> _].
    destruct (import_counts (clock k2') (parsed_workItems p2) (parsed_workCodes p2))
      as [-> _].
    rewrite !unique_items. fold l1 l2.
    rewrite <- (length_map srcHash (Spec.first_occurrences [] l1)), Hfirst.
    by rewrite length_map.
  - assert (forall (p q : Page) (b : bool) f,
              importResult (setIsProcessing false (if b then setErrors f p else p))
              = importResult p) as Hres by (by intros ? ? []).
    rewrite !(Hres _ page). by page_fields.
Qed.

(** With a clock in order [handleFileUpload] always comes to its end: the
    page is no longer processing, and it shows errors or an import result. *)
Theorem handleFileUpload_finishes (upload : Upload) (page : Page) (store : Store)
    (k : nat) :
  (forall n, valid_time (clock n)) →
  let page' := fst (fst (upload_with upload (page, store) k)) in
  isProcessing page' = false
  ∧ (page_errors page' ≠ [] ∨ is_Some (importResult page')).
Proof.
  intros Hclock. cbv zeta. rewrite handleFileUpload_unfold. cbv zeta.
  destruct (isValid _) eqn:Hvalid; cbn [negb fst].
  - pose proof (parseExcelFile_settled hostDateParse clock builtin_message
                  (upload_content upload) k Hclock) as Hsettled.
    destruct (parse _ k) as [[parsed|error|] k']; [| |done]; cbn [fst].
    + split; [by destruct (0 <? undefinedCodes _)%nat|]. right.
      by destruct (0 <? undefinedCodes _)%nat.
    + split; [done|]. by left.
  - page_fields. split; [done|]. left. by apply validateFileType_errors.
Qed.

(** One date that [parseDate] throws on, and nothing of the file reaches
    the store: the page shows the message for a workbook of the wrong
    format, and no import result. *)
Theorem handleFileUpload_bad_date (upload : Upload) (page : Page) (store : Store)
    (wb : workbook) (dailyData : sheet) (row : list value) (e : error) (k : nat) :
  (forall n, valid_time (clock n)) →
  isValid (validateFileType (upload_file upload)) = true →
  upload_content upload = Workbook wb →
  dailyDataSheet wb = Some dailyData →
  row ∈ List.filter has_content (drop 5 dailyData) →
  parseDate hostDateParse
    (item_cell (header_row dailyData 4) (positionalMapping (header_row dailyData 4))
       row (lit "workDate")) = Throw e →
  let '(page', store', _) := upload_with upload (page, store) k in
  store' = store
  ∧ page_errors page'
    = [lit "Excelファイルの形式が正しくありません。正しい形式のファイルをアップロードしてください。"]
  ∧ importResult page' = None ∧ isProcessing page' = false.
Proof.
  intros Hclock Hvalid Hcontent Hsheet Hrow Hthrow.
  rewrite handleFileUpload_unfold. cbv zeta. rewrite Hvalid, Hcontent. cbn [negb].
  pose proof (parseExcelFile_settled hostDateParse clock builtin_message (Workbook wb) k
                Hclock) as Hsettled.
  pose proof (bad_date_unresolved hostDateParse clock builtin_message wb dailyData row e k
                Hsheet Hrow Hthrow) as Hunresolved.
  pose proof (workbook_rejection_code hostDateParse clock builtin_message wb k) as Hcode.
  destruct (parse (Workbook wb) k) as [[parsed|error|] k']; [done| |done].
  specialize (Hcode error eq_refl).
  split_and!; [done| |by destruct (0 <? _)%nat..].
  assert (getUserFriendlyMessage error
          = lit "Excelファイルの形式が正しくありません。正しい形式のファイルをアップロードしてください。") as ->.
  { unfold getUserFriendlyMessage. rewrite Hcode. by vm_compute. }
  by destruct (0 <? _)%nat.
Qed.

Lemma find_none_Forall {A} (f : A -> bool) (l : list A) :
  Forall (fun x => f x = false) l → List.find f l = None.
Proof. induction 1 as [|x l Hx _ IH]; simpl; [done|]. by rewrite Hx. Qed.

(** Of the files dropped on the page the first whose name ends in [.xlsx]
    or [.xls] is uploaded, whatever its type, and the others are left
    alone; a drop without such a file changes nothing but the drag flag. *)
Theorem handleDrop_first_workbook (others files : list Upload) (file : Upload)
    (page : Page) (store : Store) (k : nat) :
  let named (f : Upload) := endsWith (file_name (upload_file f)) (lit ".xlsx")
                            || endsWith (file_name (upload_file f)) (lit ".xls") in
  Forall (fun f => named f = false) others →
  handleDrop hostDateParse clock builtin_message encoder_available others (page, store) k
  = ((setIsDragOver false page, store), k)
  ∧ (named file = true →
     handleDrop hostDateParse clock builtin_message encoder_available
       (others ++ file :: files) (page, store) k
     = upload_with file (setIsDragOver false page, store) k).
Proof.
  cbv zeta. intros Hothers. unfold handleDrop. cbv zeta. split.
  - by rewrite find_none_Forall.
  - intros Hfile. rewrite find_app, find_none_Forall by done. simpl.
    by rewrite Hfile.
Qed.

End Uploads.

Section UploadExamples.
Import Effects ErrorHandler ExcelParser DataContext ImportFlow Rows Examples.

Lemma handleFileUpload_refused_file_witness :
  isValid (validateFileType (upload_file picture_upload)) = false
  ∧ snd (fst (handleFileUpload strict_host sample_clock sample_message true picture_upload
                (initial_page, empty_store) 0)) = empty_store
  ∧ length (page_errors (fst (fst (handleFileUpload strict_host sample_clock sample_message
                                     true picture_upload (initial_page, empty_store) 0))))
    = 1%nat.
Proof.
  assert (isValid (validateFileType (upload_file picture_upload)) = false) as H
    by by vm_compute.
  split; [exact H|].
  pose proof (handleFileUpload_refused_file strict_host sample_clock sample_message true
                picture_upload initial_page empty_store 0 H) as T.
  destruct (handleFileUpload _ _ _ _ _ _ _) as [[page' store'] k']. cbn [fst snd].
  destruct T as (-> & _ & -> & _). split; [reflexivity|by vm_compute].
Defined.

Lemma handleFileUpload_rejected_file_witness :
  isValid (validateFileType sample_file) = true
  ∧ exists error,
      fst (parseExcelFile strict_host sample_clock sample_message (Workbook []) 0)
      = Rejected error
      ∧ snd (fst (handleFileUpload strict_host sample_clock sample_message true
                    {| upload_file := sample_file; upload_content := Workbook [] |}
                    (initial_page, empty_store) 0)) = empty_store.
Proof.
  assert (isValid (validateFileType sample_file) = true) as Hvalid by by vm_compute.
  split; [exact Hvalid|].
  destruct (parseExcelFile strict_host sample_clock sample_message (Workbook []) 0)
    as [[parsed|error|] k1] eqn:H; [by vm_compute in H| |by vm_compute in H].
  exists error. split; [reflexivity|].
  pose proof (handleFileUpload_rejected_file strict_host sample_clock sample_message true
                {| upload_file := sample_file; upload_content := Workbook [] |}
                initial_page empty_store 0 k1 error Hvalid H) as T.
  destruct (handleFileUpload _ _ _ _ _ _ _) as [[page' store'] k']. cbn [fst snd].
  by destruct T as (-> & _).
Defined.

Lemma handleFileUpload_imported_witness :
  isValid (validateFileType (upload_file sample_upload)) = true
  ∧ parseExcelFile strict_host sample_clock sample_message (upload_content sample_upload) 0
    = (Resolved sample_parsed, 6%nat)
  ∧ inserted <$> importResult
      (fst (fst (handleFileUpload strict_host sample_clock sample_message true sample_upload
                   (initial_page, empty_store) 0))) = Some 2%nat
  ∧ length (store_workItems
      (snd (fst (handleFileUpload strict_host sample_clock sample_message true sample_upload
                   (initial_page, empty_store) 0)))) = 2%nat.
Proof.
  assert (isValid (validateFileType (upload_file sample_upload)) = true) as Hvalid
    by by vm_compute.
  split_and!; [exact Hvalid|exact sample_workbook_resolves| |].
  - pose proof (handleFileUpload_imported strict_host sample_clock sample_message true
                  sample_upload initial_page empty_store 0 6 sample_parsed Hvalid
                  sample_workbook_resolves) as T.
    destruct (handleFileUpload _ _ _ _ _ _ _) as [[page' store'] k']. cbn [fst snd].
    destruct T as (-> & _). by vm_compute.
  - pose proof (handleFileUpload_imported strict_host sample_clock sample_message true
                  sample_upload initial_page empty_store 0 6 sample_parsed Hvalid
                  sample_workbook_resolves) as T.
    destruct (handleFileUpload _ _ _ _ _ _ _) as [[page' store'] k']. cbn [fst snd].
    destruct T as (_ & _ & -> & _). by vm_compute.
Defined.

Lemma uploads_keep_hashes_distinct_witness :
  NoDup (map srcHash (store_workItems (snd (initial_page, empty_store))))
  ∧ NoDup (map srcHash (store_workItems (snd (fst
             (handleFileUpload strict_host sample_clock sample_message true sample_upload
                (initial_page, empty_store) 0))))).
Proof.
  assert (NoDup (map srcHash (store_workItems (snd (initial_page, empty_store))))) as H
    by constructor.
  split; [exact H|].
  exact (proj1 (uploads_keep_hashes_distinct strict_host sample_clock sample_message true
                  sample_upload [] (initial_page, empty_store) 0 H)).
Defined.

Lemma sample_workbook_resolves_again :
  parseExcelFile strict_host sample_clock sample_message (Workbook sample_workbook) 7
  = (Resolved sample_parsed_again, 13%nat).
Proof. by vm_compute. Defined.

Lemma handleFileUpload_again_witness :
  isValid (validateFileType (upload_file sample_upload)) = true
  ∧ parseExcelFile strict_host sample_clock sample_message (upload_content sample_upload) 0
    = (Resolved sample_parsed, 6%nat)
  ∧ parseExcelFile strict_host sample_clock sample_message (upload_content sample_upload) 7
    = (Resolved sample_parsed_again, 13%nat)
  ∧ map id (parsed_workItems sample_parsed) ≠ map id (parsed_workItems sample_parsed_again)
  ∧ snd (fst (handleFileUpload strict_host sample_clock sample_message true sample_upload
                (fst (handleFileUpload strict_host sample_clock sample_message true
                        sample_upload (initial_page, empty_store) 0)) 7))
    = snd (fst (handleFileUpload strict_host sample_clock sample_message true sample_upload
                  (initial_page, empty_store) 0)).
Proof.
  assert (isValid (validateFileType (upload_file sample_upload)) = true) as Hvalid
    by by vm_compute.
  split_and!; [exact Hvalid|exact sample_workbook_resolves
              |exact sample_workbook_resolves_again|by vm_compute|].
  exact (proj1 (handleFileUpload_again strict_host sample_clock sample_message true
                  sample_upload initial_page empty_store 0 7 6 13 sample_parsed
                  sample_parsed_again Hvalid sample_workbook_resolves
                  sample_workbook_resolves_again)).
Defined.

Lemma frozen_clock_valid : forall n, valid_time (frozen_clock n).
Proof. intros n. unfold valid_time, frozen_clock. by vm_compute. Defined.

Lemma handleFileUpload_finishes_witness :
  (forall n, valid_time (frozen_clock n))
  ∧ isProcessing (fst (fst (handleFileUpload strict_host frozen_clock sample_message true
                              bad_upload (initial_page, empty_store) 0))) = false.
Proof.
  split; [exact frozen_clock_valid|].
  exact (proj1 (handleFileUpload_finishes strict_host frozen_clock sample_message true
                  bad_upload initial_page empty_store 0 frozen_clock_valid)).
Defined.

Lemma handleFileUpload_bad_date_witness :
  (forall n, valid_time (frozen_clock n))
  ∧ isValid (validateFileType (upload_file bad_upload)) = true
  ∧ [VString (lit "100025570")]
    ∈ List.filter has_content (drop 5 (sample_daily ++ [[VString (lit "100025570")]]))
  ∧ snd (fst (handleFileUpload strict_host frozen_clock sample_message true bad_upload
                (initial_page, empty_store) 0)) = empty_store.
Proof.
  assert (isValid (validateFileType (upload_file bad_upload)) = true) as Hvalid
    by by vm_compute.
  assert ([VString (lit "100025570")]
          ∈ List.filter has_content (drop 5 (sample_daily ++ [[VString (lit "100025570")]])))
    as Hrow.
  { apply list_elem_of_In, filter_In. split; [|by vm_compute].
    simpl. right. right. right. by left. }
  split_and!; [exact frozen_clock_valid|exact Hvalid|exact Hrow|].
  pose proof (handleFileUpload_bad_date strict_host frozen_clock sample_message true
                bad_upload initial_page empty_store bad_workbook
                (sample_daily ++ [[VString (lit "100025570")]]) [VString (lit "100025570")]
                RangeError 0 frozen_clock_valid Hvalid eq_refl ltac:(by vm_compute) Hrow
                ltac:(by vm_compute)) as T.
  destruct (handleFileUpload _ _ _ _ _ _ _) as [[page' store'] k']. cbn [fst snd].
  by destruct T as (-> & _).
Defined.

Lemma handleDrop_first_workbook_witness :
  Forall (fun f => endsWith (file_name (upload_file f)) (lit ".xlsx")
                   || endsWith (file_name (upload_file f)) (lit ".xls") = false)
         [picture_upload]
  ∧ handleDrop strict_host sample_clock sample_message true [picture_upload]
      (initial_page, empty_store) 0
    = ((setIsDragOver false initial_page, empty_store), 0%nat)
  ∧ handleDrop strict_host sample_clock sample_message true
      ([picture_upload] ++ sample_upload :: [bad_upload]) (initial_page, empty_store) 0
    = handleFileUpload strict_host sample_clock sample_message true sample_upload
        (setIsDragOver false initial_page, empty_store) 0.
Proof.
  assert (Forall (fun f => endsWith (file_name (upload_file f)) (lit ".xlsx")
                           || endsWith (file_name (upload_file f)) (lit ".xls") = false)
                 [picture_upload]) as H by (constructor; [by vm_compute|constructor]).
  destruct (handleDrop_first_workbook strict_host sample_clock sample_message true
              [picture_upload] [bad_upload] sample_upload initial_page empty_store 0 H)
    as [H1 H2].
  split_and!; [exact H|exact H1|]. apply H2. by vm_compute.
Defined.

End UploadExamples.

(** ** Editing the codes (pages/Codes.tsx) *)

Section CodesPageProofs.
Import CodesPage.

(** Saving an edit never changes which sub-work codes the page lists, nor
    how many rows: the rows that bear the sub-work code of the edited data,
    as it stands after the edit, become the edited data, and no other row
    changes. An edit that changes the sub-work code to one that no row bears
    is therefore lost; either way the edit is closed. *)
Theorem handleSave_keeps_codes (st : State) :
  map row_subworkCode (codes (handleSave st)) = map row_subworkCode (codes st)
  ∧ editingCode (handleSave st) = None ∧ editingData (handleSave st) = None
  ∧ (forall data, editingData st = Some data →
       row_subworkCode data ∉ map row_subworkCode (codes st) →
       codes (handleSave st) = codes st)
  ∧ (forall data i row, editingData st = Some data → codes st !! i = Some row →
       codes (handleSave st) !! i
       = Some (if bool_decide (row_subworkCode row = row_subworkCode data)
               then data else row)).
Proof.
  unfold handleSave. cbn [codes editingCode editingData].
  split_and!; [|done|done| |].
  - destruct (editingData st) as [data|]; [|done].
    rewrite map_map. apply map_ext. intros row. by case_bool_decide.
  - intros data -> Hnew. rewrite <- (map_id (codes st)) at 2.
    apply map_ext_in. intros row Hrow. case_bool_decide as E; [|done].
    exfalso. apply Hnew. rewrite <- E. apply list_elem_of_fmap. exists row.
    split; [done|by apply list_elem_of_In].
  - intros data i row -> Hrow. by rewrite list_lookup_fmap, Hrow.
Qed.

(** A new code is added, at the end, exactly when its sub-work code and
    name and its major code and name are all filled in; no row is looked at,
    so the new row may bear a sub-work code that is listed already. *)
Theorem handleAddNew_appends (st : State) :
  (row_subworkCode (newCode st) ≠ [] ∧ row_subworkName (newCode st) ≠ []
   ∧ row_majorCode (newCode st) ≠ [] ∧ row_majorName (newCode st) ≠ [] →
   codes (handleAddNew st) = codes st ++ [newCode st]
   ∧ newCode (handleAddNew st) = blank_code ∧ isAddingNew (handleAddNew st) = false)
  ∧ (row_subworkCode (newCode st) = [] ∨ row_subworkName (newCode st) = []
     ∨ row_majorCode (newCode st) = [] ∨ row_majorName (newCode st) = [] →
     handleAddNew st = st)
  ∧ handleAddNew (handleAddNew st) = handleAddNew st.
Proof.
  unfold handleAddNew.
  destruct (row_subworkCode (newCode st)) as [|c1 r1] eqn:E1;
    destruct (row_subworkName (newCode st)) as [|c2 r2] eqn:E2;
    destruct (row_majorCode (newCode st)) as [|c3 r3] eqn:E3;
    destruct (row_majorName (newCode st)) as [|c4 r4] eqn:E4;
    cbn [nonempty andb newCode codes isAddingNew blank_code row_subworkCode];
    rewrite ?E1, ?E2, ?E3, ?E4; cbn [nonempty andb];
    split_and!; try done; try tauto; try (intros (? & ? & ? & ?); done);
    intros [?|[?|[?|?]]]; done.
Qed.

End CodesPageProofs.
